(** * osu_Kon_bot: classification and recommendation reconciliation

    A shallow embedding of the decision logic of the [t1] plugin
    ([recommend.py], [admin_tool.py]) and of the three tables it writes,
    followed by the properties of the beatmap classification workflow.

    Conventions of the embedding.
    - A Python [str] is a [string] holding its UTF-8 bytes.
    - A Python [float] is a binary64 [float]; arithmetic and comparison
      are the IEEE operations the interpreter performs.
    - A Python [dict] is an association list in insertion order.
    - A table is the list of its rows; the unique key of a table decides
      what [ON DUPLICATE KEY UPDATE] does.
    - A timestamp ([datetime.now()]) is an integer supplied by the caller. *)

From Stdlib Require Import ZArith List String Ascii Bool Floats Lia.
Import ListNotations.

Set Warnings "-inexact-float".

Open Scope string_scope.
Open Scope list_scope.

(** ** Python dictionaries *)

Module Dict.

Definition t (V : Type) : Type := list (string * V).

(** [d.get(k)] *)
Fixpoint get {V} (k : string) (d : t V) : option V :=
  match d with
  | [] => None
  | (k', v) :: rest => if String.eqb k k' then Some v else get k rest
  end.

(** [d.get(k, default)] *)
Definition get_default {V} (k : string) (default : V) (d : t V) : V :=
  match get k d with
  | Some v => v
  | None => default
  end.

(** [d[k] = v]: an existing key keeps its position, a new one goes last. *)
Fixpoint set {V} (k : string) (v : V) (d : t V) : t V :=
  match d with
  | [] => [(k, v)]
  | (k', v') :: rest =>
      if String.eqb k k' then (k', v) :: rest else (k', v') :: set k v rest
  end.

(** [not d] *)
Definition is_empty {V} (d : t V) : bool :=
  match d with
  | [] => true
  | _ :: _ => false
  end.

Definition keys {V} (d : t V) : list string := map fst d.

End Dict.

(** ** Strings *)

(** [str.lower()] restricted to what the alias lookup can observe: the
    letters A-Z are folded, every other byte is kept.  The only code
    point outside ASCII whose lowercase form is an ASCII letter is the
    Kelvin sign (to k), and no key of [TYPE_ALIASES] contains a k, so the
    restriction does not change which labels are recognised. *)
Definition lower_ascii (c : ascii) : ascii :=
  let n := nat_of_ascii c in
  if andb (Nat.leb 65 n) (Nat.leb n 90) then ascii_of_nat (n + 32) else c.

Fixpoint lower (s : string) : string :=
  match s with
  | EmptyString => EmptyString
  | String c rest => String (lower_ascii c) (lower rest)
  end.

(** [str.upper()], with the same restriction. *)
Definition upper_ascii (c : ascii) : ascii :=
  let n := nat_of_ascii c in
  if andb (Nat.leb 97 n) (Nat.leb n 122) then ascii_of_nat (n - 32) else c.

Fixpoint upper (s : string) : string :=
  match s with
  | EmptyString => EmptyString
  | String c rest => String (upper_ascii c) (upper rest)
  end.

(** ** recommend.py: type aliases *)

Definition TYPE_ALIASES : Dict.t string :=
  [ ("串", "stream"); ("stream", "stream");
    ("跳", "jump"); ("jump", "jump"); ("aim", "jump");
    ("强双", "alt"); ("alt", "alt");
    ("科技", "tech"); ("tech", "tech");
    ("其他", "others"); ("其它", "others"); ("others", "others") ].

(** [VALID_TYPES = set(TYPE_ALIASES.values())] *)
Definition VALID_TYPES : list string := map snd TYPE_ALIASES.

(** [x in VALID_TYPES] *)
Definition in_VALID_TYPES (x : string) : bool :=
  existsb (String.eqb x) VALID_TYPES.

(** ** recommend.py: get_oracle_analysis_results *)

(** The probabilities returned by the classification service, label by
    label. *)
Definition RawProbs : Type := Dict.t float.

(** [normalized_key = TYPE_ALIASES.get(key.lower(), key.lower())] *)
Definition normalized_key_of (key : string) : string :=
  Dict.get_default (lower key) (lower key) TYPE_ALIASES.

(** One turn of the loop of lines 124-127. *)
Definition normalize_step (normalized_probs : Dict.t float)
    (item : string * float) : Dict.t float :=
  let '(key, prob) := item in
  let normalized_key := normalized_key_of key in
  if in_VALID_TYPES normalized_key then
    Dict.set normalized_key
      (Dict.get_default normalized_key 0%float normalized_probs + prob)%float
      normalized_probs
  else normalized_probs.

(** Lines 123-127: the normalized probabilities. *)
Definition normalize_probs (raw_probs : RawProbs) : Dict.t float :=
  fold_left normalize_step raw_probs [].

(** Lines 132-136: the first type, in iteration order, whose probability
    is above one half; [others] when there is none. *)
Fixpoint type_above_half (normalized_probs : Dict.t float) : string :=
  match normalized_probs with
  | [] => "others"
  | (type_name, probability) :: rest =>
      if (0.5 <? probability)%float then type_name else type_above_half rest
  end.

(** The argument is what [get_oracle_classification(bid, True)] returned:
    [None] when the service failed, a dictionary otherwise. *)
Definition get_oracle_analysis_results (raw_probs : option RawProbs)
    : option RawProbs * option string :=
  match raw_probs with
  | None => (None, Some "others")
  | Some raw =>
      if Dict.is_empty raw then (Some raw, Some "others")
      else
        let normalized_probs := normalize_probs raw in
        if Dict.is_empty normalized_probs then (Some raw, Some "others")
        else (Some raw, Some (type_above_half normalized_probs))
  end.

(** The type the service's answer stands for. *)
Definition model_type (normalized_probs : Dict.t float) : string :=
  if Dict.is_empty normalized_probs then "others"
  else type_above_half normalized_probs.

(** ** The relational store *)

(** One row of [BeatmapAnalysis]. *)
Record AnalysisRow : Type := {
  a_bid : Z;
  determined_b_type : string;
  is_auto_typed : bool;
  stream_prob : option float;
  jump_prob : option float;
  alt_prob : option float;
  tech_prob : option float;
  oracle_last_run_at : option Z;
  manual_review_at : option Z;
  reviewed_by_admin_id : option string
}.

(** One row of [PendingBeatmapReviews]. *)
Record PendingRow : Type := {
  p_bid : Z;
  reason_for_pending : string;
  triggered_by_recommendation_id : option Z;
  added_to_queue_at : Z
}.

(** One row of [Recommendations]. *)
Record RecommendationRow : Type := {
  r_id : Z;
  r_qqid : Z;
  r_bid : Z;
  osu_username_at_recommend_time : option string;
  user_requested_type : option string;
  actual_recommend_type : string;
  recommendation_description : string;
  recommended_at : Z
}.

Record DB : Type := {
  BeatmapAnalysis : list AnalysisRow;
  PendingBeatmapReviews : list PendingRow;
  Recommendations : list RecommendationRow
}.

Definition empty_db : DB :=
  {| BeatmapAnalysis := []; PendingBeatmapReviews := []; Recommendations := [] |}.

(** Modelled from the spec: the table declarations are not part of the
    sources.  [BeatmapAnalysis] has [bid] as its primary key (3, "one row
    per beatmap id"). *)
Definition analysis_key (r : AnalysisRow) : Z := a_bid r.

(** Modelled from the spec: the table declarations are not part of the
    sources.  [PendingBeatmapReviews] is keyed by [bid] (3, "queue, keyed
    by bid"). *)
Definition pending_key (r : PendingRow) : Z := p_bid r.

(** The SQL statements of the plugin, over a table with an integer key. *)
Section Table.

Variable Row : Type.
Variable key : Row -> Z.

(** [SELECT ... WHERE key = k], then [fetchone()] *)
Definition select_one (k : Z) (rows : list Row) : option Row :=
  find (fun r => Z.eqb (key r) k) rows.

(** [UPDATE ... SET ... WHERE key = k AND cond] *)
Definition update_where (k : Z) (cond : Row -> bool) (set : Row -> Row)
    (rows : list Row) : list Row :=
  map (fun r => if andb (Z.eqb (key r) k) (cond r) then set r else r) rows.

(** [DELETE ... WHERE key = k] *)
Definition delete_where (k : Z) (rows : list Row) : list Row :=
  filter (fun r => negb (Z.eqb (key r) k)) rows.

(** [INSERT ... VALUES new ON DUPLICATE KEY UPDATE set] *)
Definition insert_on_duplicate_key_update (new : Row) (set : Row -> Row)
    (rows : list Row) : list Row :=
  if existsb (fun r => Z.eqb (key r) (key new)) rows
  then update_where (key new) (fun _ => true) set rows
  else rows ++ [new].

(** The rows a key selects. *)
Definition rows_of (k : Z) (rows : list Row) : list Row :=
  filter (fun r => Z.eqb (key r) k) rows.

(** No two rows share a key. *)
Definition unique_keys (rows : list Row) : Prop := NoDup (map key rows).

End Table.

Arguments select_one {Row} key k rows.
Arguments update_where {Row} key k cond set rows.
Arguments delete_where {Row} key k rows.
Arguments insert_on_duplicate_key_update {Row} key new set rows.
Arguments rows_of {Row} key k rows.
Arguments unique_keys {Row} key rows.

(** ** utils.py: connections and transactions *)

(** What can go wrong with one connection: it cannot be opened
    ([get_db_connection] returns [None]), or its [n]-th statement
    ([execute] or [commit], counted from 0) raises [MySQLError]. *)
Inductive Fault : Type :=
| NoFault
| NoConnection
| RaiseAt (n : nat).

(** An open connection: the committed state of the store, the state the
    open transaction sees, and the number of statements run so far. *)
Record Conn : Type := {
  committed : DB;
  working : DB;
  executed : nat;
  fault : Fault
}.

Definition get_db_connection (f : Fault) (db : DB) : option Conn :=
  match f with
  | NoConnection => None
  | _ => Some {| committed := db; working := db; executed := 0; fault := f |}
  end.

(** A piece of code that uses a connection; [None] is a raised
    [MySQLError]. *)
Definition Sql (A : Type) : Type := Conn -> option A * Conn.

Definition ret {A} (a : A) : Sql A := fun c => (Some a, c).

Definition bind {A B} (m : Sql A) (k : A -> Sql B) : Sql B :=
  fun c =>
    match m c with
    | (Some a, c') => k a c'
    | (None, c') => (None, c')
    end.

Notation "x <- m ;; k" := (bind m (fun x => k))
  (at level 61, m at next level, right associativity).

Definition raises (c : Conn) : bool :=
  match fault c with
  | RaiseAt n => Nat.eqb n (executed c)
  | _ => false
  end.

Definition count_statement (c : Conn) (w : DB) (cm : DB) : Conn :=
  {| committed := cm; working := w; executed := S (executed c);
     fault := fault c |}.

(** [cursor.execute(stmt)]: a statement that raises leaves no trace. *)
Definition execute {A} (stmt : DB -> DB * A) : Sql A :=
  fun c =>
    if raises c then (None, count_statement c (working c) (committed c))
    else
      let '(w, a) := stmt (working c) in
      (Some a, count_statement c w (committed c)).

(** [conn.commit()] *)
Definition commit : Sql unit :=
  fun c =>
    if raises c then (None, count_statement c (working c) (committed c))
    else (Some tt, count_statement c (working c) (working c)).

(** [conn.rollback()] *)
Definition rollback (c : Conn) : Conn :=
  {| committed := committed c; working := committed c;
     executed := executed c; fault := fault c |}.

(** [conn.close()]: what was not committed is lost. *)
Definition close (c : Conn) : DB := committed c.

(** ** recommend.py: writes to the store *)

(** [probs or {}] *)
Definition or_empty (probs : option RawProbs) : RawProbs :=
  match probs with
  | Some p => p
  | None => []
  end.

(** The statement of [store_beatmap_analysis] (lines 147-164). *)
Definition sql_store_beatmap_analysis (now : Z) (bid : Z)
    (probs : option RawProbs) (determined_type : string) (auto : bool)
    (db : DB) : DB * unit :=
  let p := or_empty probs in
  let run_at := match probs with Some _ => Some now | None => None end in
  let new :=
    {| a_bid := bid; determined_b_type := determined_type;
       is_auto_typed := auto;
       stream_prob := Dict.get "stream" p; jump_prob := Dict.get "jump" p;
       alt_prob := Dict.get "alt" p; tech_prob := Dict.get "tech" p;
       oracle_last_run_at := run_at;
       manual_review_at := None; reviewed_by_admin_id := None |} in
  let on_duplicate (old : AnalysisRow) :=
    {| a_bid := a_bid old;
       determined_b_type :=
         if is_auto_typed old then determined_type else determined_b_type old;
       is_auto_typed := if is_auto_typed old then auto else is_auto_typed old;
       stream_prob := Dict.get "stream" p; jump_prob := Dict.get "jump" p;
       alt_prob := Dict.get "alt" p; tech_prob := Dict.get "tech" p;
       oracle_last_run_at := run_at;
       manual_review_at := manual_review_at old;
       reviewed_by_admin_id := reviewed_by_admin_id old |} in
  ({| BeatmapAnalysis :=
        insert_on_duplicate_key_update analysis_key new on_duplicate
          (BeatmapAnalysis db);
      PendingBeatmapReviews := PendingBeatmapReviews db;
      Recommendations := Recommendations db |}, tt).

(** A failure is logged; the connection is closed in every case. *)
Definition store_beatmap_analysis (f : Fault) (now : Z) (bid : Z)
    (probs : option RawProbs) (determined_type : string) (auto : bool)
    (db : DB) : DB :=
  match get_db_connection f db with
  | None => db
  | Some conn =>
      let body :=
        _ <- execute
               (sql_store_beatmap_analysis now bid probs determined_type auto) ;;
        commit in
      close (snd (body conn))
  end.

(** The statement of [store_beatmap_analysis_probabilities_only]
    (lines 178-184). *)
Definition sql_store_probabilities_only (now : Z) (bid : Z)
    (probs : RawProbs) (db : DB) : DB * unit :=
  let p := probs in
  let set (old : AnalysisRow) :=
    {| a_bid := a_bid old;
       determined_b_type := determined_b_type old;
       is_auto_typed := is_auto_typed old;
       stream_prob := Dict.get "stream" p; jump_prob := Dict.get "jump" p;
       alt_prob := Dict.get "alt" p; tech_prob := Dict.get "tech" p;
       oracle_last_run_at := Some now;
       manual_review_at := manual_review_at old;
       reviewed_by_admin_id := reviewed_by_admin_id old |} in
  ({| BeatmapAnalysis :=
        update_where analysis_key bid (fun r => negb (is_auto_typed r)) set
          (BeatmapAnalysis db);
      PendingBeatmapReviews := PendingBeatmapReviews db;
      Recommendations := Recommendations db |}, tt).

Definition store_beatmap_analysis_probabilities_only (f : Fault) (now : Z)
    (bid : Z) (probs : RawProbs) (db : DB) : DB :=
  match get_db_connection f db with
  | None => db
  | Some conn =>
      let body :=
        _ <- execute (sql_store_probabilities_only now bid probs) ;;
        commit in
      close (snd (body conn))
  end.

(** The statement of [add_to_pending_review] (lines 198-205). *)
Definition sql_add_to_pending_review (now : Z) (bid : Z) (reason : string)
    (recommendation_id : option Z) (db : DB) : DB * unit :=
  let new :=
    {| p_bid := bid; reason_for_pending := reason;
       triggered_by_recommendation_id := recommendation_id;
       added_to_queue_at := now |} in
  let on_duplicate (old : PendingRow) :=
    {| p_bid := p_bid old; reason_for_pending := reason;
       triggered_by_recommendation_id := recommendation_id;
       added_to_queue_at := now |} in
  ({| BeatmapAnalysis := BeatmapAnalysis db;
      PendingBeatmapReviews :=
        insert_on_duplicate_key_update pending_key new on_duplicate
          (PendingBeatmapReviews db);
      Recommendations := Recommendations db |}, tt).

Definition add_to_pending_review (f : Fault) (now : Z) (bid : Z)
    (reason : string) (recommendation_id : option Z) (db : DB) : DB :=
  match get_db_connection f db with
  | None => db
  | Some conn =>
      let body :=
        _ <- execute (sql_add_to_pending_review now bid reason recommendation_id) ;;
        commit in
      close (snd (body conn))
  end.

(** The statement of [store_recommendation] (lines 221-226), with the
    [lastrowid] it produces: rows are only ever appended, so the next id
    is one more than their number. *)
Definition sql_store_recommendation (now : Z) (qqid bid : Z)
    (osu_username user_req_type : option string)
    (actual_rec_type description : string) (db : DB) : DB * Z :=
  let lastrowid := Z.of_nat (S (List.length (Recommendations db))) in
  let new :=
    {| r_id := lastrowid; r_qqid := qqid; r_bid := bid;
       osu_username_at_recommend_time := osu_username;
       user_requested_type := user_req_type;
       actual_recommend_type := actual_rec_type;
       recommendation_description := description;
       recommended_at := now |} in
  ({| BeatmapAnalysis := BeatmapAnalysis db;
      PendingBeatmapReviews := PendingBeatmapReviews db;
      Recommendations := Recommendations db ++ [new] |}, lastrowid).

Definition store_recommendation (f : Fault) (now : Z) (qqid bid : Z)
    (osu_username user_req_type : option string)
    (actual_rec_type description : string) (db : DB) : DB * option Z :=
  match get_db_connection f db with
  | None => (db, None)
  | Some conn =>
      let body :=
        id <- execute
                (sql_store_recommendation now qqid bid osu_username
                   user_req_type actual_rec_type description) ;;
        _ <- commit ;;
        ret id in
      let '(result, conn') := body conn in
      (close conn', result)
  end.

(** ** recommend.py: handle_recommend_command *)

(** A row of [UserBindings], as [get_user_binding_info] returns it. *)
Record Binding : Type := {
  osu_uid : Z;
  osu_username_at_bind : option string
}.

(** The beatmap as the metadata provider describes it; the steps modelled
    here look only at whether it is there. *)
Definition Official : Type := Dict.t string.

(** Everything one command receives from outside the store: the caller,
    the parsed arguments, the answers of the three services, the clock,
    and the fate of each connection the command opens. *)
Record Call : Type := {
  qqid : Z;
  binding_info : option Binding;
  user_specified_type : option string;
  bid_from_arg : option Z;
  description_from_arg : string;
  recent_beatmap_id : option Z;
  official_info : option Official;
  oracle_classification : option RawProbs;
  now : Z;
  check_fault : Fault;
  probabilities_only_fault : Fault;
  pending_fault : Fault;
  analysis_fault : Fault;
  recommendation_fault : Fault
}.

(** How a command ends. *)
Inductive Outcome : Type :=
| NotBound
| NoRecentBeatmap
| MetadataUnavailable (bid : Z)
| CheckRaised
| RecordFailed
| Recorded (final_determined_b_type_for_db actual_recommend_type : string)
    (additional_messages : list string) (recommendation_id : Z).

(** Truth value of an optional string: [None] and the empty string are
    false. *)
Definition truthy_str (s : option string) : option string :=
  match s with
  | Some EmptyString => None
  | _ => s
  end.

(** Truth value of an optional integer: [None] and [0] are false. *)
Definition truthy_int (n : option Z) : option Z :=
  match n with
  | Some 0%Z => None
  | _ => n
  end.

(** [not raw_oracle_probabilities] *)
Definition no_probabilities (raw : option RawProbs) : bool :=
  match raw with
  | None => true
  | Some d => Dict.is_empty d
  end.

(** The value [fetch_and_store_beatmap_info] returns. *)
Definition fetch_and_store_beatmap_info (official : option Official)
    : option Official :=
  match official with
  | Some (_ :: _) => official
  | _ => None
  end.

Definition newline : string := String (ascii_of_nat 10) EmptyString.

(** An f-string: its pieces, joined. *)
Definition fstring (parts : list string) : string := String.concat EmptyString parts.

(** Lines 319-325: the existing analysis row.  Without a connection the
    row is taken to be absent; a failing query is not caught. *)
Definition select_existing_analysis (f : Fault) (bid : Z) (db : DB)
    : option (option AnalysisRow) :=
  match get_db_connection f db with
  | None => Some None
  | Some conn =>
      fst (execute
             (fun d => (d, select_one analysis_key bid (BeatmapAnalysis d)))
             conn)
  end.

(** What the branches of step 4 hand to step 5. *)
Record Resolution : Type := {
  actual_recommend_type_of : string;
  final_determined_b_type_for_db_of : string;
  additional_messages_of : list string
}.

(** Lines 331-342: the row was classified by an administrator. *)
Definition resolve_manual (c : Call) (final_bid : Z)
    (raw_oracle_probabilities : option RawProbs)
    (db_determined_b_type : string) (db : DB) : DB * Resolution :=
  let final_determined_b_type_for_db := db_determined_b_type in
  let '(actual_recommend_type, additional_messages) :=
    match truthy_str (user_specified_type c) with
    | Some user_type =>
        (user_type,
         if negb (String.eqb user_type db_determined_b_type) then
           [fstring ["此谱面已被管理员定义为【"; upper db_determined_b_type;
                     "】类型！"; newline;
                     "记录了你的【"; upper user_type;
                     "】，但谱面库中分类不变"]]
         else [])
    | None => (db_determined_b_type, [])
    end in
  let db' :=
    match raw_oracle_probabilities with
    | Some raw =>
        store_beatmap_analysis_probabilities_only
          (probabilities_only_fault c) (now c) final_bid raw db
    | None => db
    end in
  (db',
   {| actual_recommend_type_of := actual_recommend_type;
      final_determined_b_type_for_db_of := final_determined_b_type_for_db;
      additional_messages_of := additional_messages |}).

(** Lines 344-362: no row, or a row classified automatically. *)
Definition resolve_auto (c : Call) (final_bid : Z)
    (raw_oracle_probabilities : option RawProbs)
    (oracle_determined_type : string) (db : DB) : DB * Resolution :=
  let '(db', resolution) :=
    match truthy_str (user_specified_type c) with
    | Some user_type =>
        let said := [fstring ["你已将这张图定为【"; upper user_type; "】！"]] in
        if andb (negb (String.eqb oracle_determined_type EmptyString))
                (negb (String.eqb user_type oracle_determined_type))
        then
          (add_to_pending_review (pending_fault c) (now c) final_bid
             (fstring ["User specified '"; user_type; "', oracle: '";
                       oracle_determined_type; "'"]) None db,
           {| actual_recommend_type_of := user_type;
              final_determined_b_type_for_db_of := user_type;
              additional_messages_of :=
                said ++ [fstring ["但osu!Oracle 分析认为此图更偏向【";
                                  upper oracle_determined_type;
                                  "】！差异已记录"]] |})
        else if no_probabilities raw_oracle_probabilities then
          (add_to_pending_review (pending_fault c) (now c) final_bid
             "oracle_failed_user_specified_type" None db,
           {| actual_recommend_type_of := user_type;
              final_determined_b_type_for_db_of := user_type;
              additional_messages_of :=
                said ++ ["osu!oracle 分析失败或未返回有效结果！"] |})
        else
          (db,
           {| actual_recommend_type_of := user_type;
              final_determined_b_type_for_db_of := user_type;
              additional_messages_of := said |})
    | None =>
        if no_probabilities raw_oracle_probabilities then
          (add_to_pending_review (pending_fault c) (now c) final_bid
             "oracle_ambiguous_or_failed_no_user_type" None db,
           {| actual_recommend_type_of := oracle_determined_type;
              final_determined_b_type_for_db_of := oracle_determined_type;
              additional_messages_of :=
                ["osu!oracle 分析失败或未返回有效结果，谱面暂定为【OTHERS】！"] |})
        else if String.eqb oracle_determined_type "others" then
          (add_to_pending_review (pending_fault c) (now c) final_bid
             "oracle_ambiguous_result" None db,
           {| actual_recommend_type_of := oracle_determined_type;
              final_determined_b_type_for_db_of := oracle_determined_type;
              additional_messages_of := [] |})
        else
          (db,
           {| actual_recommend_type_of := oracle_determined_type;
              final_determined_b_type_for_db_of := oracle_determined_type;
              additional_messages_of := [] |})
    end in
  (store_beatmap_analysis (analysis_fault c) (now c) final_bid
     raw_oracle_probabilities
     (final_determined_b_type_for_db_of resolution) true db',
   resolution).

(** Lines 365-373: step 5, the recommendation is stored and the outcome
    reported. *)
Definition record_recommendation (c : Call) (binding : Binding)
    (final_bid : Z) (resolved : DB * Resolution) : DB * Outcome :=
  let '(db, resolution) := resolved in
  let '(db', recommendation_id) :=
    store_recommendation (recommendation_fault c) (now c) (qqid c)
      final_bid (osu_username_at_bind binding) (user_specified_type c)
      (actual_recommend_type_of resolution) (description_from_arg c) db in
  match recommendation_id with
  | None => (db', RecordFailed)
  | Some id =>
      (db',
       Recorded (final_determined_b_type_for_db_of resolution)
         (actual_recommend_type_of resolution)
         (additional_messages_of resolution) id)
  end.

(** Lines 296-373: steps 3 to 5, for a bound caller and a known beatmap
    id. *)
Definition resolve_and_record (c : Call) (binding : Binding) (final_bid : Z)
    (db : DB) : DB * Outcome :=
  let official_beatmap_data := fetch_and_store_beatmap_info (official_info c) in
  let '(raw_oracle_probabilities, oracle_determined_type) :=
    get_oracle_analysis_results (oracle_classification c) in
  match official_beatmap_data with
  | None => (db, MetadataUnavailable final_bid)
  | Some _ =>
      let oracle_determined_type :=
        match oracle_determined_type with
        | None => "others"
        | Some t => t
        end in
      match select_existing_analysis (check_fault c) final_bid db with
      | None => (db, CheckRaised)
      | Some existing_analysis_info =>
          record_recommendation c binding final_bid
            match existing_analysis_info with
            | Some row =>
                if negb (is_auto_typed row) then
                  resolve_manual c final_bid raw_oracle_probabilities
                    (determined_b_type row) db
                else
                  resolve_auto c final_bid raw_oracle_probabilities
                    oracle_determined_type db
            | None =>
                resolve_auto c final_bid raw_oracle_probabilities
                  oracle_determined_type db
            end
      end
  end.

(** Lines 274-373: the whole command, up to the reply. *)
Definition handle_recommend_command (c : Call) (db : DB) : DB * Outcome :=
  match binding_info c with
  | None => (db, NotBound)
  | Some binding =>
      let final_bid :=
        match truthy_int (bid_from_arg c) with
        | Some bid => Some bid
        | None => truthy_int (recent_beatmap_id c)
        end in
      match final_bid with
      | None => (db, NoRecentBeatmap)
      | Some bid => resolve_and_record c binding bid db
      end
  end.

(** ** admin_tool.py *)

(** [get_beatmap_analysis_info]: the row, or [None] when there is none,
    no connection, or the query fails. *)
Definition get_beatmap_analysis_info (f : Fault) (bid : Z) (db : DB)
    : option AnalysisRow :=
  match get_db_connection f db with
  | None => None
  | Some conn =>
      match execute
              (fun d => (d, select_one analysis_key bid (BeatmapAnalysis d)))
              conn with
      | (Some row, _) => row
      | (None, _) => None
      end
  end.

(** Lines 59-63: the [UPDATE] of [update_beatmap_classification]. *)
Definition sql_update_classification (now : Z) (bid : Z) (new_type : string)
    (admin_id : string) (db : DB) : DB * unit :=
  let set (old : AnalysisRow) :=
    {| a_bid := a_bid old;
       determined_b_type := new_type;
       is_auto_typed := false;
       stream_prob := stream_prob old; jump_prob := jump_prob old;
       alt_prob := alt_prob old; tech_prob := tech_prob old;
       oracle_last_run_at := oracle_last_run_at old;
       manual_review_at := Some now;
       reviewed_by_admin_id := Some admin_id |} in
  ({| BeatmapAnalysis :=
        update_where analysis_key bid (fun _ => true) set (BeatmapAnalysis db);
      PendingBeatmapReviews := PendingBeatmapReviews db;
      Recommendations := Recommendations db |}, tt).

(** Line 66: the [DELETE] of [update_beatmap_classification]. *)
Definition sql_delete_pending (bid : Z) (db : DB) : DB * unit :=
  ({| BeatmapAnalysis := BeatmapAnalysis db;
      PendingBeatmapReviews :=
        delete_where pending_key bid (PendingBeatmapReviews db);
      Recommendations := Recommendations db |}, tt).

(** Lines 46-76.  The three statements run in one transaction; an error
    rolls it back. *)
Definition update_beatmap_classification (f : Fault) (now : Z) (bid : Z)
    (new_type : string) (admin_id : string) (db : DB) : DB * bool :=
  match get_db_connection f db with
  | None => (db, false)
  | Some conn =>
      let body :=
        found <- execute
                   (fun d =>
                      (d, select_one analysis_key bid (BeatmapAnalysis d))) ;;
        match found with
        | None => ret false
        | Some _ =>
            _ <- execute (sql_update_classification now bid new_type admin_id) ;;
            _ <- execute (sql_delete_pending bid) ;;
            _ <- commit ;;
            ret true
        end in
      match body conn with
      | (Some result, conn') => (close conn', result)
      | (None, conn') => (close (rollback conn'), false)
      end
  end.

(** How [/pending bid type] ends. *)
Inductive PendingOutcome : Type :=
| InvalidType
| NotFound
| Processed (new_type : string)
| ProcessFailed.

(** Lines 107-132 of [handle_pending_command]: the two-argument form,
    once the beatmap id has been read as a number. *)
Definition handle_pending_command (info_fault update_fault : Fault) (now : Z)
    (bid : Z) (raw_new_type : string) (admin_id : string) (db : DB)
    : DB * PendingOutcome :=
  match truthy_str (Dict.get (lower raw_new_type) TYPE_ALIASES) with
  | None => (db, InvalidType)
  | Some new_type =>
      if negb (in_VALID_TYPES new_type) then (db, InvalidType)
      else
        match get_beatmap_analysis_info info_fault bid db with
        | None => (db, NotFound)
        | Some _ =>
            let '(db', ok) :=
              update_beatmap_classification update_fault now bid new_type
                admin_id db in
            if ok then (db', Processed new_type) else (db', ProcessFailed)
        end
  end.

(** ** Sequences of commands *)

(** The store after a sequence of [/推图] commands. *)
Definition run_recommendations (calls : list Call) (db : DB) : DB :=
  fold_left (fun d c => fst (handle_recommend_command c d)) calls db.

(** ** Vocabulary of the properties *)

(** A probability strictly above one half, as line 133 tests it. *)
Definition exceeds_half (p : float) : Prop := (0.5 <? p)%float = true.

(** The five canonical types. *)
Definition canonical (t : string) : Prop :=
  t = "stream" \/ t = "jump" \/ t = "alt" \/ t = "tech" \/ t = "others".

(** The probabilities a raw dictionary holds for a canonical type: those
    of the labels that normalize to it, in the order of the dictionary. *)
Definition contributions (t : string) (raw : RawProbs) : list float :=
  map snd (filter (fun item => String.eqb (normalized_key_of (fst item)) t) raw).

(** Their sum, as the loop computes it: from 0, left to right. *)
Definition summed (ps : list float) (start : float) : float :=
  fold_left (fun acc p => (acc + p)%float) ps start.

(** A connection runs [n] statements to the end: it opens and none of
    them raises. *)
Definition survives (f : Fault) (n : nat) : bool :=
  match f with
  | NoFault => true
  | NoConnection => false
  | RaiseAt k => Nat.leb n k
  end.

(** Both effects of an administrator's override. *)
Definition classified (now bid : Z) (new_type admin_id : string) (db : DB)
    : DB :=
  fst (sql_delete_pending bid
         (fst (sql_update_classification now bid new_type admin_id db))).

(** The row of a beatmap in [BeatmapAnalysis]. *)
Definition analysis_of (bid : Z) (db : DB) : option AnalysisRow :=
  select_one analysis_key bid (BeatmapAnalysis db).

(** The rows of a beatmap in the review queue. *)
Definition pending_of (bid : Z) (db : DB) : list PendingRow :=
  rows_of pending_key bid (PendingBeatmapReviews db).

(** The beatmap is classified by an administrator, as type [t]. *)
Definition manually_typed (bid : Z) (t : string) (db : DB) : Prop :=
  exists row,
    analysis_of bid db = Some row /\
    is_auto_typed row = false /\
    determined_b_type row = t.

(** Case A of the resolver: the command finds no row for the beatmap, or
    a row classified automatically. *)
Definition sees_case_A (c : Call) (bid : Z) (db : DB) : Prop :=
  exists existing,
    select_existing_analysis (check_fault c) bid db = Some existing /\
    match existing with
    | Some row => is_auto_typed row = true
    | None => True
    end.

(** Case B of the resolver: the command finds a row an administrator
    classified. *)
Definition sees_case_B (c : Call) (bid : Z) (db : DB) (row : AnalysisRow)
    : Prop :=
  select_existing_analysis (check_fault c) bid db = Some (Some row) /\
  is_auto_typed row = false.

(** The metadata provider has an answer for the beatmap. *)
Definition metadata_available (c : Call) : Prop :=
  fetch_and_store_beatmap_info (official_info c) <> None.

(** The type [get_oracle_analysis_results] reports for an answer of the
    classification service. *)
Definition oracle_type (answer : option RawProbs) : string :=
  match answer with
  | None => "others"
  | Some raw => model_type (normalize_probs raw)
  end.

(** Every manual classification of the first store is found again,
    unchanged, in the second. *)
Definition keeps_manual (db db' : DB) : Prop :=
  forall bid t, manually_typed bid t db -> manually_typed bid t db'.

(** ** Sample inputs *)

Definition sample_binding : Binding :=
  {| osu_uid := 1; osu_username_at_bind := Some "player" |}.

(** A command for beatmap 42 by a bound caller, every service and every
    connection working. *)
Definition sample_call (user_type : option string)
    (answer : option RawProbs) : Call :=
  {| qqid := 7;
     binding_info := Some sample_binding;
     user_specified_type := user_type;
     bid_from_arg := Some 42%Z;
     description_from_arg := "nice map";
     recent_beatmap_id := None;
     official_info := Some [("id", "42")];
     oracle_classification := answer;
     now := 100;
     check_fault := NoFault;
     probabilities_only_fault := NoFault;
     pending_fault := NoFault;
     analysis_fault := NoFault;
     recommendation_fault := NoFault |}.

(** Beatmap 42 as an administrator classified it. *)
Definition manual_row : AnalysisRow :=
  {| a_bid := 42; determined_b_type := "tech"; is_auto_typed := false;
     stream_prob := None; jump_prob := None; alt_prob := None;
     tech_prob := None; oracle_last_run_at := None;
     manual_review_at := Some 50%Z; reviewed_by_admin_id := Some "admin" |}.

Definition manual_db : DB :=
  {| BeatmapAnalysis := [manual_row];
     PendingBeatmapReviews := [];
     Recommendations := [] |}.

(** Two commands for beatmap 42: one asserting a type against a confident
    model, one with no type while the classification service is down. *)
Definition sample_calls : list Call :=
  [ sample_call (Some "jump") (Some [("stream", 0.9%float)]);
    sample_call None None ].

(** The row of the review queue written for a beatmap at a given time. *)
Definition pending_row (bid : Z) (reason : string) (id : option Z) (now : Z)
    : PendingRow :=
  {| p_bid := bid; reason_for_pending := reason;
     triggered_by_recommendation_id := id; added_to_queue_at := now |}.

(** An answer in which no type reaches one half. *)
Definition ambiguous_answer : RawProbs :=
  [("stream", 0.4%float); ("jump", 0.3%float)].

(** Two commands that both send beatmap 42 to the review queue. *)
Definition ambiguous_calls : list Call :=
  [ sample_call None None; sample_call None (Some ambiguous_answer) ].

(** An answer that names its one type with a capital letter. *)
Definition capitalised_answer : RawProbs := [("Stream", 0.6%float)].

(** An answer that names its one type by its Chinese alias. *)
Definition aliased_answer : RawProbs := [("串", 0.6%float)].


(** ** Vocabulary of the further properties *)

(** The command ended before step 4. *)
Definition aborted (o : Outcome) : Prop :=
  match o with
  | NotBound | NoRecentBeatmap | MetadataUnavailable _ | CheckRaised => True
  | RecordFailed | Recorded _ _ _ _ => False
  end.

(** The beatmap id the command works on (lines 288-294). *)
Definition final_bid_of (c : Call) : option Z :=
  match truthy_int (bid_from_arg c) with
  | Some bid => Some bid
  | None => truthy_int (recent_beatmap_id c)
  end.

(** Every stored classification is one of the five canonical types. *)
Definition all_canonical (db : DB) : Prop :=
  Forall (fun row => canonical (determined_b_type row)) (BeatmapAnalysis db).

(** The caller asserts no type, or a canonical one. *)
Definition canonical_user_type (c : Call) : Prop :=
  match user_specified_type c with
  | Some t => canonical t
  | None => True
  end.

(** The store holds no row for the beatmap, or a row classified
    automatically. *)
Definition automatic_or_absent (bid : Z) (db : DB) : Prop :=
  match analysis_of bid db with
  | Some row => is_auto_typed row = true
  | None => True
  end.

(** The type a command settles on in case A: the asserted one, else the
    one the classification service stands for. *)
Definition case_A_type (c : Call) : string :=
  match truthy_str (user_specified_type c) with
  | Some user_type => user_type
  | None => oracle_type (oracle_classification c)
  end.

(** The type a command records in case B: the asserted one, else the
    administrator's. *)
Definition case_B_type (c : Call) (row : AnalysisRow) : string :=
  match truthy_str (user_specified_type c) with
  | Some user_type => user_type
  | None => determined_b_type row
  end.

(** A command for beatmap 42 asserting jump while the existence check
    gets no connection and the classification service is down. *)
Definition unread_call : Call :=
  {| qqid := 7;
     binding_info := Some sample_binding;
     user_specified_type := Some "jump";
     bid_from_arg := Some 42%Z;
     description_from_arg := "nice map";
     recent_beatmap_id := None;
     official_info := Some [("id", "42")];
     oracle_classification := None;
     now := 100;
     check_fault := NoConnection;
     probabilities_only_fault := NoFault;
     pending_fault := NoFault;
     analysis_fault := NoFault;
     recommendation_fault := NoFault |}.

(** ** recommend.py: the closing line of the reply *)

(** Lines 409-410: [is_type_match_success]. *)
Definition is_type_match_success (user_specified_type : option string)
    (actual_recommend_type : string)
    (raw_oracle_probabilities : option RawProbs) : bool :=
  match truthy_str user_specified_type with
  | Some user_type => String.eqb user_type actual_recommend_type
  | None =>
      andb (negb (String.eqb actual_recommend_type "others"))
           (negb (no_probabilities raw_oracle_probabilities))
  end.

(** Lines 412-416: the last line of the reply of a recorded command. *)
Definition closing_line (c : Call) (o : Outcome) : option string :=
  match o with
  | Recorded _ actual_recommend_type _ _ =>
      if is_type_match_success (user_specified_type c) actual_recommend_type
           (fst (get_oracle_analysis_results (oracle_classification c)))
      then Some "✔ 推荐已成功记录，谱面信息已更新！"
      else Some "✔ 推荐已记录"
  | _ => None
  end.

(** The same command with another answer of the classification service. *)
Definition with_answer (c : Call) (answer : option RawProbs) : Call :=
  {| qqid := qqid c;
     binding_info := binding_info c;
     user_specified_type := user_specified_type c;
     bid_from_arg := bid_from_arg c;
     description_from_arg := description_from_arg c;
     recent_beatmap_id := recent_beatmap_id c;
     official_info := official_info c;
     oracle_classification := answer;
     now := now c;
     check_fault := check_fault c;
     probabilities_only_fault := probabilities_only_fault c;
     pending_fault := pending_fault c;
     analysis_fault := analysis_fault c;
     recommendation_fault := recommendation_fault c |}.

(** The same command with another fate for the connection that stores the
    recommendation. *)
Definition with_recommendation_fault (c : Call) (f : Fault) : Call :=
  {| qqid := qqid c;
     binding_info := binding_info c;
     user_specified_type := user_specified_type c;
     bid_from_arg := bid_from_arg c;
     description_from_arg := description_from_arg c;
     recent_beatmap_id := recent_beatmap_id c;
     official_info := official_info c;
     oracle_classification := oracle_classification c;
     now := now c;
     check_fault := check_fault c;
     probabilities_only_fault := probabilities_only_fault c;
     pending_fault := pending_fault c;
     analysis_fault := analysis_fault c;
     recommendation_fault := f |}.

(** ** recommend.py: parse_recommend_args *)

(** What the first loop of the parser has found so far. *)
Record ParseState : Type := {
  user_type_found : option string;
  bid_found : option Z;
  used_indices : list nat
}.

(** [enumerate(parts)] *)
Definition enumerate (parts : list string) : list (nat * string) :=
  combine (seq 0 (List.length parts)) parts.

(** [" ".join(description_parts) if description_parts else ...] *)
Definition describe (description_parts : list string) : string :=
  match description_parts with
  | [] => "TA没有填写描述！"
  | _ :: _ => String.concat " " description_parts
  end.

Section ParseRecommendArgs.

(** The string methods of the interpreter the parser calls: [str.split()],
    [str.isdigit()] and [int()].  [int_of] is [None] where [int(part)]
    raises [ValueError], which [isdigit] does not rule out (a superscript
    digit passes [isdigit]). *)
Variable split : string -> list string.
Variable isdigit : string -> bool.
Variable int_of : string -> option Z.

(** Lines 246-257: one turn of the first loop; [None] is the
    [ValueError] of [int]. *)
Definition classify_part (state : ParseState) (item : nat * string)
    : option ParseState :=
  let '(i, part) := item in
  if andb (isdigit part)
          (match bid_found state with None => true | Some _ => false end)
  then
    match int_of part with
    | Some bid =>
        Some {| user_type_found := user_type_found state;
                bid_found := Some bid;
                used_indices := i :: used_indices state |}
    | None => None
    end
  else
    let normalized_part := lower part in
    match user_type_found state with
    | None =>
        match Dict.get normalized_part TYPE_ALIASES with
        | Some db_type =>
            Some {| user_type_found := Some db_type;
                    bid_found := bid_found state;
                    used_indices := i :: used_indices state |}
        | None => Some state
        end
    | Some _ => Some state
    end.

(** Lines 245-257: the first loop. *)
Definition classify_parts (items : list (nat * string)) (state : ParseState)
    : option ParseState :=
  fold_left
    (fun st item =>
       match st with
       | Some s => classify_part s item
       | None => None
       end)
    items (Some state).

(** Lines 260-262: the parts no index of which was used, in order. *)
Definition unused_parts (used : list nat) (items : list (nat * string))
    : list string :=
  map snd (filter (fun item => negb (existsb (Nat.eqb (fst item)) used)) items).

(** Lines 235-266, after [split]. *)
Definition parse_parts (parts : list string)
    : option (option string * option Z * string) :=
  match classify_parts (enumerate parts)
          {| user_type_found := None; bid_found := None;
             used_indices := [] |} with
  | None => None
  | Some state =>
      Some (user_type_found state, bid_found state,
            describe (unused_parts (used_indices state) (enumerate parts)))
  end.

Definition parse_recommend_args (arg_text : string)
    : option (option string * option Z * string) :=
  parse_parts (split arg_text).

(** The parser in one pass: what it finds, and the parts it leaves for
    the description. *)
Fixpoint scan_parts (user_type : option string) (bid : option Z)
    (parts : list string)
    : option (option string * option Z * list string) :=
  match parts with
  | [] => Some (user_type, bid, [])
  | part :: rest =>
      if andb (isdigit part)
              (match bid with None => true | Some _ => false end)
      then
        match int_of part with
        | Some n => scan_parts user_type (Some n) rest
        | None => None
        end
      else
        match user_type, Dict.get (lower part) TYPE_ALIASES with
        | None, Some db_type => scan_parts (Some db_type) bid rest
        | _, _ =>
            match scan_parts user_type bid rest with
            | Some (u, b, d) => Some (u, b, part :: d)
            | None => None
            end
        end
  end.

(** A word that is neither a number nor an alias. *)
Definition plain_word (part : string) : Prop :=
  isdigit part = false /\ Dict.get (lower part) TYPE_ALIASES = None.

(** Lines 285-286 of the handler followed by the rest of it: the command
    as typed; [None] is the [ValueError] of [int]. *)
Definition handle_recommend_text (arg_text : string) (c : Call) (db : DB)
    : option (DB * Outcome) :=
  match parse_recommend_args arg_text with
  | None => None
  | Some (user_type, bid, description) =>
      Some (handle_recommend_command
              {| qqid := qqid c;
                 binding_info := binding_info c;
                 user_specified_type := user_type;
                 bid_from_arg := bid;
                 description_from_arg := description;
                 recent_beatmap_id := recent_beatmap_id c;
                 official_info := official_info c;
                 oracle_classification := oracle_classification c;
                 now := now c;
                 check_fault := check_fault c;
                 probabilities_only_fault := probabilities_only_fault c;
                 pending_fault := pending_fault c;
                 analysis_fault := analysis_fault c;
                 recommendation_fault := recommendation_fault c |}
              db)
  end.

End ParseRecommendArgs.

(** The three string methods on ASCII text, for the examples. *)
Definition ascii_digit (c : ascii) : bool :=
  andb (Nat.leb 48 (nat_of_ascii c)) (Nat.leb (nat_of_ascii c) 57).

Fixpoint all_digits (s : string) : bool :=
  match s with
  | EmptyString => true
  | String c rest => andb (ascii_digit c) (all_digits rest)
  end.

Definition ascii_isdigit (s : string) : bool :=
  match s with
  | EmptyString => false
  | String _ _ => all_digits s
  end.

Fixpoint decimal_value (s : string) (acc : Z) : Z :=
  match s with
  | EmptyString => acc
  | String c rest =>
      decimal_value rest (10 * acc + Z.of_nat (nat_of_ascii c - 48))
  end.

Definition ascii_int (s : string) : option Z :=
  if ascii_isdigit s then Some (decimal_value s 0) else None.

Definition ascii_space (c : ascii) : bool :=
  let n := nat_of_ascii c in
  orb (Nat.eqb n 32)
      (orb (andb (Nat.leb 9 n) (Nat.leb n 13))
           (andb (Nat.leb 28 n) (Nat.leb n 31))).

(** The words of a text, the current word being read in reverse. *)
Fixpoint split_from (word : list ascii) (s : string) : list string :=
  let close :=
    match word with
    | [] => []
    | _ :: _ => [string_of_list_ascii (rev word)]
    end in
  match s with
  | EmptyString => close
  | String c rest =>
      if ascii_space c then close ++ split_from [] rest
      else split_from (c :: word) rest
  end.

Definition ascii_split (s : string) : list string := split_from [] s.

From Stdlib Require Import Sorted Permutation.

(** ** admin_tool.py: the list of pending reviews *)

(** The columns [get_pending_list_from_db] selects. *)
Record PendingItem : Type := {
  item_bid : Z;
  item_reason : string;
  item_added : Z
}.

Definition pending_item (r : PendingRow) : PendingItem :=
  {| item_bid := p_bid r; item_reason := reason_for_pending r;
     item_added := added_to_queue_at r |}.

(** [ORDER BY added_to_queue_at DESC]: a row goes before the first row
    that is not newer than it.  Among rows of equal time the store is
    free to choose; here they keep the order of the table. *)
Fixpoint insert_newest_first (r : PendingRow) (sorted : list PendingRow)
    : list PendingRow :=
  match sorted with
  | [] => [r]
  | x :: rest =>
      if Z.leb (added_to_queue_at x) (added_to_queue_at r)
      then r :: x :: rest
      else x :: insert_newest_first r rest
  end.

Definition order_newest_first (rows : list PendingRow) : list PendingRow :=
  fold_right insert_newest_first [] rows.

(** The statement of [get_pending_list_from_db] (line 22). *)
Definition sql_select_pending (count : Z) (db : DB)
    : DB * list PendingItem :=
  (db,
   map pending_item
     (firstn (Z.to_nat count)
        (order_newest_first (PendingBeatmapReviews db)))).

(** Lines 16-29: the rows, or nothing when there is no connection or the
    query fails. *)
Definition get_pending_list_from_db (f : Fault) (count : Z) (db : DB)
    : list PendingItem :=
  match get_db_connection f db with
  | None => []
  | Some conn =>
      match execute (sql_select_pending count) conn with
      | (Some rows, _) => rows
      | (None, _) => []
      end
  end.

(** How a [/pending] command ends. *)
Inductive PendingReply : Type :=
| Usage
| NothingPending
| Listing (items : list PendingItem)
| BidNotNumber
| Classification (outcome : PendingOutcome)
| BadFormat.

Section PendingCommand.

(** The string methods of the interpreter, as for the parser. *)
Variable isdigit : string -> bool.
Variable int_of : string -> option Z.

(** Lines 94-95: the number of rows asked for; [None] is the
    [ValueError] of [int]. *)
Definition pending_list_count (arg_list : list string) : option Z :=
  let clamp (count : Z) := Z.max 1 (Z.min count 20) in
  match arg_list with
  | _ :: second :: _ =>
      if isdigit second then option_map clamp (int_of second)
      else Some (clamp 5%Z)
  | _ => Some (clamp 5%Z)
  end.

(** Lines 84-139: the whole command, from its words; [None] is the
    [ValueError] of [int]. *)
Definition handle_pending_words (list_fault info_fault update_fault : Fault)
    (now : Z) (arg_list : list string) (admin_id : string) (db : DB)
    : option (DB * PendingReply) :=
  match arg_list with
  | [] => Some (db, Usage)
  | first :: _ =>
      let action := lower first in
      if String.eqb action "list" then
        match pending_list_count arg_list with
        | None => None
        | Some count =>
            match get_pending_list_from_db list_fault count db with
            | [] => Some (db, NothingPending)
            | pending_maps => Some (db, Listing pending_maps)
            end
        end
      else
        match arg_list with
        | [bid_str; raw_new_type] =>
            if negb (isdigit bid_str) then Some (db, BidNotNumber)
            else
              match int_of bid_str with
              | None => None
              | Some bid =>
                  let '(db', outcome) :=
                    handle_pending_command info_fault update_fault now bid
                      raw_new_type admin_id db in
                  Some (db', Classification outcome)
              end
        | _ => Some (db, BadFormat)
        end
  end.

End PendingCommand.

(** Newest first. *)
Definition newest_first (rows : list PendingRow) : Prop :=
  StronglySorted
    (fun a b => (added_to_queue_at b <= added_to_queue_at a)%Z) rows.

(** A queue of three entries, the second the newest. *)
Definition three_pending : DB :=
  {| BeatmapAnalysis := [];
     PendingBeatmapReviews :=
       [ pending_row 1 "oracle_ambiguous_result" None 10;
         pending_row 2 "oracle_failed_user_specified_type" None 30;
         pending_row 3 "oracle_ambiguous_result" None 20 ];
     Recommendations := [] |}.

(** ** Dictionaries *)

Lemma dict_get_set {V} (k k' : string) (v : V) (d : Dict.t V) :
  Dict.get k' (Dict.set k v d) =
  if String.eqb k' k then Some v else Dict.get k' d.
Proof.
  induction d as [|[k0 v0] rest IH]; simpl.
  - reflexivity.
  - destruct (String.eqb k k0) eqn:Hk; simpl.
    + apply String.eqb_eq in Hk. subst k0.
      destruct (String.eqb k' k); reflexivity.
    + destruct (String.eqb k' k0) eqn:Hk0.
      * apply String.eqb_eq in Hk0. subst k0.
        rewrite String.eqb_sym, Hk. reflexivity.
      * exact IH.
Qed.

Lemma dict_get_in_values {V} (k : string) (v : V) (d : Dict.t V) :
  Dict.get k d = Some v -> In v (map snd d).
Proof.
  induction d as [|[k0 v0] rest IH]; simpl; [discriminate|].
  destruct (String.eqb k k0).
  - intros [= ->]. left. reflexivity.
  - intros H. right. apply IH. exact H.
Qed.

(** ** Tables *)

Section TableFacts.

Variable Row : Type.
Variable key : Row -> Z.

Lemma select_one_in (k : Z) (rows : list Row) (r : Row) :
  select_one key k rows = Some r -> In r rows /\ key r = k.
Proof.
  unfold select_one. intros H. apply find_some in H.
  destruct H as [Hin Hk]. apply Z.eqb_eq in Hk. split; assumption.
Qed.

Lemma existsb_select_one (k : Z) (rows : list Row) :
  existsb (fun r => Z.eqb (key r) k) rows =
  match select_one key k rows with Some _ => true | None => false end.
Proof.
  induction rows as [|r rest IH]; simpl; [reflexivity|].
  destruct (Z.eqb (key r) k); simpl; [reflexivity | exact IH].
Qed.

Lemma select_one_update_where (k k' : Z) (cond : Row -> bool)
    (set : Row -> Row) (rows : list Row) :
  (forall r, key (set r) = key r) ->
  select_one key k' (update_where key k cond set rows) =
  option_map (fun r => if andb (Z.eqb (key r) k) (cond r) then set r else r)
    (select_one key k' rows).
Proof.
  intros Hkey. induction rows as [|r rest IH]; simpl; [reflexivity|].
  assert (Hk : key (if andb (Z.eqb (key r) k) (cond r) then set r else r)
               = key r).
  { destruct (andb (Z.eqb (key r) k) (cond r)); [apply Hkey | reflexivity]. }
  rewrite Hk. destruct (Z.eqb (key r) k'); simpl; [reflexivity | exact IH].
Qed.

Lemma select_one_app (k : Z) (rows : list Row) (new : Row) :
  select_one key k (rows ++ [new]) =
  match select_one key k rows with
  | Some r => Some r
  | None => if Z.eqb (key new) k then Some new else None
  end.
Proof.
  induction rows as [|r rest IH]; simpl; [reflexivity|].
  destruct (Z.eqb (key r) k); [reflexivity | exact IH].
Qed.

(** The row a key selects after an upsert. *)
Lemma select_one_upsert (k : Z) (new : Row) (set : Row -> Row)
    (rows : list Row) :
  (forall r, key (set r) = key r) ->
  select_one key k (insert_on_duplicate_key_update key new set rows) =
  match select_one key k rows with
  | Some r => Some (if Z.eqb (key r) (key new) then set r else r)
  | None =>
      match select_one key (key new) rows with
      | Some _ => None
      | None => if Z.eqb (key new) k then Some new else None
      end
  end.
Proof.
  intros Hkey. unfold insert_on_duplicate_key_update.
  rewrite existsb_select_one.
  destruct (select_one key (key new) rows) as [old|] eqn:Hold.
  - rewrite select_one_update_where by exact Hkey.
    destruct (select_one key k rows) as [r|]; simpl; [|reflexivity].
    rewrite andb_true_r. reflexivity.
  - rewrite select_one_app.
    destruct (select_one key k rows) as [r|] eqn:Hr; [|reflexivity].
    destruct (Z.eqb (key r) (key new)) eqn:Hrn; [|reflexivity].
    exfalso. apply select_one_in in Hr. destruct Hr as [Hin _].
    unfold select_one in Hold.
    apply (find_none _ _ Hold) in Hin. simpl in Hin. congruence.
Qed.

Lemma map_key_update_where (k : Z) (cond : Row -> bool) (set : Row -> Row)
    (rows : list Row) :
  (forall r, key (set r) = key r) ->
  map key (update_where key k cond set rows) = map key rows.
Proof.
  intros Hkey. unfold update_where. rewrite map_map.
  apply map_ext. intros r.
  destruct (andb (Z.eqb (key r) k) (cond r)); [apply Hkey | reflexivity].
Qed.

(** An upsert keeps the keys distinct. *)
Lemma unique_keys_upsert (new : Row) (set : Row -> Row) (rows : list Row) :
  (forall r, key (set r) = key r) ->
  unique_keys key rows ->
  unique_keys key (insert_on_duplicate_key_update key new set rows).
Proof.
  intros Hkey Huniq. unfold unique_keys, insert_on_duplicate_key_update.
  destruct (existsb (fun r => Z.eqb (key r) (key new)) rows) eqn:Hex.
  - rewrite map_key_update_where by exact Hkey. exact Huniq.
  - rewrite map_app. simpl.
    apply NoDup_app; [exact Huniq | repeat constructor; intros [] |].
    intros x Hin [Hx | []]. subst x.
    apply in_map_iff in Hin. destruct Hin as (r & Hr & Hin).
    assert (Hc : existsb (fun r => Z.eqb (key r) (key new)) rows = true).
    { apply existsb_exists. exists r. split; [exact Hin|].
      apply Z.eqb_eq. exact Hr. }
    congruence.
Qed.

Lemma unique_keys_delete (k : Z) (rows : list Row) :
  unique_keys key rows -> unique_keys key (delete_where key k rows).
Proof.
  unfold unique_keys, delete_where.
  induction rows as [|r rest IH]; simpl; intros Huniq; [constructor|].
  inversion Huniq as [|? ? Hnotin Hrest]; subst.
  destruct (negb (Z.eqb (key r) k)); simpl; [|apply IH; exact Hrest].
  constructor; [|apply IH; exact Hrest].
  intros Hin. apply Hnotin. apply in_map_iff in Hin.
  destruct Hin as (x & Hx & Hin). apply filter_In in Hin.
  apply in_map_iff. exists x. tauto.
Qed.

Lemma rows_of_absent (k : Z) (rows : list Row) :
  ~ In k (map key rows) -> rows_of key k rows = [].
Proof.
  unfold rows_of. induction rows as [|r rest IH]; simpl; intros Hnotin.
  - reflexivity.
  - destruct (Z.eqb (key r) k) eqn:Hk.
    + exfalso. apply Hnotin. left. apply Z.eqb_eq. exact Hk.
    + apply IH. intros Hin. apply Hnotin. right. exact Hin.
Qed.

(** With distinct keys a key selects at most one row, the one
    [select_one] finds. *)
Lemma rows_of_unique (k : Z) (rows : list Row) :
  unique_keys key rows ->
  rows_of key k rows =
  match select_one key k rows with Some r => [r] | None => [] end.
Proof.
  unfold unique_keys, rows_of, select_one.
  induction rows as [|r rest IH]; simpl; intros Huniq; [reflexivity|].
  inversion Huniq as [|? ? Hnotin Hrest]; subst.
  destruct (Z.eqb (key r) k) eqn:Hk.
  - apply Z.eqb_eq in Hk. subst k. f_equal.
    apply rows_of_absent. exact Hnotin.
  - apply IH. exact Hrest.
Qed.

Lemma rows_of_delete (k : Z) (rows : list Row) :
  rows_of key k (delete_where key k rows) = [].
Proof.
  unfold rows_of, delete_where.
  induction rows as [|r rest IH]; simpl; [reflexivity|].
  destruct (Z.eqb (key r) k) eqn:Hk; simpl; [exact IH|].
  rewrite Hk. exact IH.
Qed.

End TableFacts.

Arguments select_one_in {Row} key k rows r.
Arguments select_one_upsert {Row} key k new set rows.
Arguments select_one_update_where {Row} key k k' cond set rows.
Arguments unique_keys_upsert {Row} key new set rows.
Arguments unique_keys_delete {Row} key k rows.
Arguments rows_of_unique {Row} key k rows.
Arguments rows_of_delete {Row} key k rows.

(** ** Connections *)

(** One statement and its commit: all or nothing. *)
Lemma statement_then_commit (f : Fault) (stmt : DB -> DB * unit) (db : DB) :
  match get_db_connection f db with
  | None => db
  | Some conn => close (snd ((_ <- execute stmt ;; commit) conn))
  end = if survives f 2 then fst (stmt db) else db.
Proof.
  destruct f as [| |[|[|n]]]; simpl; try reflexivity;
    unfold bind, execute, commit, raises; simpl;
    destruct (stmt db) as [w []]; reflexivity.
Qed.

Lemma store_beatmap_analysis_eq f now bid probs determined_type auto db :
  store_beatmap_analysis f now bid probs determined_type auto db =
  if survives f 2
  then fst (sql_store_beatmap_analysis now bid probs determined_type auto db)
  else db.
Proof. apply statement_then_commit. Qed.

Lemma store_probabilities_only_eq f now bid probs db :
  store_beatmap_analysis_probabilities_only f now bid probs db =
  if survives f 2 then fst (sql_store_probabilities_only now bid probs db)
  else db.
Proof. apply statement_then_commit. Qed.

Lemma add_to_pending_review_eq f now bid reason id db :
  add_to_pending_review f now bid reason id db =
  if survives f 2 then fst (sql_add_to_pending_review now bid reason id db)
  else db.
Proof. apply statement_then_commit. Qed.

Lemma store_recommendation_eq f now qqid bid name req actual descr db :
  store_recommendation f now qqid bid name req actual descr db =
  if survives f 2
  then (fst (sql_store_recommendation now qqid bid name req actual descr db),
        Some (snd (sql_store_recommendation now qqid bid name req actual
                     descr db)))
  else (db, None).
Proof.
  destruct f as [| |[|[|n]]]; reflexivity.
Qed.

Lemma select_existing_analysis_eq f bid db :
  select_existing_analysis f bid db =
  match f with
  | NoConnection => Some None
  | RaiseAt 0 => None
  | _ => Some (select_one analysis_key bid (BeatmapAnalysis db))
  end.
Proof.
  destruct f as [| |[|n]]; reflexivity.
Qed.

Lemma get_beatmap_analysis_info_eq f bid db :
  get_beatmap_analysis_info f bid db =
  if survives f 1 then select_one analysis_key bid (BeatmapAnalysis db)
  else None.
Proof.
  destruct f as [| |[|n]]; reflexivity.
Qed.

Lemma update_beatmap_classification_eq f now bid new_type admin_id db :
  update_beatmap_classification f now bid new_type admin_id db =
  match select_one analysis_key bid (BeatmapAnalysis db) with
  | Some _ =>
      if survives f 4 then (classified now bid new_type admin_id db, true)
      else (db, false)
  | None => (db, false)
  end.
Proof.
  unfold update_beatmap_classification, classified.
  destruct f as [| |[|[|[|[|n]]]]]; simpl;
    unfold bind, execute, commit, raises; simpl;
    destruct (select_one analysis_key bid (BeatmapAnalysis db));
    reflexivity.
Qed.


(** The branches of a resolver, one goal each. *)
Ltac split_conditions :=
  repeat match goal with
         | |- context [match truthy_str ?s with _ => _ end] =>
             destruct (truthy_str s)
         | |- context [if ?b then _ else _] => destruct b
         end.

(** ** Aliases *)

Lemma lower_ascii_idempotent (c : ascii) :
  lower_ascii (lower_ascii c) = lower_ascii c.
Proof.
  destruct c as [[] [] [] [] [] [] [] []]; reflexivity.
Qed.

Lemma lower_idempotent (s : string) : lower (lower s) = lower s.
Proof.
  induction s as [|c rest IH]; simpl; [reflexivity|].
  rewrite lower_ascii_idempotent, IH. reflexivity.
Qed.

Lemma in_VALID_TYPES_canonical (t : string) :
  in_VALID_TYPES t = true <-> canonical t.
Proof.
  unfold in_VALID_TYPES, canonical. split.
  - intros H. apply existsb_exists in H. destruct H as (x & Hin & Hx).
    apply String.eqb_eq in Hx. subst x. simpl in Hin.
    repeat (destruct Hin as [<- | Hin]; [tauto|]). destruct Hin.
  - intros [-> | [-> | [-> | [-> | ->]]]]; reflexivity.
Qed.

(** Every value of the alias table is a canonical type. *)
Lemma alias_canonical (label t : string) :
  Dict.get label TYPE_ALIASES = Some t -> canonical t.
Proof.
  intros H. apply dict_get_in_values in H. simpl in H. unfold canonical.
  repeat (destruct H as [<- | H]; [tauto|]). destruct H.
Qed.

(** A label outside the alias table normalizes to no canonical type. *)
Lemma unknown_label_not_valid (key : string) :
  Dict.get (lower key) TYPE_ALIASES = None ->
  in_VALID_TYPES (normalized_key_of key) = false.
Proof.
  intros Hnone. unfold normalized_key_of, Dict.get_default. rewrite Hnone.
  destruct (in_VALID_TYPES (lower key)) eqn:Hv; [|reflexivity].
  apply in_VALID_TYPES_canonical in Hv.
  destruct Hv as [Hv | [Hv | [Hv | [Hv | Hv]]]];
    rewrite Hv in Hnone; discriminate Hnone.
Qed.

(** ** The normalizer *)

Lemma normalize_step_get (t key : string) (prob : float)
    (acc : Dict.t float) :
  Dict.get t (normalize_step acc (key, prob)) =
  if andb (in_VALID_TYPES (normalized_key_of key))
          (String.eqb (normalized_key_of key) t)
  then Some (Dict.get_default t 0%float acc + prob)%float
  else Dict.get t acc.
Proof.
  unfold normalize_step.
  destruct (in_VALID_TYPES (normalized_key_of key)); simpl; [|reflexivity].
  rewrite dict_get_set, String.eqb_sym.
  destruct (String.eqb (normalized_key_of key) t) eqn:Hk; [|reflexivity].
  apply String.eqb_eq in Hk. subst t. reflexivity.
Qed.

Lemma normalize_fold_get (t : string) (raw : RawProbs) (acc : Dict.t float) :
  in_VALID_TYPES t = true ->
  Dict.get t (fold_left normalize_step raw acc) =
  match contributions t raw with
  | [] => Dict.get t acc
  | ps => Some (summed ps (Dict.get_default t 0%float acc))
  end.
Proof.
  intros Hvalid. revert acc.
  induction raw as [|[key prob] rest IH]; intros acc; [reflexivity|].
  change (fold_left normalize_step ((key, prob) :: rest) acc)
    with (fold_left normalize_step rest (normalize_step acc (key, prob))).
  rewrite IH. unfold contributions. simpl filter.
  pose proof (normalize_step_get t key prob acc) as Hstep.
  destruct (String.eqb (normalized_key_of key) t) eqn:Hk.
  - apply String.eqb_eq in Hk. rewrite Hk, Hvalid in Hstep.
    simpl andb in Hstep.
    simpl map. unfold Dict.get_default at 1. rewrite Hstep.
    destruct (map snd _) as [|p ps]; reflexivity.
  - rewrite andb_false_r in Hstep.
    unfold Dict.get_default. rewrite Hstep. reflexivity.
Qed.

Lemma normalize_fold_keys (raw : RawProbs) (acc : Dict.t float) :
  (forall t, In t (Dict.keys acc) -> canonical t) ->
  forall t, In t (Dict.keys (fold_left normalize_step raw acc)) -> canonical t.
Proof.
  revert acc. induction raw as [|[key prob] rest IH]; intros acc Hacc;
    [exact Hacc|].
  simpl fold_left. apply IH. intros t. unfold normalize_step.
  destruct (in_VALID_TYPES (normalized_key_of key)) eqn:Hv; [|apply Hacc].
  apply in_VALID_TYPES_canonical in Hv.
  generalize (Dict.get_default (normalized_key_of key) 0%float acc + prob)%float.
  intros v. clear IH. induction acc as [|[k0 v0] acc' IHacc]; simpl.
  - intros [<- | []]. exact Hv.
  - destruct (String.eqb (normalized_key_of key) k0); simpl.
    + intros [<- | Hin]; apply Hacc; simpl; tauto.
    + intros [<- | Hin]; [apply Hacc; simpl; tauto|].
      apply IHacc; [|exact Hin]. intros t' Ht'. apply Hacc. simpl. tauto.
Qed.


(** ** The oracle's answer *)

Lemma get_oracle_analysis_results_eq (answer : option RawProbs) :
  get_oracle_analysis_results answer = (answer, Some (oracle_type answer)).
Proof.
  destruct answer as [[|item rest]|]; try reflexivity.
  unfold get_oracle_analysis_results, oracle_type, model_type.
  cbn [Dict.is_empty].
  destruct (Dict.is_empty (normalize_probs (item :: rest))); reflexivity.
Qed.

(** ** Properties of the threshold *)

Lemma type_above_half_none (d : Dict.t float) :
  (forall t p, In (t, p) d -> ~ exceeds_half p) ->
  type_above_half d = "others".
Proof.
  induction d as [|[t p] rest IH]; intros Hnone; simpl.
  - reflexivity.
  - destruct (0.5 <? p)%float eqn:Hp.
    + exfalso. apply (Hnone t p); [left; reflexivity | exact Hp].
    + apply IH. intros t' p' Hin. apply (Hnone t' p'). right. exact Hin.
Qed.

Lemma type_above_half_first (d : Dict.t float) :
  (exists t p, In (t, p) d /\ exceeds_half p) ->
  exists before t p after,
    d = before ++ (t, p) :: after /\
    (forall t' p', In (t', p') before -> ~ exceeds_half p') /\
    exceeds_half p /\
    type_above_half d = t.
Proof.
  induction d as [|[t p] rest IH]; intros (t0 & p0 & Hin & Hex).
  - destruct Hin.
  - simpl. destruct (0.5 <? p)%float eqn:Hp.
    + exists [], t, p, rest.
      split; [reflexivity|]. split; [intros ? ? []|].
      split; [exact Hp | reflexivity].
    + destruct Hin as [Heq | Hin].
      * inversion Heq; subst. unfold exceeds_half in Hex. congruence.
      * destruct IH as (before & t1 & p1 & after & Hd & Hb & Hp1 & Ht).
        { exists t0, p0. split; assumption. }
        exists ((t, p) :: before), t1, p1, after. subst rest.
        split; [reflexivity|]. split; [|split; assumption].
        intros t' p' [Heq | Hin']; [inversion Heq; subst | exact (Hb t' p' Hin')].
        unfold exceeds_half. congruence.
Qed.

(** C4. For every normalized probability mapping the derived type is
    [others] when the mapping is empty or no entry is strictly above 0.5
    (a probability equal to 0.5 does not qualify); otherwise it is the
    type carrying a probability above 0.5: the first such entry in
    iteration order, hence the only one when there is just one. *)
Theorem C4_model_type_threshold (d : Dict.t float) :
  (d = [] -> model_type d = "others") /\
  ((forall t p, In (t, p) d -> ~ exceeds_half p) -> model_type d = "others") /\
  ((exists t p, In (t, p) d /\ exceeds_half p) ->
     exists before t p after,
       d = before ++ (t, p) :: after /\
       (forall t' p', In (t', p') before -> ~ exceeds_half p') /\
       exceeds_half p /\
       model_type d = t) /\
  (forall raw,
     normalize_probs raw = d ->
     snd (get_oracle_analysis_results (Some raw)) = Some (model_type d)) /\
  ~ exceeds_half 0.5%float /\
  (forall t, model_type [(t, 0.5%float)] = "others").
Proof.
  split; [intros ->; reflexivity|].
  split.
  { intros Hnone. unfold model_type.
    destruct (Dict.is_empty d); [reflexivity|].
    apply type_above_half_none. exact Hnone. }
  split.
  { intros Hex. unfold model_type.
    destruct d as [|x rest]; [destruct Hex as (? & ? & [] & _)|].
    simpl Dict.is_empty. cbv iota.
    apply type_above_half_first. exact Hex. }
  split.
  { intros raw <-. rewrite get_oracle_analysis_results_eq. reflexivity. }
  split.
  { unfold exceeds_half. vm_compute. discriminate. }
  intros t. reflexivity.
Qed.
(** C8. The normalizer looks labels up in the alias table without regard
    to case, keeps only canonical types, drops a label the table does not
    know, and gives each canonical type the sum of the probabilities of
    all the labels that stand for it; normalizing Stream: 0.3 together
    with its alias (the Chinese label): 0.2 gives stream: 0.5. *)
Theorem C8_normalizer_sums_aliases (raw : RawProbs) :
  (forall key, normalized_key_of (lower key) = normalized_key_of key) /\
  (forall key1 key2,
     lower key1 = lower key2 ->
     normalized_key_of key1 = normalized_key_of key2) /\
  (forall key t,
     Dict.get (lower key) TYPE_ALIASES = Some t ->
     normalized_key_of key = t /\ canonical t) /\
  (forall key prob acc,
     Dict.get (lower key) TYPE_ALIASES = None ->
     normalize_step acc (key, prob) = acc) /\
  (forall t, In t (Dict.keys (normalize_probs raw)) -> canonical t) /\
  (forall t,
     canonical t ->
     Dict.get t (normalize_probs raw) =
     match contributions t raw with
     | [] => None
     | ps => Some (summed ps 0%float)
     end) /\
  normalized_key_of "STREAM" = "stream" /\
  normalize_probs [("Stream", 0.3%float); ("串", 0.2%float)]
  = [("stream", 0.5%float)].
Proof.
  split.
  { intros key. unfold normalized_key_of. rewrite lower_idempotent.
    reflexivity. }
  split.
  { intros key1 key2 Hsame. unfold normalized_key_of. rewrite Hsame.
    reflexivity. }
  split.
  { intros key t Hget. split; [|exact (alias_canonical _ _ Hget)].
    unfold normalized_key_of, Dict.get_default. rewrite Hget. reflexivity. }
  split.
  { intros key prob acc Hnone. unfold normalize_step.
    rewrite (unknown_label_not_valid _ Hnone). reflexivity. }
  split.
  { apply normalize_fold_keys. intros t []. }
  split.
  { intros t Ht. apply in_VALID_TYPES_canonical in Ht.
    unfold normalize_probs. rewrite (normalize_fold_get t raw [] Ht).
    reflexivity. }
  split; reflexivity.
Qed.

(** ** What each statement does to a row *)

Lemma analysis_of_key (bid : Z) (db : DB) (row : AnalysisRow) :
  analysis_of bid db = Some row -> a_bid row = bid.
Proof.
  intros H. apply select_one_in in H. exact (proj2 H).
Qed.

(** The upsert of [store_beatmap_analysis], seen from a row that was
    there. *)
Lemma store_analysis_old now bid probs t auto db k row :
  analysis_of k db = Some row ->
  exists row',
    analysis_of k (fst (sql_store_beatmap_analysis now bid probs t auto db))
    = Some row' /\
    a_bid row' = a_bid row /\
    manual_review_at row' = manual_review_at row /\
    reviewed_by_admin_id row' = reviewed_by_admin_id row /\
    (is_auto_typed row = false ->
     determined_b_type row' = determined_b_type row /\
     is_auto_typed row' = false) /\
    (k <> bid -> row' = row) /\
    (k = bid ->
     stream_prob row' = Dict.get "stream" (or_empty probs) /\
     jump_prob row' = Dict.get "jump" (or_empty probs) /\
     alt_prob row' = Dict.get "alt" (or_empty probs) /\
     tech_prob row' = Dict.get "tech" (or_empty probs) /\
     (is_auto_typed row = true ->
      determined_b_type row' = t /\ is_auto_typed row' = auto)).
Proof.
  intros Hrow. pose proof (analysis_of_key _ _ _ Hrow) as Hkey.
  unfold analysis_of in *. simpl.
  rewrite select_one_upsert by reflexivity. rewrite Hrow.
  unfold analysis_key. cbn [a_bid]. rewrite Hkey.
  destruct (Z.eqb k bid) eqn:Hk.
  - apply Z.eqb_eq in Hk. eexists. split; [reflexivity|]. simpl.
    repeat split; try tauto.
    + destruct (is_auto_typed row); [discriminate | reflexivity].
    + destruct (is_auto_typed row); [discriminate | reflexivity].
    + destruct (is_auto_typed row); [reflexivity | discriminate].
    + destruct (is_auto_typed row); [reflexivity | discriminate].
  - apply Z.eqb_neq in Hk. exists row. repeat split; tauto.
Qed.

(** The same upsert, for a beatmap that had no row. *)
Lemma store_analysis_new now bid probs t auto db :
  analysis_of bid db = None ->
  exists row',
    analysis_of bid (fst (sql_store_beatmap_analysis now bid probs t auto db))
    = Some row' /\
    determined_b_type row' = t /\
    is_auto_typed row' = auto /\
    stream_prob row' = Dict.get "stream" (or_empty probs) /\
    jump_prob row' = Dict.get "jump" (or_empty probs) /\
    alt_prob row' = Dict.get "alt" (or_empty probs) /\
    tech_prob row' = Dict.get "tech" (or_empty probs).
Proof.
  intros Hnone. unfold analysis_of in *. simpl.
  rewrite select_one_upsert by reflexivity.
  rewrite Hnone. change (analysis_key ?r) with (a_bid r). cbn [a_bid].
  rewrite Hnone, Z.eqb_refl. eexists. split; [reflexivity|].
  simpl. repeat split.
Qed.

(** The update of [store_beatmap_analysis_probabilities_only]. *)
Lemma probabilities_only_old now bid probs db k row :
  analysis_of k db = Some row ->
  exists row',
    analysis_of k (fst (sql_store_probabilities_only now bid probs db))
    = Some row' /\
    a_bid row' = a_bid row /\
    determined_b_type row' = determined_b_type row /\
    is_auto_typed row' = is_auto_typed row /\
    manual_review_at row' = manual_review_at row /\
    reviewed_by_admin_id row' = reviewed_by_admin_id row /\
    (k <> bid -> row' = row) /\
    (is_auto_typed row = true -> row' = row) /\
    (k = bid -> is_auto_typed row = false ->
     stream_prob row' = Dict.get "stream" probs /\
     jump_prob row' = Dict.get "jump" probs /\
     alt_prob row' = Dict.get "alt" probs /\
     tech_prob row' = Dict.get "tech" probs /\
     oracle_last_run_at row' = Some now).
Proof.
  intros Hrow. pose proof (analysis_of_key _ _ _ Hrow) as Hkey.
  unfold analysis_of in *. simpl.
  rewrite select_one_update_where by reflexivity. rewrite Hrow.
  cbn [option_map]. unfold analysis_key. rewrite Hkey.
  destruct (Z.eqb k bid) eqn:Hk; cbn [andb].
  - apply Z.eqb_eq in Hk.
    destruct (is_auto_typed row) eqn:Hauto; simpl.
    + exists row. repeat split; try tauto; discriminate.
    + eexists. split; [reflexivity|]. simpl.
      repeat split; try tauto; try discriminate.
  - apply Z.eqb_neq in Hk. exists row. repeat split; tauto.
Qed.

Lemma probabilities_only_absent now bid probs db k :
  analysis_of k db = None ->
  analysis_of k (fst (sql_store_probabilities_only now bid probs db)) = None.
Proof.
  intros Hnone. unfold analysis_of in *. simpl.
  rewrite select_one_update_where by reflexivity. rewrite Hnone.
  reflexivity.
Qed.

(** The update of [update_beatmap_classification]. *)
Lemma classified_row now bid new_type admin_id db row :
  analysis_of bid db = Some row ->
  exists row',
    analysis_of bid (classified now bid new_type admin_id db) = Some row' /\
    determined_b_type row' = new_type /\
    is_auto_typed row' = false /\
    manual_review_at row' = Some now /\
    reviewed_by_admin_id row' = Some admin_id.
Proof.
  intros Hrow. pose proof (analysis_of_key _ _ _ Hrow) as Hkey.
  unfold analysis_of, classified in *. simpl.
  rewrite select_one_update_where by reflexivity. rewrite Hrow.
  cbn [option_map]. unfold analysis_key. rewrite Hkey, Z.eqb_refl.
  cbn [andb].
  eexists. split; [reflexivity|]. simpl. repeat split.
Qed.

Lemma classified_pending now bid new_type admin_id db :
  pending_of bid (classified now bid new_type admin_id db) = [].
Proof.
  unfold pending_of, classified. simpl. apply rows_of_delete.
Qed.

(** ** The manual lock *)

Lemma keeps_manual_refl (db : DB) : keeps_manual db db.
Proof. intros bid t H. exact H. Qed.

Lemma keeps_manual_trans (db1 db2 db3 : DB) :
  keeps_manual db1 db2 -> keeps_manual db2 db3 -> keeps_manual db1 db3.
Proof. intros H12 H23 bid t H. apply H23, H12, H. Qed.

Lemma keeps_manual_same_analysis (db db' : DB) :
  BeatmapAnalysis db' = BeatmapAnalysis db -> keeps_manual db db'.
Proof.
  intros Heq bid t (row & Hrow & Hauto & Ht). exists row.
  unfold analysis_of in *. rewrite Heq. tauto.
Qed.

Lemma keeps_manual_store_analysis f now bid probs t auto db :
  keeps_manual db (store_beatmap_analysis f now bid probs t auto db).
Proof.
  rewrite store_beatmap_analysis_eq.
  destruct (survives f 2); [|apply keeps_manual_refl].
  intros k t0 (row & Hrow & Hauto & Ht).
  destruct (store_analysis_old now bid probs t auto db k row Hrow)
    as (row' & Hrow' & _ & _ & _ & Hlock & _).
  destruct (Hlock Hauto) as [Htype Hauto'].
  exists row'. repeat split; congruence.
Qed.

Lemma keeps_manual_probabilities_only f now bid probs db :
  keeps_manual db
    (store_beatmap_analysis_probabilities_only f now bid probs db).
Proof.
  rewrite store_probabilities_only_eq.
  destruct (survives f 2); [|apply keeps_manual_refl].
  intros k t0 (row & Hrow & Hauto & Ht).
  destruct (probabilities_only_old now bid probs db k row Hrow)
    as (row' & Hrow' & _ & Htype & Hauto' & _).
  exists row'. repeat split; congruence.
Qed.

Lemma keeps_manual_pending f now bid reason id db :
  keeps_manual db (add_to_pending_review f now bid reason id db).
Proof.
  apply keeps_manual_same_analysis. rewrite add_to_pending_review_eq.
  destruct (survives f 2); reflexivity.
Qed.

Lemma keeps_manual_recommendation f now qqid bid name req actual descr db :
  keeps_manual db
    (fst (store_recommendation f now qqid bid name req actual descr db)).
Proof.
  apply keeps_manual_same_analysis. rewrite store_recommendation_eq.
  destruct (survives f 2); reflexivity.
Qed.

Create HintDb manual.

#[local] Hint Resolve keeps_manual_refl keeps_manual_store_analysis
  keeps_manual_probabilities_only keeps_manual_pending
  keeps_manual_recommendation : manual.

Lemma keeps_manual_resolve_auto c bid raw oracle_determined_type db :
  keeps_manual db (fst (resolve_auto c bid raw oracle_determined_type db)).
Proof.
  unfold resolve_auto. split_conditions; cbn [fst];
    eauto using keeps_manual_trans with manual.
Qed.

Lemma keeps_manual_resolve_manual c bid raw db_type db :
  keeps_manual db (fst (resolve_manual c bid raw db_type db)).
Proof.
  unfold resolve_manual. split_conditions; destruct raw; cbn [fst];
    auto with manual.
Qed.

Lemma keeps_manual_record c binding bid resolved :
  keeps_manual (fst resolved)
    (fst (record_recommendation c binding bid resolved)).
Proof.
  destruct resolved as [db resolution]. unfold record_recommendation.
  match goal with
  | |- context [store_recommendation ?f ?n ?q ?b ?u ?r ?a ?d ?s] =>
      pose proof (keeps_manual_recommendation f n q b u r a d s) as Hrec;
      destruct (store_recommendation f n q b u r a d s) as [db' [id|]]
  end; exact Hrec.
Qed.

Lemma keeps_manual_resolve_and_record c binding bid db :
  keeps_manual db (fst (resolve_and_record c binding bid db)).
Proof.
  unfold resolve_and_record.
  rewrite get_oracle_analysis_results_eq.
  destruct (fetch_and_store_beatmap_info (official_info c));
    [|apply keeps_manual_refl].
  destruct (select_existing_analysis (check_fault c) bid db) as [existing|];
    [|apply keeps_manual_refl].
  eapply keeps_manual_trans; [|apply keeps_manual_record].
  destruct existing as [row|];
    [destruct (negb (is_auto_typed row))|];
    auto using keeps_manual_resolve_auto, keeps_manual_resolve_manual.
Qed.

Lemma keeps_manual_handle c db :
  keeps_manual db (fst (handle_recommend_command c db)).
Proof.
  unfold handle_recommend_command.
  destruct (binding_info c) as [binding|]; [|apply keeps_manual_refl].
  destruct (truthy_int (bid_from_arg c)) as [bid|];
    [apply keeps_manual_resolve_and_record|].
  destruct (truthy_int (recent_beatmap_id c)) as [bid|];
    [apply keeps_manual_resolve_and_record | apply keeps_manual_refl].
Qed.

Lemma keeps_manual_run calls db :
  keeps_manual db (run_recommendations calls db).
Proof.
  revert db. induction calls as [|c rest IH]; intros db.
  - apply keeps_manual_refl.
  - unfold run_recommendations. cbn [fold_left].
    eapply keeps_manual_trans; [apply keeps_manual_handle | apply IH].
Qed.

(** C1. A beatmap an administrator has classified keeps its type through
    every sequence of recommendation commands, whatever type the callers
    assert, whatever the classification service answers and whatever
    happens to the connections; the administrator's override is what sets
    a new type. *)
Theorem C1_manual_lock (bid : Z) (t : string) (db : DB) (calls : list Call) :
  manually_typed bid t db ->
  manually_typed bid t (run_recommendations calls db) /\
  (forall f now new_type admin_id,
     survives f 4 = true ->
     manually_typed bid new_type
       (fst (update_beatmap_classification f now bid new_type admin_id db))).
Proof.
  intros Hmanual. split; [exact (keeps_manual_run calls db bid t Hmanual)|].
  intros f now new_type admin_id Hf.
  destruct Hmanual as (row & Hrow & _).
  rewrite update_beatmap_classification_eq.
  fold (analysis_of bid db). rewrite Hrow, Hf. cbn [fst].
  destruct (classified_row now bid new_type admin_id db row Hrow)
    as (row' & Hrow' & Htype & Hauto & _).
  exists row'. tauto.
Qed.

(** ** The tables each write leaves alone *)

Lemma pending_store_analysis f now bid probs t auto db :
  PendingBeatmapReviews (store_beatmap_analysis f now bid probs t auto db)
  = PendingBeatmapReviews db.
Proof.
  rewrite store_beatmap_analysis_eq. destruct (survives f 2); reflexivity.
Qed.

Lemma pending_probabilities_only f now bid probs db :
  PendingBeatmapReviews
    (store_beatmap_analysis_probabilities_only f now bid probs db)
  = PendingBeatmapReviews db.
Proof.
  rewrite store_probabilities_only_eq. destruct (survives f 2); reflexivity.
Qed.

Lemma pending_store_recommendation f now qqid bid name req actual descr db :
  PendingBeatmapReviews
    (fst (store_recommendation f now qqid bid name req actual descr db))
  = PendingBeatmapReviews db.
Proof.
  rewrite store_recommendation_eq. destruct (survives f 2); reflexivity.
Qed.

Lemma analysis_add_to_pending f now bid reason id db :
  BeatmapAnalysis (add_to_pending_review f now bid reason id db)
  = BeatmapAnalysis db.
Proof.
  rewrite add_to_pending_review_eq. destruct (survives f 2); reflexivity.
Qed.

Lemma analysis_store_recommendation f now qqid bid name req actual descr db :
  BeatmapAnalysis
    (fst (store_recommendation f now qqid bid name req actual descr db))
  = BeatmapAnalysis db.
Proof.
  rewrite store_recommendation_eq. destruct (survives f 2); reflexivity.
Qed.

(** ** The review queue after an upsert *)

Lemma pending_row_after_add f now bid reason id db :
  survives f 2 = true ->
  select_one pending_key bid
    (PendingBeatmapReviews (add_to_pending_review f now bid reason id db))
  = Some {| p_bid := bid; reason_for_pending := reason;
            triggered_by_recommendation_id := id;
            added_to_queue_at := now |}.
Proof.
  intros Hf. rewrite add_to_pending_review_eq, Hf. simpl.
  rewrite select_one_upsert by reflexivity.
  change (pending_key ?r) with (p_bid r). cbn [p_bid].
  destruct (select_one pending_key bid (PendingBeatmapReviews db))
    as [old|] eqn:Hold.
  - apply select_one_in in Hold. destruct Hold as [_ Hkey].
    unfold pending_key in Hkey. rewrite Hkey, Z.eqb_refl. reflexivity.
  - rewrite Z.eqb_refl. reflexivity.
Qed.

Lemma unique_pending_after_add f now bid reason id db :
  unique_keys pending_key (PendingBeatmapReviews db) ->
  unique_keys pending_key
    (PendingBeatmapReviews (add_to_pending_review f now bid reason id db)).
Proof.
  intros Huniq. rewrite add_to_pending_review_eq.
  destruct (survives f 2); [|exact Huniq].
  simpl. apply unique_keys_upsert; [reflexivity | exact Huniq].
Qed.

(** ** The three ways through steps 3 to 5 *)

Lemma resolve_and_record_unavailable c binding bid db :
  fetch_and_store_beatmap_info (official_info c) = None ->
  resolve_and_record c binding bid db = (db, MetadataUnavailable bid).
Proof.
  intros Hnone. unfold resolve_and_record.
  rewrite get_oracle_analysis_results_eq, Hnone. reflexivity.
Qed.

Lemma resolve_and_record_case_A c binding bid db :
  metadata_available c ->
  sees_case_A c bid db ->
  resolve_and_record c binding bid db =
  record_recommendation c binding bid
    (resolve_auto c bid (oracle_classification c)
       (oracle_type (oracle_classification c)) db).
Proof.
  intros Hmeta (existing & Hcheck & Hauto).
  unfold metadata_available in Hmeta. unfold resolve_and_record.
  rewrite get_oracle_analysis_results_eq, Hcheck.
  destruct (fetch_and_store_beatmap_info (official_info c));
    [|congruence].
  destruct existing as [row|]; [rewrite Hauto|]; reflexivity.
Qed.

Lemma resolve_and_record_case_B c binding bid db row :
  metadata_available c ->
  sees_case_B c bid db row ->
  resolve_and_record c binding bid db =
  record_recommendation c binding bid
    (resolve_manual c bid (oracle_classification c)
       (determined_b_type row) db).
Proof.
  intros Hmeta [Hcheck Hauto].
  unfold metadata_available in Hmeta. unfold resolve_and_record.
  rewrite get_oracle_analysis_results_eq, Hcheck.
  destruct (fetch_and_store_beatmap_info (official_info c));
    [|congruence].
  rewrite Hauto. reflexivity.
Qed.

Lemma sees_case_B_row c bid db row :
  sees_case_B c bid db row -> analysis_of bid db = Some row.
Proof.
  intros [Hcheck _]. rewrite select_existing_analysis_eq in Hcheck.
  unfold analysis_of.
  destruct (check_fault c) as [| |[|n]]; congruence.
Qed.

Lemma record_recommendation_eq c binding bid db resolution :
  record_recommendation c binding bid (db, resolution) =
  if survives (recommendation_fault c) 2 then
    (fst (sql_store_recommendation (now c) (qqid c) bid
            (osu_username_at_bind binding) (user_specified_type c)
            (actual_recommend_type_of resolution) (description_from_arg c)
            db),
     Recorded (final_determined_b_type_for_db_of resolution)
       (actual_recommend_type_of resolution)
       (additional_messages_of resolution)
       (Z.of_nat (S (List.length (Recommendations db)))))
  else (db, RecordFailed).
Proof.
  unfold record_recommendation. rewrite store_recommendation_eq.
  destruct (survives (recommendation_fault c) 2); reflexivity.
Qed.

Lemma pending_record_recommendation c binding bid resolved :
  PendingBeatmapReviews (fst (record_recommendation c binding bid resolved))
  = PendingBeatmapReviews (fst resolved).
Proof.
  destruct resolved as [db resolution]. rewrite record_recommendation_eq.
  destruct (survives (recommendation_fault c) 2); reflexivity.
Qed.

Lemma analysis_record_recommendation c binding bid resolved :
  BeatmapAnalysis (fst (record_recommendation c binding bid resolved))
  = BeatmapAnalysis (fst resolved).
Proof.
  destruct resolved as [db resolution]. rewrite record_recommendation_eq.
  destruct (survives (recommendation_fault c) 2); reflexivity.
Qed.

Lemma pending_resolve_manual c bid raw db_type db :
  PendingBeatmapReviews (fst (resolve_manual c bid raw db_type db))
  = PendingBeatmapReviews db.
Proof.
  unfold resolve_manual.
  destruct (truthy_str (user_specified_type c)) as [user_type|];
    [destruct (negb (String.eqb user_type db_type))|];
    destruct raw; cbn [fst];
    try apply pending_probabilities_only; reflexivity.
Qed.

Lemma analysis_resolve_manual c bid raw db_type db :
  BeatmapAnalysis (fst (resolve_manual c bid raw db_type db))
  = match raw with
    | Some probs =>
        BeatmapAnalysis
          (store_beatmap_analysis_probabilities_only
             (probabilities_only_fault c) (now c) bid probs db)
    | None => BeatmapAnalysis db
    end.
Proof.
  unfold resolve_manual.
  destruct (truthy_str (user_specified_type c)) as [user_type|];
    [destruct (negb (String.eqb user_type db_type))|];
    destruct raw; reflexivity.
Qed.

(** In case A the analysis table is what [store_beatmap_analysis] makes
    of it, with the type the resolution chose. *)
Lemma analysis_resolve_auto c bid raw oracle_determined_type db :
  BeatmapAnalysis (fst (resolve_auto c bid raw oracle_determined_type db))
  = BeatmapAnalysis
      (store_beatmap_analysis (analysis_fault c) (now c) bid raw
         (final_determined_b_type_for_db_of
            (snd (resolve_auto c bid raw oracle_determined_type db)))
         true db).
Proof.
  unfold resolve_auto. split_conditions; cbn [fst snd];
    rewrite !store_beatmap_analysis_eq;
    destruct (survives (analysis_fault c) 2); cbn [fst];
    unfold sql_store_beatmap_analysis; cbn [fst BeatmapAnalysis];
    rewrite ?analysis_add_to_pending; reflexivity.
Qed.

(** The review queue after case A: untouched, or one upsert for the
    beatmap. *)
Lemma pending_resolve_auto c bid raw oracle_determined_type db :
  PendingBeatmapReviews
    (fst (resolve_auto c bid raw oracle_determined_type db))
  = PendingBeatmapReviews db \/
  exists reason,
    PendingBeatmapReviews
      (fst (resolve_auto c bid raw oracle_determined_type db))
    = PendingBeatmapReviews
        (add_to_pending_review (pending_fault c) (now c) bid reason None db).
Proof.
  unfold resolve_auto. split_conditions; cbn [fst];
    rewrite pending_store_analysis; eauto.
Qed.

(** The witness of C1: beatmap 42, classified tech by an administrator,
    is still tech after two commands. *)
Lemma C1_manual_lock_witness :
  manually_typed 42 "tech" manual_db /\
  manually_typed 42 "tech" (run_recommendations sample_calls manual_db).
Proof.
  assert (H : manually_typed 42 "tech" manual_db).
  { exists manual_row. repeat split. }
  split; [exact H|].
  exact (proj1 (C1_manual_lock 42 "tech" manual_db sample_calls H)).
Defined.

(** ** A failing model and an asserted type *)

(** C2. No row exists for beatmap 42, the caller asserts jump and the
    classification service fails.  The command records jump and writes
    the analysis as jump, automatically typed; the entry it puts in the
    review queue carries the mismatch reason built from the fallback type
    others, not the reason reserved for a failed service, which only an
    asserted type of others reaches. *)
Theorem C2_model_failure_with_user_type :
  let c := sample_call (Some "jump") None in
  let result := handle_recommend_command c empty_db in
  sees_case_A c 42 empty_db /\
  get_oracle_analysis_results (oracle_classification c)
  = (None, Some "others") /\
  snd result
  = Recorded "jump" "jump"
      ["你已将这张图定为【JUMP】！";
       "但osu!Oracle 分析认为此图更偏向【OTHERS】！差异已记录"] 1 /\
  analysis_of 42 (fst result)
  = Some {| a_bid := 42; determined_b_type := "jump"; is_auto_typed := true;
            stream_prob := None; jump_prob := None; alt_prob := None;
            tech_prob := None; oracle_last_run_at := None;
            manual_review_at := None; reviewed_by_admin_id := None |} /\
  pending_of 42 (fst result)
  = [pending_row 42 "User specified 'jump', oracle: 'others'" None 100] /\
  pending_of 42
    (fst (handle_recommend_command (sample_call (Some "others") None)
            empty_db))
  = [pending_row 42 "oracle_failed_user_specified_type" None 100].
Proof.
  cbv zeta. split; [exists None; split; reflexivity|].
  repeat split; reflexivity.
Qed.

(** ** The administrator's override *)

Lemma canonical_truthy (t : string) :
  canonical t -> truthy_str (Some t) = Some t /\ in_VALID_TYPES t = true.
Proof.
  intros [-> | [-> | [-> | [-> | ->]]]]; split; reflexivity.
Qed.

(** C3. The override answers NotFound when the beatmap has no analysis
    row, and then changes nothing.  When it succeeds the row carries the
    new type, is marked as manually typed with the reviewer and the time,
    and the review queue holds nothing for the beatmap.  Whatever happens
    to the connection, the store ends with both changes or with neither. *)
Theorem C3_override_atomic (info_fault update_fault : Fault) (now bid : Z)
    (raw_new_type new_type admin_id : string) (db : DB) :
  let result :=
    update_beatmap_classification update_fault now bid new_type admin_id db in
  (Dict.get (lower raw_new_type) TYPE_ALIASES = Some new_type ->
   analysis_of bid db = None ->
   handle_pending_command info_fault update_fault now bid raw_new_type
     admin_id db = (db, NotFound)) /\
  (analysis_of bid db = None -> result = (db, false)) /\
  (snd result = true ->
   fst result = classified now bid new_type admin_id db /\
   (exists row,
      analysis_of bid (fst result) = Some row /\
      determined_b_type row = new_type /\
      is_auto_typed row = false /\
      manual_review_at row = Some now /\
      reviewed_by_admin_id row = Some admin_id) /\
   pending_of bid (fst result) = []) /\
  (snd result = false -> fst result = db) /\
  (analysis_of bid db <> None ->
   survives update_fault 4 = true ->
   snd result = true) /\
  (Dict.get (lower raw_new_type) TYPE_ALIASES = Some new_type ->
   forall db',
     handle_pending_command info_fault update_fault now bid raw_new_type
       admin_id db = (db', Processed new_type) ->
     db' = classified now bid new_type admin_id db).
Proof.
  cbv zeta. rewrite update_beatmap_classification_eq.
  fold (analysis_of bid db).
  split.
  { intros Halias Hnone. unfold handle_pending_command. rewrite Halias.
    destruct (canonical_truthy new_type (alias_canonical _ _ Halias))
      as [-> ->].
    cbn [negb]. rewrite get_beatmap_analysis_info_eq.
    fold (analysis_of bid db). rewrite Hnone.
    destruct (survives info_fault 1); reflexivity. }
  split; [intros ->; reflexivity|].
  split.
  { destruct (analysis_of bid db) as [row|] eqn:Hrow; [|discriminate].
    destruct (survives update_fault 4); [|discriminate].
    intros _. cbn [fst]. split; [reflexivity|].
    split; [|apply classified_pending].
    apply (classified_row now bid new_type admin_id db row Hrow). }
  split.
  { destruct (analysis_of bid db); [|reflexivity].
    destruct (survives update_fault 4); [discriminate | reflexivity]. }
  split.
  { intros Hrow ->. destruct (analysis_of bid db); [reflexivity|].
    exfalso. apply Hrow. reflexivity. }
  intros Halias db'. unfold handle_pending_command. rewrite Halias.
  destruct (canonical_truthy new_type (alias_canonical _ _ Halias))
    as [-> ->].
  cbn [negb]. destruct (get_beatmap_analysis_info info_fault bid db);
    [|discriminate].
  rewrite update_beatmap_classification_eq. fold (analysis_of bid db).
  destruct (analysis_of bid db); [|discriminate].
  destruct (survives update_fault 4); [|discriminate].
  intros [= <-]. reflexivity.
Qed.

(** ** The review queue *)

Lemma pending_resolve_and_record c binding bid db :
  PendingBeatmapReviews (fst (resolve_and_record c binding bid db))
  = PendingBeatmapReviews db \/
  exists reason,
    PendingBeatmapReviews (fst (resolve_and_record c binding bid db))
    = PendingBeatmapReviews
        (add_to_pending_review (pending_fault c) (now c) bid reason None db).
Proof.
  unfold resolve_and_record. rewrite get_oracle_analysis_results_eq.
  destruct (fetch_and_store_beatmap_info (official_info c));
    [|left; reflexivity].
  destruct (select_existing_analysis (check_fault c) bid db) as [existing|];
    [|left; reflexivity].
  rewrite pending_record_recommendation.
  destruct existing as [row|];
    [destruct (negb (is_auto_typed row))|];
    try apply pending_resolve_auto.
  left. apply pending_resolve_manual.
Qed.

Lemma unique_pending_handle c db :
  unique_keys pending_key (PendingBeatmapReviews db) ->
  unique_keys pending_key
    (PendingBeatmapReviews (fst (handle_recommend_command c db))).
Proof.
  intros Huniq. unfold handle_recommend_command.
  destruct (binding_info c) as [binding|]; [|exact Huniq].
  assert (Hstep : forall bid,
            unique_keys pending_key
              (PendingBeatmapReviews
                 (fst (resolve_and_record c binding bid db)))).
  { intros bid.
    destruct (pending_resolve_and_record c binding bid db)
      as [-> | [reason ->]];
      [exact Huniq | apply unique_pending_after_add; exact Huniq]. }
  destruct (truthy_int (bid_from_arg c)) as [bid|]; [apply Hstep|].
  destruct (truthy_int (recent_beatmap_id c)) as [bid|];
    [apply Hstep | exact Huniq].
Qed.

Lemma unique_pending_run calls db :
  unique_keys pending_key (PendingBeatmapReviews db) ->
  unique_keys pending_key
    (PendingBeatmapReviews (run_recommendations calls db)).
Proof.
  revert db. induction calls as [|c rest IH]; intros db Huniq.
  - exact Huniq.
  - unfold run_recommendations. cbn [fold_left].
    apply IH. apply unique_pending_handle. exact Huniq.
Qed.

(** C5. In a queue keyed by beatmap, two entries requested one after the
    other for the same beatmap leave exactly one row, carrying the second
    reason; however many recommendation commands run, the queue never
    holds two rows for one beatmap; and two commands for beatmap 42, the
    first with the service down, the second with an ambiguous answer,
    leave the one row of the second. *)
Theorem C5_review_queue_last_reason_wins (db : DB) (bid : Z)
    (reason1 reason2 : string) (id1 id2 : option Z) (now1 now2 : Z)
    (f1 f2 : Fault) :
  unique_keys pending_key (PendingBeatmapReviews db) ->
  survives f1 2 = true ->
  survives f2 2 = true ->
  pending_of bid
    (add_to_pending_review f2 now2 bid reason2 id2
       (add_to_pending_review f1 now1 bid reason1 id1 db))
  = [pending_row bid reason2 id2 now2] /\
  (forall calls,
     unique_keys pending_key
       (PendingBeatmapReviews (run_recommendations calls db))) /\
  (forall calls other,
     (List.length (pending_of other (run_recommendations calls db)) <= 1)%nat) /\
  pending_of 42 (run_recommendations ambiguous_calls empty_db)
  = [pending_row 42 "oracle_ambiguous_result" None 100].
Proof.
  intros Huniq Hf1 Hf2. split; [|split; [|split; [|reflexivity]]].
  - unfold pending_of. rewrite rows_of_unique.
    + rewrite pending_row_after_add by exact Hf2. reflexivity.
    + apply unique_pending_after_add, unique_pending_after_add, Huniq.
  - intros calls. apply unique_pending_run, Huniq.
  - intros calls other. unfold pending_of.
    rewrite rows_of_unique by (apply unique_pending_run, Huniq).
    destruct (select_one pending_key other _); simpl; lia.
Qed.

(** The witness of C5: on the empty store, a queue entry for a failed
    service followed by one for an ambiguous answer. *)
Lemma C5_review_queue_witness :
  pending_of 42
    (add_to_pending_review NoFault 2 42 "oracle_ambiguous_result" None
       (add_to_pending_review NoFault 1 42
          "oracle_ambiguous_or_failed_no_user_type" None empty_db))
  = [pending_row 42 "oracle_ambiguous_result" None 2].
Proof.
  apply (C5_review_queue_last_reason_wins empty_db 42
           "oracle_ambiguous_or_failed_no_user_type"
           "oracle_ambiguous_result" None None 1 2 NoFault NoFault).
  - constructor.
  - reflexivity.
  - reflexivity.
Defined.

(** ** An ambiguous answer and no asserted type *)

Lemma no_entry_above_half (raw : RawProbs) :
  (forall t p, In (t, p) (normalize_probs raw) -> ~ exceeds_half p) ->
  oracle_type (Some raw) = "others".
Proof.
  intros Hnone. unfold oracle_type, model_type.
  destruct (Dict.is_empty (normalize_probs raw)); [reflexivity|].
  apply type_above_half_none. exact Hnone.
Qed.

(** C6, as the code has it.  In case A, with no asserted type, when the
    classification service returns a dictionary that is not empty and in
    which no normalized probability is above 0.5, the type is others, the
    beatmap enters the review queue with the reason for an ambiguous
    answer, and the command adds no message. *)
Theorem C6_ambiguous_answer_no_user_type (c : Call) (binding : Binding)
    (bid : Z) (db : DB) (raw : RawProbs) :
  metadata_available c ->
  sees_case_A c bid db ->
  truthy_str (user_specified_type c) = None ->
  oracle_classification c = Some raw ->
  raw <> [] ->
  (forall t p, In (t, p) (normalize_probs raw) -> ~ exceeds_half p) ->
  survives (pending_fault c) 2 = true ->
  survives (recommendation_fault c) 2 = true ->
  let result := resolve_and_record c binding bid db in
  snd (get_oracle_analysis_results (oracle_classification c))
  = Some "others" /\
  (exists id, snd result = Recorded "others" "others" [] id) /\
  pending_of bid (fst result) =
  pending_of bid
    (add_to_pending_review (pending_fault c) (now c) bid
       "oracle_ambiguous_result" None db) /\
  select_one pending_key bid (PendingBeatmapReviews (fst result))
  = Some (pending_row bid "oracle_ambiguous_result" None (now c)).
Proof.
  intros Hmeta HA Huser Horacle Hraw Hnone Hpending Hrec. cbv zeta.
  rewrite (resolve_and_record_case_A c binding bid db Hmeta HA).
  rewrite get_oracle_analysis_results_eq, Horacle.
  rewrite (no_entry_above_half raw Hnone).
  split; [reflexivity|].
  assert (Hresolved :
            resolve_auto c bid (Some raw) "others" db =
            (store_beatmap_analysis (analysis_fault c) (now c) bid (Some raw)
               "others" true
               (add_to_pending_review (pending_fault c) (now c) bid
                  "oracle_ambiguous_result" None db),
             {| actual_recommend_type_of := "others";
                final_determined_b_type_for_db_of := "others";
                additional_messages_of := [] |})).
  { unfold resolve_auto. rewrite Huser.
    destruct raw as [|item rest]; [congruence | reflexivity]. }
  rewrite Hresolved, record_recommendation_eq, Hrec. cbn [fst snd].
  split; [eexists; reflexivity|].
  unfold pending_of, sql_store_recommendation.
  cbn [fst PendingBeatmapReviews].
  rewrite pending_store_analysis.
  split; [reflexivity|].
  apply pending_row_after_add. exact Hpending.
Qed.

(** The witness of C6: the answer stream 0.4, jump 0.3 for a beatmap
    without a row. *)
Lemma C6_ambiguous_answer_witness :
  select_one pending_key 42
    (PendingBeatmapReviews
       (fst (resolve_and_record (sample_call None (Some ambiguous_answer))
               sample_binding 42 empty_db)))
  = Some (pending_row 42 "oracle_ambiguous_result" None 100).
Proof.
  apply (C6_ambiguous_answer_no_user_type
           (sample_call None (Some ambiguous_answer)) sample_binding 42
           empty_db ambiguous_answer).
  - discriminate.
  - exists None. split; reflexivity.
  - reflexivity.
  - reflexivity.
  - discriminate.
  - intros t p [H | [H | []]]; inversion H; subst;
      unfold exceeds_half; vm_compute; discriminate.
  - reflexivity.
  - reflexivity.
Defined.

(** C6 fails when the service answers with an empty dictionary: the
    premises of the claim hold, yet the command adds the message of a
    failed service and queues the beatmap with the reason for a failure. *)
Lemma C6_counterexample_empty_answer :
  let c := sample_call None (Some []) in
  let result := resolve_and_record c sample_binding 42 empty_db in
  metadata_available c /\
  sees_case_A c 42 empty_db /\
  truthy_str (user_specified_type c) = None /\
  oracle_classification c = Some [] /\
  (forall t p, In (t, p) (normalize_probs []) -> ~ exceeds_half p) /\
  snd result
  = Recorded "others" "others"
      ["osu!oracle 分析失败或未返回有效结果，谱面暂定为【OTHERS】！"] 1 /\
  pending_of 42 (fst result)
  = [pending_row 42 "oracle_ambiguous_or_failed_no_user_type" None 100] /\
  ~ (exists id, snd result = Recorded "others" "others" [] id) /\
  select_one pending_key 42 (PendingBeatmapReviews (fst result))
  <> Some (pending_row 42 "oracle_ambiguous_result" None 100).
Proof.
  cbv zeta.
  split; [discriminate|].
  split; [exists None; split; reflexivity|].
  split; [reflexivity|].
  split; [reflexivity|].
  split; [intros t p []|].
  split; [reflexivity|].
  split; [reflexivity|].
  split; [intros [id Hid]; discriminate Hid | discriminate].
Qed.

(** ** Failing services *)

Lemma recommendations_store_analysis f now bid probs t auto db :
  Recommendations (store_beatmap_analysis f now bid probs t auto db)
  = Recommendations db.
Proof.
  rewrite store_beatmap_analysis_eq. destruct (survives f 2); reflexivity.
Qed.

Lemma recommendations_probabilities_only f now bid probs db :
  Recommendations
    (store_beatmap_analysis_probabilities_only f now bid probs db)
  = Recommendations db.
Proof.
  rewrite store_probabilities_only_eq. destruct (survives f 2); reflexivity.
Qed.

Lemma recommendations_add_to_pending f now bid reason id db :
  Recommendations (add_to_pending_review f now bid reason id db)
  = Recommendations db.
Proof.
  rewrite add_to_pending_review_eq. destruct (survives f 2); reflexivity.
Qed.

Lemma recommendations_resolve_auto c bid raw oracle_determined_type db :
  Recommendations (fst (resolve_auto c bid raw oracle_determined_type db))
  = Recommendations db.
Proof.
  unfold resolve_auto. split_conditions; cbn [fst];
    rewrite recommendations_store_analysis,
      ?recommendations_add_to_pending; reflexivity.
Qed.

Lemma recommendations_resolve_manual c bid raw db_type db :
  Recommendations (fst (resolve_manual c bid raw db_type db))
  = Recommendations db.
Proof.
  unfold resolve_manual. split_conditions; destruct raw; cbn [fst];
    rewrite ?recommendations_probabilities_only; reflexivity.
Qed.

(** A check that does not raise sees case A or case B. *)
Lemma case_A_or_B c bid db :
  select_existing_analysis (check_fault c) bid db <> None ->
  sees_case_A c bid db \/ exists row, sees_case_B c bid db row.
Proof.
  intros Hcheck. unfold sees_case_A, sees_case_B.
  destruct (select_existing_analysis (check_fault c) bid db)
    as [[row|]|]; [| |congruence].
  - destruct (is_auto_typed row) eqn:Hauto.
    + left. exists (Some row). split; [reflexivity | exact Hauto].
    + right. exists row. split; [reflexivity | exact Hauto].
  - left. exists None. split; [reflexivity | exact I].
Qed.

(** Step 5 appends one recommendation when its connection works. *)
Lemma record_recommendation_appends c binding bid resolved :
  survives (recommendation_fault c) 2 = true ->
  exists recommendation,
    Recommendations (fst (record_recommendation c binding bid resolved))
    = Recommendations (fst resolved) ++ [recommendation] /\
    r_bid recommendation = bid /\
    actual_recommend_type recommendation
    = actual_recommend_type_of (snd resolved) /\
    snd (record_recommendation c binding bid resolved)
    = Recorded (final_determined_b_type_for_db_of (snd resolved))
        (actual_recommend_type_of (snd resolved))
        (additional_messages_of (snd resolved))
        (r_id recommendation).
Proof.
  intros Hrec. destruct resolved as [db resolution].
  rewrite record_recommendation_eq, Hrec. cbn [fst snd].
  eexists. split; [reflexivity|]. repeat split.
Qed.

(** With the service down, case A always asks for a review. *)
Lemma resolve_auto_model_failed c bid oracle_determined_type db :
  exists reason,
    PendingBeatmapReviews
      (fst (resolve_auto c bid None oracle_determined_type db))
    = PendingBeatmapReviews
        (add_to_pending_review (pending_fault c) (now c) bid reason None db).
Proof.
  unfold resolve_auto. cbn [no_probabilities].
  split_conditions; cbn [fst]; rewrite pending_store_analysis; eauto.
Qed.

(** C7, as the code has it.  Steps 3 to 5 end with MetadataUnavailable
    exactly when the metadata of the beatmap cannot be fetched, and then
    write nothing.  A failure of the classification service does not end
    them: the answer counts as absent (no probabilities, type others) and
    the recommendation is still recorded; the beatmap enters the review
    queue in case A, while for a beatmap an administrator has classified
    (case B) the queue is left as it was. *)
Theorem C7_metadata_aborts_model_failure_does_not (c : Call)
    (binding : Binding) (bid : Z) (db : DB) :
  let result := resolve_and_record c binding bid db in
  (snd result = MetadataUnavailable bid <->
   fetch_and_store_beatmap_info (official_info c) = None) /\
  (fetch_and_store_beatmap_info (official_info c) = None ->
   fst result = db) /\
  (oracle_classification c = None ->
   get_oracle_analysis_results (oracle_classification c)
   = (None, Some "others") /\
   (metadata_available c ->
    select_existing_analysis (check_fault c) bid db <> None ->
    survives (recommendation_fault c) 2 = true ->
    (exists final actual messages recommendation,
       snd result = Recorded final actual messages (r_id recommendation) /\
       Recommendations (fst result)
       = Recommendations db ++ [recommendation] /\
       r_bid recommendation = bid /\
       actual_recommend_type recommendation = actual) /\
    (sees_case_A c bid db ->
     survives (pending_fault c) 2 = true ->
     exists reason,
       select_one pending_key bid (PendingBeatmapReviews (fst result))
       = Some (pending_row bid reason None (now c))) /\
    (forall row,
       sees_case_B c bid db row ->
       PendingBeatmapReviews (fst result) = PendingBeatmapReviews db))).
Proof.
  cbv zeta. split; [|split].
  - split.
    + intros Hout.
      destruct (fetch_and_store_beatmap_info (official_info c)) eqn:Hmeta;
        [|reflexivity].
      exfalso. unfold resolve_and_record in Hout.
      rewrite get_oracle_analysis_results_eq, Hmeta in Hout.
      destruct (select_existing_analysis (check_fault c) bid db)
        as [existing|]; [|discriminate Hout].
      match type of Hout with
      | context [record_recommendation _ _ _ ?r] =>
          destruct r as [db' resolution]
      end.
      rewrite record_recommendation_eq in Hout.
      destruct (survives (recommendation_fault c) 2); discriminate Hout.
    + intros Hmeta. rewrite resolve_and_record_unavailable by exact Hmeta.
      reflexivity.
  - intros Hmeta. rewrite resolve_and_record_unavailable by exact Hmeta.
    reflexivity.
  - intros Horacle. rewrite Horacle. split; [reflexivity|].
    intros Hmeta Hcheck Hrec.
    destruct (case_A_or_B c bid db Hcheck) as [HA | [row HB]].
    + rewrite (resolve_and_record_case_A c binding bid db Hmeta HA).
      rewrite Horacle. cbn [oracle_type].
      split; [|split].
      * destruct (record_recommendation_appends c binding bid
                    (resolve_auto c bid None "others" db) Hrec)
          as (recommendation & Happ & Hbid & Hactual & Hout).
        rewrite recommendations_resolve_auto in Happ.
        eexists _, _, _, recommendation. eauto.
      * intros _ Hpending. rewrite pending_record_recommendation.
        destruct (resolve_auto_model_failed c bid "others" db)
          as [reason ->].
        exists reason. apply pending_row_after_add. exact Hpending.
      * intros row' [Hcheck' Hauto']. destruct HA as (existing & He & Ha).
        rewrite Hcheck' in He. injection He as <-. congruence.
    + rewrite (resolve_and_record_case_B c binding bid db row Hmeta HB).
      rewrite Horacle.
      split; [|split].
      * destruct (record_recommendation_appends c binding bid
                    (resolve_manual c bid None (determined_b_type row) db)
                    Hrec)
          as (recommendation & Happ & Hbid & Hactual & Hout).
        rewrite recommendations_resolve_manual in Happ.
        eexists _, _, _, recommendation. eauto.
      * intros (existing & He & Ha) _. destruct HB as [Hcheck' Hauto'].
        rewrite Hcheck' in He. injection He as <-. congruence.
      * intros _ _. rewrite pending_record_recommendation.
        apply pending_resolve_manual.
Qed.

(** C7 fails for a beatmap an administrator has classified: the service
    is down, the recommendation is recorded, and the review queue stays
    empty. *)
Lemma C7_counterexample_manual_row_not_queued :
  let c := sample_call None None in
  let result := resolve_and_record c sample_binding 42 manual_db in
  oracle_classification c = None /\
  metadata_available c /\
  snd result = Recorded "tech" "tech" [] 1 /\
  List.length (Recommendations (fst result)) = 1%nat /\
  PendingBeatmapReviews (fst result) = [] /\
  pending_of 42 (fst result) = [].
Proof.
  cbv zeta. split; [reflexivity|]. split; [discriminate|].
  repeat split; reflexivity.
Qed.

(** ** The probabilities-only refresh *)

(** C9. In case B the only write to the analysis table is the refresh of
    the probabilities: the row keeps its type, its manual flag, its
    reviewer and its review time, the other rows and the review queue are
    left as they are; with the service down the table is not written at
    all, and with an answer the four probability columns and the time of
    the last run are replaced. *)
Theorem C9_manual_row_probabilities_only (c : Call) (binding : Binding)
    (bid : Z) (db : DB) (row : AnalysisRow) :
  metadata_available c ->
  sees_case_B c bid db row ->
  let result := resolve_and_record c binding bid db in
  (exists row',
     analysis_of bid (fst result) = Some row' /\
     a_bid row' = a_bid row /\
     determined_b_type row' = determined_b_type row /\
     is_auto_typed row' = false /\
     manual_review_at row' = manual_review_at row /\
     reviewed_by_admin_id row' = reviewed_by_admin_id row /\
     (forall raw,
        oracle_classification c = Some raw ->
        survives (probabilities_only_fault c) 2 = true ->
        stream_prob row' = Dict.get "stream" raw /\
        jump_prob row' = Dict.get "jump" raw /\
        alt_prob row' = Dict.get "alt" raw /\
        tech_prob row' = Dict.get "tech" raw /\
        oracle_last_run_at row' = Some (now c))) /\
  (oracle_classification c = None ->
   BeatmapAnalysis (fst result) = BeatmapAnalysis db) /\
  (forall other,
     other <> bid -> analysis_of other (fst result) = analysis_of other db) /\
  PendingBeatmapReviews (fst result) = PendingBeatmapReviews db.
Proof.
  intros Hmeta HB. cbv zeta.
  pose proof (sees_case_B_row c bid db row HB) as Hrow.
  destruct HB as [Hcheck Hauto].
  rewrite (resolve_and_record_case_B c binding bid db row Hmeta
             (conj Hcheck Hauto)).
  unfold analysis_of in *.
  rewrite analysis_record_recommendation, analysis_resolve_manual,
    pending_record_recommendation, pending_resolve_manual.
  destruct (oracle_classification c) as [raw|].
  - rewrite store_probabilities_only_eq.
    destruct (survives (probabilities_only_fault c) 2).
    + destruct (probabilities_only_old (now c) bid raw db bid row Hrow)
        as (row' & Hrow' & Hbid & Htype & Hflag & Hat & Hby & _ & _ & Hnew).
      unfold analysis_of in Hrow'.
      split; [|split; [discriminate | split; [|reflexivity]]].
      * exists row'. rewrite Hflag.
        split; [exact Hrow'|]. split; [exact Hbid|]. split; [exact Htype|].
        split; [exact Hauto|]. split; [exact Hat|]. split; [exact Hby|].
        intros raw' [= <-] _. exact (Hnew eq_refl Hauto).
      * intros other Hother.
        destruct (select_one analysis_key other (BeatmapAnalysis db))
          as [r|] eqn:Hr.
        -- destruct (probabilities_only_old (now c) bid raw db other r Hr)
             as (r' & Hr' & _ & _ & _ & _ & _ & Hsame & _).
           unfold analysis_of in Hr'. rewrite Hr', (Hsame Hother).
           reflexivity.
        -- apply (probabilities_only_absent (now c) bid raw db other Hr).
    + split; [|split; [discriminate | split; reflexivity]].
      exists row. split; [exact Hrow|].
      repeat (split; [first [reflexivity | exact Hauto]|]).
      intros raw' _ Hf. discriminate Hf.
  - split; [|split; [reflexivity | split; reflexivity]].
    exists row. split; [exact Hrow|].
    repeat (split; [first [reflexivity | exact Hauto]|]).
    intros raw' Hraw. discriminate Hraw.
Qed.

(** The witness of C9: a command for beatmap 42, classified by an
    administrator, with an answer of the service. *)
Lemma C9_manual_row_witness :
  PendingBeatmapReviews
    (fst (resolve_and_record (sample_call (Some "jump") (Some ambiguous_answer))
            sample_binding 42 manual_db))
  = PendingBeatmapReviews manual_db.
Proof.
  apply (C9_manual_row_probabilities_only
           (sample_call (Some "jump") (Some ambiguous_answer))
           sample_binding 42 manual_db manual_row).
  - discriminate.
  - split; reflexivity.
Defined.

(** ** What is stored of the probabilities *)

(** C10. The type is derived from the normalized probabilities, but the
    four probability columns are read from the dictionary of the service
    as it came, under the exact keys stream, jump, alt and tech, in case
    A as in case B.  A probability reported as Stream, or under the
    Chinese alias, makes the type stream and is stored as NULL. *)
Theorem C10_stored_probabilities_read_raw_labels (c : Call)
    (binding : Binding) (bid : Z) (db : DB) (raw : RawProbs) :
  metadata_available c ->
  oracle_classification c = Some raw ->
  let result := resolve_and_record c binding bid db in
  get_oracle_analysis_results (oracle_classification c)
  = (Some raw, Some (model_type (normalize_probs raw))) /\
  (sees_case_A c bid db ->
   survives (analysis_fault c) 2 = true ->
   exists row',
     analysis_of bid (fst result) = Some row' /\
     stream_prob row' = Dict.get "stream" raw /\
     jump_prob row' = Dict.get "jump" raw /\
     alt_prob row' = Dict.get "alt" raw /\
     tech_prob row' = Dict.get "tech" raw) /\
  (forall row,
     sees_case_B c bid db row ->
     survives (probabilities_only_fault c) 2 = true ->
     exists row',
       analysis_of bid (fst result) = Some row' /\
       stream_prob row' = Dict.get "stream" raw /\
       jump_prob row' = Dict.get "jump" raw /\
       alt_prob row' = Dict.get "alt" raw /\
       tech_prob row' = Dict.get "tech" raw) /\
  (forall answer,
     answer = capitalised_answer \/ answer = aliased_answer ->
     snd (get_oracle_analysis_results (Some answer)) = Some "stream" /\
     Dict.get "stream" (normalize_probs answer) = Some 0.6%float /\
     Dict.get "stream" answer = None /\
     option_map (fun r => (determined_b_type r, stream_prob r))
       (analysis_of 42
          (fst (resolve_and_record (sample_call None (Some answer))
                  sample_binding 42 empty_db)))
     = Some ("stream", None)).
Proof.
  intros Hmeta Horacle. cbv zeta.
  split; [rewrite Horacle; apply get_oracle_analysis_results_eq|].
  split; [|split].
  - intros HA Hf.
    rewrite (resolve_and_record_case_A c binding bid db Hmeta HA).
    unfold analysis_of.
    rewrite analysis_record_recommendation, analysis_resolve_auto.
    rewrite store_beatmap_analysis_eq, Hf, Horacle.
    match goal with
    | |- context [sql_store_beatmap_analysis ?n ?b ?p ?t ?a ?d] =>
        destruct (analysis_of b d) as [old|] eqn:Hold;
        [ destruct (store_analysis_old n b p t a d b old Hold)
            as (row' & Hrow' & _ & _ & _ & _ & _ & Hnew);
          destruct (Hnew eq_refl) as (Hs & Hj & Ha & Ht & _)
        | destruct (store_analysis_new n b p t a d Hold)
            as (row' & Hrow' & _ & _ & Hs & Hj & Ha & Ht) ]
    end; exists row'; unfold analysis_of in Hrow'; tauto.
  - intros row HB Hf.
    pose proof (sees_case_B_row c bid db row HB) as Hrow.
    rewrite (resolve_and_record_case_B c binding bid db row Hmeta HB).
    unfold analysis_of.
    rewrite analysis_record_recommendation, analysis_resolve_manual.
    rewrite Horacle, store_probabilities_only_eq, Hf.
    destruct (probabilities_only_old (now c) bid raw db bid row Hrow)
      as (row' & Hrow' & _ & _ & _ & _ & _ & _ & _ & Hnew).
    destruct (Hnew eq_refl (proj2 HB)) as (Hs & Hj & Ha & Ht & _).
    exists row'. unfold analysis_of in Hrow'. tauto.
  - intros answer [-> | ->]; repeat split; reflexivity.
Qed.

(** The witness of C10: the capitalised answer for a beatmap without a
    row. *)
Lemma C10_stored_probabilities_witness :
  get_oracle_analysis_results (Some capitalised_answer)
  = (Some capitalised_answer,
     Some (model_type (normalize_probs capitalised_answer))).
Proof.
  apply (C10_stored_probabilities_read_raw_labels
           (sample_call None (Some capitalised_answer)) sample_binding 42
           empty_db capitalised_answer).
  - discriminate.
  - reflexivity.
Defined.


(** ** Further facts about tables *)

Section MoreTableFacts.

Variable Row : Type.
Variable key : Row -> Z.

Lemma select_one_update_where_other (k k' : Z) (cond : Row -> bool)
    (set : Row -> Row) (rows : list Row) :
  (forall r, key (set r) = key r) ->
  k <> k' ->
  select_one key k' (update_where key k cond set rows)
  = select_one key k' rows.
Proof.
  intros Hkey Hneq. rewrite select_one_update_where by exact Hkey.
  destruct (select_one key k' rows) as [r|] eqn:Hr; [|reflexivity].
  apply select_one_in in Hr. destruct Hr as [_ Hk]. simpl.
  destruct (Z.eqb (key r) k) eqn:Hkk; [|reflexivity].
  apply Z.eqb_eq in Hkk. congruence.
Qed.

Lemma select_one_upsert_other (k' : Z) (new : Row) (set : Row -> Row)
    (rows : list Row) :
  (forall r, key (set r) = key r) ->
  key new <> k' ->
  select_one key k' (insert_on_duplicate_key_update key new set rows)
  = select_one key k' rows.
Proof.
  intros Hkey Hneq. rewrite select_one_upsert by exact Hkey.
  destruct (select_one key k' rows) as [r|] eqn:Hr.
  - apply select_one_in in Hr. destruct Hr as [_ Hk].
    destruct (Z.eqb (key r) (key new)) eqn:Hkk; [|reflexivity].
    apply Z.eqb_eq in Hkk. congruence.
  - destruct (select_one key (key new) rows); [reflexivity|].
    destruct (Z.eqb (key new) k') eqn:Hkk; [|reflexivity].
    apply Z.eqb_eq in Hkk. congruence.
Qed.

Lemma rows_of_update_where_other (k k' : Z) (cond : Row -> bool)
    (set : Row -> Row) (rows : list Row) :
  (forall r, key (set r) = key r) ->
  k <> k' ->
  rows_of key k' (update_where key k cond set rows) = rows_of key k' rows.
Proof.
  intros Hkey Hneq. unfold rows_of, update_where.
  induction rows as [|r rest IH]; simpl; [reflexivity|].
  destruct (andb (Z.eqb (key r) k) (cond r)) eqn:Hc.
  - apply andb_true_iff in Hc. destruct Hc as [Hk _].
    apply Z.eqb_eq in Hk. rewrite Hkey.
    destruct (Z.eqb (key r) k') eqn:Hk'; [|exact IH].
    apply Z.eqb_eq in Hk'. congruence.
  - rewrite IH. reflexivity.
Qed.

Lemma rows_of_app (k : Z) (rows more : list Row) :
  rows_of key k (rows ++ more) = rows_of key k rows ++ rows_of key k more.
Proof. unfold rows_of. apply filter_app. Qed.

Lemma rows_of_upsert_other (k' : Z) (new : Row) (set : Row -> Row)
    (rows : list Row) :
  (forall r, key (set r) = key r) ->
  key new <> k' ->
  rows_of key k' (insert_on_duplicate_key_update key new set rows)
  = rows_of key k' rows.
Proof.
  intros Hkey Hneq. unfold insert_on_duplicate_key_update.
  destruct (existsb (fun r => Z.eqb (key r) (key new)) rows).
  - apply rows_of_update_where_other; assumption.
  - rewrite rows_of_app. simpl.
    destruct (Z.eqb (key new) k') eqn:Hk; [|apply app_nil_r].
    apply Z.eqb_eq in Hk. congruence.
Qed.

Lemma rows_of_delete_other (k k' : Z) (rows : list Row) :
  k <> k' ->
  rows_of key k' (delete_where key k rows) = rows_of key k' rows.
Proof.
  intros Hneq. unfold rows_of, delete_where.
  induction rows as [|r rest IH]; simpl; [reflexivity|].
  destruct (Z.eqb (key r) k) eqn:Hk; simpl.
  - apply Z.eqb_eq in Hk.
    destruct (Z.eqb (key r) k') eqn:Hk'; [|exact IH].
    apply Z.eqb_eq in Hk'. congruence.
  - rewrite IH. reflexivity.
Qed.

Lemma unique_keys_update_where (k : Z) (cond : Row -> bool)
    (set : Row -> Row) (rows : list Row) :
  (forall r, key (set r) = key r) ->
  unique_keys key rows ->
  unique_keys key (update_where key k cond set rows).
Proof.
  intros Hkey Huniq. unfold unique_keys.
  rewrite map_key_update_where by exact Hkey. exact Huniq.
Qed.

End MoreTableFacts.

Arguments select_one_update_where_other {Row} key k k' cond set rows.
Arguments select_one_upsert_other {Row} key k' new set rows.
Arguments rows_of_update_where_other {Row} key k k' cond set rows.
Arguments rows_of_upsert_other {Row} key k' new set rows.
Arguments rows_of_delete_other {Row} key k k' rows.
Arguments unique_keys_update_where {Row} key k cond set rows.


(** ** Rows of other beatmaps *)

Lemma analysis_of_store_other now bid probs t auto db other :
  other <> bid ->
  analysis_of other (fst (sql_store_beatmap_analysis now bid probs t auto db))
  = analysis_of other db.
Proof.
  intros Hneq. unfold analysis_of. simpl.
  apply select_one_upsert_other; [reflexivity|].
  simpl. congruence.
Qed.

Lemma analysis_of_probabilities_only_other now bid probs db other :
  other <> bid ->
  analysis_of other (fst (sql_store_probabilities_only now bid probs db))
  = analysis_of other db.
Proof.
  intros Hneq. unfold analysis_of. simpl.
  apply select_one_update_where_other; [reflexivity | congruence].
Qed.

Lemma analysis_of_store_analysis_other f now bid probs t auto db other :
  other <> bid ->
  analysis_of other (store_beatmap_analysis f now bid probs t auto db)
  = analysis_of other db.
Proof.
  intros Hneq. rewrite store_beatmap_analysis_eq.
  destruct (survives f 2); [|reflexivity].
  apply analysis_of_store_other. exact Hneq.
Qed.

Lemma pending_of_add_other f now bid reason id db other :
  other <> bid ->
  pending_of other (add_to_pending_review f now bid reason id db)
  = pending_of other db.
Proof.
  intros Hneq. rewrite add_to_pending_review_eq.
  destruct (survives f 2); [|reflexivity].
  unfold pending_of. simpl.
  apply rows_of_upsert_other; [reflexivity|]. simpl. congruence.
Qed.

Lemma analysis_of_ext db db' k :
  BeatmapAnalysis db' = BeatmapAnalysis db ->
  analysis_of k db' = analysis_of k db.
Proof. intros Heq. unfold analysis_of. rewrite Heq. reflexivity. Qed.

Lemma pending_of_ext db db' k :
  PendingBeatmapReviews db' = PendingBeatmapReviews db ->
  pending_of k db' = pending_of k db.
Proof. intros Heq. unfold pending_of. rewrite Heq. reflexivity. Qed.

(** Steps 3 to 5 for one beatmap leave the rows of the others alone. *)
Lemma resolve_and_record_other c binding bid db other :
  other <> bid ->
  analysis_of other (fst (resolve_and_record c binding bid db))
  = analysis_of other db /\
  pending_of other (fst (resolve_and_record c binding bid db))
  = pending_of other db.
Proof.
  intros Hneq. split.
  - unfold resolve_and_record. rewrite get_oracle_analysis_results_eq.
    destruct (fetch_and_store_beatmap_info (official_info c));
      [|reflexivity].
    destruct (select_existing_analysis (check_fault c) bid db)
      as [existing|]; [|reflexivity].
    rewrite (analysis_of_ext _ _ _ (analysis_record_recommendation _ _ _ _)).
    assert (Hauto : forall raw t,
              analysis_of other (fst (resolve_auto c bid raw t db))
              = analysis_of other db).
    { intros raw t.
      rewrite (analysis_of_ext _ _ _ (analysis_resolve_auto c bid raw t db)).
      apply analysis_of_store_analysis_other. exact Hneq. }
    assert (Hmanual : forall raw t,
              analysis_of other (fst (resolve_manual c bid raw t db))
              = analysis_of other db).
    { intros raw t. unfold analysis_of at 1.
      rewrite analysis_resolve_manual.
      destruct raw as [probs|]; [|reflexivity].
      fold (analysis_of other
              (store_beatmap_analysis_probabilities_only
                 (probabilities_only_fault c) (now c) bid probs db)).
      rewrite store_probabilities_only_eq.
      destruct (survives (probabilities_only_fault c) 2); [|reflexivity].
      apply analysis_of_probabilities_only_other. exact Hneq. }
    destruct existing as [row|];
      [destruct (negb (is_auto_typed row))|]; auto.
  - destruct (pending_resolve_and_record c binding bid db)
      as [Heq | [reason Heq]].
    + apply pending_of_ext. exact Heq.
    + rewrite (pending_of_ext _ _ _ Heq).
      apply pending_of_add_other. exact Hneq.
Qed.

(** ** The recommendation log *)

Lemma recommendations_record c binding bid resolved :
  Recommendations (fst (record_recommendation c binding bid resolved))
  = Recommendations (fst resolved) \/
  exists row,
    Recommendations (fst (record_recommendation c binding bid resolved))
    = Recommendations (fst resolved) ++ [row] /\
    r_bid row = bid /\ r_qqid row = qqid c.
Proof.
  destruct resolved as [db resolution]. rewrite record_recommendation_eq.
  destruct (survives (recommendation_fault c) 2); [|left; reflexivity].
  right. eexists. split; [reflexivity|]. split; reflexivity.
Qed.

Lemma recommendations_resolve_and_record c binding bid db :
  Recommendations (fst (resolve_and_record c binding bid db))
  = Recommendations db \/
  exists row,
    Recommendations (fst (resolve_and_record c binding bid db))
    = Recommendations db ++ [row] /\
    r_bid row = bid /\ r_qqid row = qqid c.
Proof.
  unfold resolve_and_record. rewrite get_oracle_analysis_results_eq.
  destruct (fetch_and_store_beatmap_info (official_info c));
    [|left; reflexivity].
  destruct (select_existing_analysis (check_fault c) bid db)
    as [existing|]; [|left; reflexivity].
  match goal with
  | |- context [record_recommendation c binding bid ?r] =>
      assert (Hsame : Recommendations (fst r) = Recommendations db);
      [|destruct (recommendations_record c binding bid r)
          as [Heq | (row & Heq & Hrow)]; rewrite Heq, Hsame; eauto]
  end.
  destruct existing as [row|];
    [destruct (negb (is_auto_typed row))|];
    auto using recommendations_resolve_auto, recommendations_resolve_manual.
Qed.

Lemma recommendations_handle c db :
  Recommendations (fst (handle_recommend_command c db))
  = Recommendations db \/
  exists row,
    Recommendations (fst (handle_recommend_command c db))
    = Recommendations db ++ [row] /\
    Some (r_bid row) = final_bid_of c /\ r_qqid row = qqid c.
Proof.
  unfold handle_recommend_command, final_bid_of.
  destruct (binding_info c) as [binding|]; [|left; reflexivity].
  destruct (truthy_int (bid_from_arg c)) as [bid|].
  - destruct (recommendations_resolve_and_record c binding bid db)
      as [Heq | (row & Heq & Hbid & Hqq)]; [left; exact Heq|].
    right. exists row. rewrite Hbid. auto.
  - destruct (truthy_int (recent_beatmap_id c)) as [bid|];
      [|left; reflexivity].
    destruct (recommendations_resolve_and_record c binding bid db)
      as [Heq | (row & Heq & Hbid & Hqq)]; [left; exact Heq|].
    right. exists row. rewrite Hbid. auto.
Qed.


(** ** Commands that end early *)

Lemma resolve_and_record_outcome c binding bid db :
  snd (resolve_and_record c binding bid db) <> NotBound /\
  snd (resolve_and_record c binding bid db) <> NoRecentBeatmap /\
  (aborted (snd (resolve_and_record c binding bid db)) ->
   fst (resolve_and_record c binding bid db) = db).
Proof.
  unfold resolve_and_record. rewrite get_oracle_analysis_results_eq.
  destruct (fetch_and_store_beatmap_info (official_info c));
    [|repeat split; discriminate].
  destruct (select_existing_analysis (check_fault c) bid db)
    as [existing|]; [|repeat split; discriminate].
  match goal with
  | |- context [record_recommendation c binding bid ?r] =>
      destruct r as [db' resolution]
  end.
  rewrite record_recommendation_eq.
  destruct (survives (recommendation_fault c) 2); cbn [fst snd];
    (split; [discriminate | split; [discriminate | intros []]]).
Qed.

(** X1. A recommendation command that ends early (caller not bound, no
    beatmap id, no metadata, failing existence check) leaves the analysis
    table, the review queue and the recommendation log as they were; it
    ends with NotBound exactly for an unbound caller, and with
    NoRecentBeatmap exactly for a bound caller with neither a usable
    argument (0 counts as none) nor a recent beatmap. *)
Theorem X1_aborted_command_writes_nothing (c : Call) (db : DB) :
  let result := handle_recommend_command c db in
  (aborted (snd result) -> fst result = db) /\
  (snd result = NotBound <-> binding_info c = None) /\
  (snd result = NoRecentBeatmap <->
   binding_info c <> None /\ final_bid_of c = None).
Proof.
  cbv zeta. unfold handle_recommend_command, final_bid_of.
  destruct (binding_info c) as [binding|].
  - assert (Hsome : Some binding <> None) by discriminate.
    destruct (truthy_int (bid_from_arg c)) as [bid|];
      [|destruct (truthy_int (recent_beatmap_id c)) as [bid|]].
    + destruct (resolve_and_record_outcome c binding bid db)
        as (Hnb & Hnr & Hab).
      split; [exact Hab|]. split; split; try tauto; try discriminate.
      intros [_ H]. discriminate H.
    + destruct (resolve_and_record_outcome c binding bid db)
        as (Hnb & Hnr & Hab).
      split; [exact Hab|]. split; split; try tauto; try discriminate.
      intros [_ H]. discriminate H.
    + cbn [fst snd]. split; [reflexivity|].
      split; split; try discriminate; tauto.
  - cbn [fst snd]. split; [reflexivity|].
    split; split; try reflexivity; try discriminate.
    intros [H _]. congruence.
Qed.

(** ** The log only grows *)

(** X2. The recommendation log is append-only: after any sequence of
    recommendation commands the earlier rows are still there, in order,
    followed by at most one new row per command; the administrator's
    override never writes to the log. *)
Theorem X2_recommendation_log_append_only (calls : list Call) (db : DB) :
  (exists added,
     Recommendations (run_recommendations calls db)
     = Recommendations db ++ added /\
     (List.length added <= List.length calls)%nat) /\
  (forall f now bid new_type admin_id,
     Recommendations
       (fst (update_beatmap_classification f now bid new_type admin_id db))
     = Recommendations db).
Proof.
  split.
  - revert db. induction calls as [|c rest IH]; intros db.
    + exists []. split; [symmetry; apply app_nil_r | simpl; lia].
    + unfold run_recommendations. cbn [fold_left].
      fold (run_recommendations rest (fst (handle_recommend_command c db))).
      destruct (IH (fst (handle_recommend_command c db)))
        as (added & Heq & Hlen).
      destruct (recommendations_handle c db) as [Hc | (row & Hc & _)];
        rewrite Hc in Heq.
      * exists added. split; [exact Heq | simpl; lia].
      * exists (row :: added). rewrite <- app_assoc in Heq.
        split; [exact Heq | simpl; lia].
  - intros f now bid new_type admin_id.
    rewrite update_beatmap_classification_eq.
    destruct (select_one analysis_key bid (BeatmapAnalysis db));
      [|reflexivity].
    destruct (survives f 4); reflexivity.
Qed.

(** ** One beatmap at a time *)

(** X3. The administrator's override of one beatmap leaves the analysis
    row and the queue entries of every other beatmap as they were. *)
Theorem X3_override_touches_one_beatmap (f : Fault) (now bid other : Z)
    (new_type admin_id : string) (db : DB) :
  other <> bid ->
  let db' :=
    fst (update_beatmap_classification f now bid new_type admin_id db) in
  analysis_of other db' = analysis_of other db /\
  pending_of other db' = pending_of other db.
Proof.
  intros Hneq. cbv zeta. rewrite update_beatmap_classification_eq.
  destruct (select_one analysis_key bid (BeatmapAnalysis db));
    [|split; reflexivity].
  destruct (survives f 4); [|split; reflexivity].
  cbn [fst]. unfold analysis_of, pending_of, classified. simpl. split.
  - apply select_one_update_where_other; [reflexivity | congruence].
  - apply rows_of_delete_other. congruence.
Qed.

(** The witness of X3: beatmap 42 is overridden, beatmap 7 asked about. *)
Lemma X3_override_witness :
  analysis_of 7
    (fst (update_beatmap_classification NoFault 60 42 "jump" "admin"
            manual_db))
  = analysis_of 7 manual_db.
Proof.
  apply (X3_override_touches_one_beatmap NoFault 60 42 7 "jump" "admin"
           manual_db).
  discriminate.
Defined.

(** X4. A recommendation command leaves the analysis row and the queue
    entries of every beatmap other than the one it works on as they
    were. *)
Theorem X4_command_touches_one_beatmap (c : Call) (db : DB) (other : Z) :
  final_bid_of c <> Some other ->
  let db' := fst (handle_recommend_command c db) in
  analysis_of other db' = analysis_of other db /\
  pending_of other db' = pending_of other db.
Proof.
  intros Hother. cbv zeta.
  unfold handle_recommend_command, final_bid_of in *.
  destruct (binding_info c) as [binding|]; [|split; reflexivity].
  destruct (truthy_int (bid_from_arg c)) as [bid|].
  - apply resolve_and_record_other. congruence.
  - destruct (truthy_int (recent_beatmap_id c)) as [bid|];
      [|split; reflexivity].
    apply resolve_and_record_other. congruence.
Qed.

(** The witness of X4: a command for beatmap 42, beatmap 7 asked about. *)
Lemma X4_command_witness :
  pending_of 7
    (fst (handle_recommend_command (sample_call None None) empty_db))
  = pending_of 7 empty_db.
Proof.
  apply (X4_command_touches_one_beatmap (sample_call None None) empty_db 7).
  discriminate.
Defined.

(** ** One analysis row per beatmap *)

Lemma unique_analysis_store f now bid probs t auto db :
  unique_keys analysis_key (BeatmapAnalysis db) ->
  unique_keys analysis_key
    (BeatmapAnalysis (store_beatmap_analysis f now bid probs t auto db)).
Proof.
  intros Huniq. rewrite store_beatmap_analysis_eq.
  destruct (survives f 2); [|exact Huniq].
  simpl. apply unique_keys_upsert; [reflexivity | exact Huniq].
Qed.

Lemma unique_analysis_probabilities_only f now bid probs db :
  unique_keys analysis_key (BeatmapAnalysis db) ->
  unique_keys analysis_key
    (BeatmapAnalysis
       (store_beatmap_analysis_probabilities_only f now bid probs db)).
Proof.
  intros Huniq. rewrite store_probabilities_only_eq.
  destruct (survives f 2); [|exact Huniq].
  simpl. apply unique_keys_update_where; [reflexivity | exact Huniq].
Qed.

Lemma unique_analysis_resolve_and_record c binding bid db :
  unique_keys analysis_key (BeatmapAnalysis db) ->
  unique_keys analysis_key
    (BeatmapAnalysis (fst (resolve_and_record c binding bid db))).
Proof.
  intros Huniq. unfold resolve_and_record.
  rewrite get_oracle_analysis_results_eq.
  destruct (fetch_and_store_beatmap_info (official_info c));
    [|exact Huniq].
  destruct (select_existing_analysis (check_fault c) bid db)
    as [existing|]; [|exact Huniq].
  rewrite analysis_record_recommendation.
  assert (Hauto : forall raw t,
            unique_keys analysis_key
              (BeatmapAnalysis (fst (resolve_auto c bid raw t db)))).
  { intros raw t. rewrite analysis_resolve_auto.
    apply unique_analysis_store. exact Huniq. }
  assert (Hmanual : forall raw t,
            unique_keys analysis_key
              (BeatmapAnalysis (fst (resolve_manual c bid raw t db)))).
  { intros raw t. rewrite analysis_resolve_manual.
    destruct raw; [apply unique_analysis_probabilities_only|];
      exact Huniq. }
  destruct existing as [row|];
    [destruct (negb (is_auto_typed row))|]; auto.
Qed.

Lemma unique_analysis_handle c db :
  unique_keys analysis_key (BeatmapAnalysis db) ->
  unique_keys analysis_key
    (BeatmapAnalysis (fst (handle_recommend_command c db))).
Proof.
  intros Huniq. unfold handle_recommend_command.
  destruct (binding_info c) as [binding|]; [|exact Huniq].
  destruct (truthy_int (bid_from_arg c)) as [bid|];
    [apply unique_analysis_resolve_and_record; exact Huniq|].
  destruct (truthy_int (recent_beatmap_id c)) as [bid|];
    [apply unique_analysis_resolve_and_record|]; exact Huniq.
Qed.

Lemma unique_analysis_update f now bid new_type admin_id db :
  unique_keys analysis_key (BeatmapAnalysis db) ->
  unique_keys analysis_key
    (BeatmapAnalysis
       (fst (update_beatmap_classification f now bid new_type admin_id db))).
Proof.
  intros Huniq. rewrite update_beatmap_classification_eq.
  destruct (select_one analysis_key bid (BeatmapAnalysis db));
    [|exact Huniq].
  destruct (survives f 4); [|exact Huniq].
  unfold classified. simpl.
  apply unique_keys_update_where; [reflexivity | exact Huniq].
Qed.

(** X5. When no two analysis rows share a beatmap id, none do after any
    sequence of recommendation commands, nor after a classification
    command of the administrator: a beatmap has at most one analysis
    row. *)
Theorem X5_one_analysis_row_per_beatmap (db : DB) :
  unique_keys analysis_key (BeatmapAnalysis db) ->
  (forall calls,
     unique_keys analysis_key
       (BeatmapAnalysis (run_recommendations calls db)) /\
     forall bid,
       (List.length
          (rows_of analysis_key bid
             (BeatmapAnalysis (run_recommendations calls db))) <= 1)%nat) /\
  (forall info_fault update_fault now bid raw_new_type admin_id,
     unique_keys analysis_key
       (BeatmapAnalysis
          (fst (handle_pending_command info_fault update_fault now bid
                  raw_new_type admin_id db)))).
Proof.
  intros Huniq. split.
  - intros calls.
    assert (Hrun : unique_keys analysis_key
                     (BeatmapAnalysis (run_recommendations calls db))).
    { revert db Huniq. induction calls as [|c rest IH]; intros db Huniq;
        [exact Huniq|].
      unfold run_recommendations. cbn [fold_left].
      apply IH. apply unique_analysis_handle. exact Huniq. }
    split; [exact Hrun|]. intros bid.
    rewrite rows_of_unique by exact Hrun.
    destruct (select_one analysis_key bid _); simpl; lia.
  - intros info_fault update_fault now bid raw_new_type admin_id.
    unfold handle_pending_command.
    destruct (truthy_str (Dict.get (lower raw_new_type) TYPE_ALIASES))
      as [new_type|]; [|exact Huniq].
    destruct (negb (in_VALID_TYPES new_type)); [exact Huniq|].
    destruct (get_beatmap_analysis_info info_fault bid db); [|exact Huniq].
    pose proof (unique_analysis_update update_fault now bid new_type
                  admin_id db Huniq) as Hupd.
    destruct (update_beatmap_classification update_fault now bid new_type
                admin_id db) as [db' [|]]; exact Hupd.
Qed.

(** The witness of X5: the store with the one row of beatmap 42. *)
Lemma X5_one_analysis_row_witness :
  unique_keys analysis_key
    (BeatmapAnalysis (run_recommendations sample_calls manual_db)).
Proof.
  apply (X5_one_analysis_row_per_beatmap manual_db).
  repeat constructor. intros [].
Defined.


(** ** What the two branches settle on *)

Lemma resolve_auto_types c bid raw t db :
  final_determined_b_type_for_db_of (snd (resolve_auto c bid raw t db))
  = match truthy_str (user_specified_type c) with
    | Some user_type => user_type
    | None => t
    end /\
  actual_recommend_type_of (snd (resolve_auto c bid raw t db))
  = match truthy_str (user_specified_type c) with
    | Some user_type => user_type
    | None => t
    end.
Proof.
  unfold resolve_auto. split_conditions; split; reflexivity.
Qed.

Lemma resolve_manual_types c bid raw db_type db :
  final_determined_b_type_for_db_of (snd (resolve_manual c bid raw db_type db))
  = db_type /\
  actual_recommend_type_of (snd (resolve_manual c bid raw db_type db))
  = match truthy_str (user_specified_type c) with
    | Some user_type => user_type
    | None => db_type
    end /\
  List.length
    (additional_messages_of (snd (resolve_manual c bid raw db_type db)))
  = match truthy_str (user_specified_type c) with
    | Some user_type => if String.eqb user_type db_type then 0%nat else 1%nat
    | None => 0%nat
    end.
Proof.
  unfold resolve_manual.
  destruct (truthy_str (user_specified_type c)) as [user_type|];
    [destruct (String.eqb user_type db_type)|];
    repeat split; reflexivity.
Qed.

Lemma sees_case_A_of_store c bid db :
  select_existing_analysis (check_fault c) bid db <> None ->
  automatic_or_absent bid db ->
  sees_case_A c bid db.
Proof.
  intros Hcheck Hstore. unfold sees_case_A. unfold automatic_or_absent in Hstore.
  rewrite select_existing_analysis_eq in *. unfold analysis_of in Hstore.
  destruct (check_fault c) as [| |[|n]].
  - eexists. split; [reflexivity | exact Hstore].
  - exists None. split; [reflexivity | exact I].
  - congruence.
  - eexists. split; [reflexivity | exact Hstore].
Qed.

(** X6. In case A, on a beatmap whose row is absent or automatic, the
    type the reply reports is the type the store then holds: the asserted
    type if there is one, the model's otherwise, marked as automatic. *)
Theorem X6_case_A_reply_matches_store (c : Call) (binding : Binding)
    (bid : Z) (db : DB) :
  metadata_available c ->
  select_existing_analysis (check_fault c) bid db <> None ->
  automatic_or_absent bid db ->
  survives (analysis_fault c) 2 = true ->
  survives (recommendation_fault c) 2 = true ->
  let result := resolve_and_record c binding bid db in
  (exists messages id,
     snd result = Recorded (case_A_type c) (case_A_type c) messages id) /\
  (exists row,
     analysis_of bid (fst result) = Some row /\
     determined_b_type row = case_A_type c /\
     is_auto_typed row = true).
Proof.
  intros Hmeta Hcheck Hstore Hanalysis Hrec. cbv zeta.
  pose proof (sees_case_A_of_store c bid db Hcheck Hstore) as HA.
  rewrite (resolve_and_record_case_A c binding bid db Hmeta HA).
  pose proof (resolve_auto_types c bid (oracle_classification c)
                (oracle_type (oracle_classification c)) db)
    as [Hfinal Hactual].
  fold (case_A_type c) in Hfinal, Hactual.
  split.
  - destruct (record_recommendation_appends c binding bid
                (resolve_auto c bid (oracle_classification c)
                  (oracle_type (oracle_classification c)) db) Hrec)
      as (row & _ & _ & _ & Hout).
    rewrite Hout, Hfinal, Hactual. eauto.
  - unfold analysis_of at 1.
    rewrite analysis_record_recommendation, analysis_resolve_auto.
    rewrite Hfinal, store_beatmap_analysis_eq, Hanalysis.
    fold (analysis_of bid
            (fst (sql_store_beatmap_analysis (now c) bid
                    (oracle_classification c) (case_A_type c) true db))).
    unfold automatic_or_absent in Hstore.
    destruct (analysis_of bid db) as [old|] eqn:Hold.
    + destruct (store_analysis_old (now c) bid (oracle_classification c)
                  (case_A_type c) true db bid old Hold)
        as (row' & Hrow' & _ & _ & _ & _ & _ & Hnew).
      destruct (Hnew eq_refl) as (_ & _ & _ & _ & Hauto).
      exists row'. split; [exact Hrow' | exact (Hauto Hstore)].
    + destruct (store_analysis_new (now c) bid (oracle_classification c)
                  (case_A_type c) true db Hold)
        as (row' & Hrow' & Htype & Hflag & _).
      exists row'. tauto.
Qed.

(** The witness of X6: jump asserted for a beatmap without a row. *)
Lemma X6_case_A_witness :
  exists row,
    analysis_of 42
      (fst (resolve_and_record (sample_call (Some "jump") None)
              sample_binding 42 empty_db)) = Some row /\
    determined_b_type row = "jump" /\
    is_auto_typed row = true.
Proof.
  apply (X6_case_A_reply_matches_store (sample_call (Some "jump") None)
           sample_binding 42 empty_db).
  - discriminate.
  - discriminate.
  - exact I.
  - reflexivity.
  - reflexivity.
Defined.

(** X7. When the existence check gets no connection, the command takes
    case A even for a beatmap an administrator has classified: the reply
    reports the asserted type as the catalog's, while the store keeps the
    administrator's type; and if the classification service is down as
    well, the write erases the stored probabilities and the time of the
    last run. *)
Theorem X7_unread_manual_row (c : Call) (binding : Binding) (bid : Z)
    (db : DB) (t user_type : string) :
  metadata_available c ->
  check_fault c = NoConnection ->
  manually_typed bid t db ->
  truthy_str (user_specified_type c) = Some user_type ->
  survives (recommendation_fault c) 2 = true ->
  let result := resolve_and_record c binding bid db in
  (exists messages id,
     snd result = Recorded user_type user_type messages id) /\
  manually_typed bid t (fst result) /\
  (oracle_classification c = None ->
   survives (analysis_fault c) 2 = true ->
   exists row,
     analysis_of bid (fst result) = Some row /\
     stream_prob row = None /\ jump_prob row = None /\
     alt_prob row = None /\ tech_prob row = None /\
     oracle_last_run_at row = None).
Proof.
  intros Hmeta Hcheck Hmanual Huser Hrec. cbv zeta.
  assert (HA : sees_case_A c bid db).
  { exists None. rewrite select_existing_analysis_eq, Hcheck.
    split; [reflexivity | exact I]. }
  split; [|split].
  - rewrite (resolve_and_record_case_A c binding bid db Hmeta HA).
    pose proof (resolve_auto_types c bid (oracle_classification c)
                  (oracle_type (oracle_classification c)) db)
      as [Hfinal Hactual].
    rewrite Huser in Hfinal, Hactual.
    destruct (record_recommendation_appends c binding bid
                (resolve_auto c bid (oracle_classification c)
                  (oracle_type (oracle_classification c)) db) Hrec)
      as (row & _ & _ & _ & Hout).
    rewrite Hout, Hfinal, Hactual. eauto.
  - apply keeps_manual_resolve_and_record. exact Hmanual.
  - intros Horacle Hanalysis.
    rewrite (resolve_and_record_case_A c binding bid db Hmeta HA).
    unfold analysis_of at 1.
    rewrite analysis_record_recommendation, analysis_resolve_auto.
    rewrite store_beatmap_analysis_eq, Hanalysis, Horacle.
    destruct Hmanual as (old & Hold & _).
    match goal with
    | |- context [sql_store_beatmap_analysis ?n ?b None ?ty ?a ?d] =>
        unfold analysis_of in Hold;
        pose proof Hold as Hold';
        unfold sql_store_beatmap_analysis; cbn [fst BeatmapAnalysis]
    end.
    rewrite select_one_upsert by reflexivity. rewrite Hold.
    unfold analysis_key at 1 2. cbn [a_bid].
    apply select_one_in in Hold'. destruct Hold' as [_ Hkey].
    unfold analysis_key in Hkey. rewrite Hkey, Z.eqb_refl.
    eexists. split; [reflexivity|]. repeat split.
Qed.

(** The witness of X7: beatmap 42, classified tech by an administrator,
    jump asserted, no connection for the check, service down. *)
Lemma X7_unread_manual_row_witness :
  manually_typed 42 "tech"
    (fst (resolve_and_record unread_call sample_binding 42 manual_db)).
Proof.
  apply (X7_unread_manual_row unread_call sample_binding 42 manual_db
           "tech" "jump").
  - discriminate.
  - reflexivity.
  - exists manual_row. repeat split.
  - reflexivity.
  - reflexivity.
Defined.

(** X8. In case B the reply reports the administrator's type as the
    catalog's, the recommendation records the asserted type (the
    administrator's when none is asserted), and exactly one message is
    added when an asserted type differs from the administrator's, none
    otherwise. *)
Theorem X8_case_B_reply_and_record (c : Call) (binding : Binding)
    (bid : Z) (db : DB) (row : AnalysisRow) :
  metadata_available c ->
  sees_case_B c bid db row ->
  survives (recommendation_fault c) 2 = true ->
  let result := resolve_and_record c binding bid db in
  exists messages recommendation,
    snd result
    = Recorded (determined_b_type row) (case_B_type c row) messages
        (r_id recommendation) /\
    Recommendations (fst result) = Recommendations db ++ [recommendation] /\
    actual_recommend_type recommendation = case_B_type c row /\
    List.length messages
    = match truthy_str (user_specified_type c) with
      | Some user_type =>
          if String.eqb user_type (determined_b_type row) then 0%nat
          else 1%nat
      | None => 0%nat
      end.
Proof.
  intros Hmeta HB Hrec. cbv zeta.
  rewrite (resolve_and_record_case_B c binding bid db row Hmeta HB).
  pose proof (resolve_manual_types c bid (oracle_classification c)
                (determined_b_type row) db) as (Hfinal & Hactual & Hlen).
  fold (case_B_type c row) in Hactual.
  destruct (record_recommendation_appends c binding bid
                (resolve_manual c bid (oracle_classification c)
                  (determined_b_type row) db) Hrec)
    as (recommendation & Happ & _ & Hact & Hout).
  rewrite recommendations_resolve_manual in Happ.
  rewrite Hout, Hfinal, Hactual.
  eexists _, recommendation. split; [reflexivity|].
  split; [exact Happ|]. split; [congruence | exact Hlen].
Qed.

(** The witness of X8: jump asserted for beatmap 42, classified tech. *)
Lemma X8_case_B_witness :
  exists messages recommendation,
    snd (resolve_and_record (sample_call (Some "jump") None)
           sample_binding 42 manual_db)
    = Recorded "tech" "jump" messages (r_id recommendation) /\
    Recommendations
      (fst (resolve_and_record (sample_call (Some "jump") None)
              sample_binding 42 manual_db))
    = Recommendations manual_db ++ [recommendation] /\
    actual_recommend_type recommendation = "jump" /\
    List.length messages = 1%nat.
Proof.
  apply (X8_case_B_reply_and_record (sample_call (Some "jump") None)
           sample_binding 42 manual_db manual_row).
  - discriminate.
  - split; reflexivity.
  - reflexivity.
Defined.


(** ** The type the service stands for *)

Lemma type_above_half_key (d : Dict.t float) :
  type_above_half d = "others" \/ In (type_above_half d) (Dict.keys d).
Proof.
  induction d as [|[t p] rest IH]; simpl; [left; reflexivity|].
  destruct (0.5 <? p)%float; [right; left; reflexivity|].
  destruct IH as [IH | IH]; [left; exact IH | right; right; exact IH].
Qed.

Lemma oracle_type_canonical (answer : option RawProbs) :
  canonical (oracle_type answer).
Proof.
  assert (Hothers : canonical "others") by (unfold canonical; tauto).
  destruct answer as [raw|]; [|exact Hothers].
  unfold oracle_type, model_type.
  destruct (Dict.is_empty (normalize_probs raw)); [exact Hothers|].
  destruct (type_above_half_key (normalize_probs raw)) as [-> | Hin];
    [exact Hothers|].
  revert Hin. apply normalize_fold_keys. intros t [].
Qed.

Lemma canonical_not_empty (t : string) :
  canonical t -> String.eqb t EmptyString = false.
Proof.
  intros [-> | [-> | [-> | [-> | ->]]]]; reflexivity.
Qed.

(** ** When case A asks for a review *)

(** X9. In case A no review is requested when the classification service
    answers with a dictionary that is not empty and either the asserted
    type is the model's type, or no type is asserted and the model's type
    is not others: the review queue is left as it was. *)
Theorem X9_case_A_no_review (c : Call) (binding : Binding) (bid : Z)
    (db : DB) (raw : RawProbs) :
  metadata_available c ->
  sees_case_A c bid db ->
  oracle_classification c = Some raw ->
  raw <> [] ->
  truthy_str (user_specified_type c) = Some (oracle_type (Some raw)) \/
  (truthy_str (user_specified_type c) = None /\
   oracle_type (Some raw) <> "others") ->
  PendingBeatmapReviews (fst (resolve_and_record c binding bid db))
  = PendingBeatmapReviews db.
Proof.
  intros Hmeta HA Horacle Hraw Hagree.
  rewrite (resolve_and_record_case_A c binding bid db Hmeta HA).
  rewrite pending_record_recommendation, Horacle.
  assert (Hprobs : no_probabilities (Some raw) = false).
  { destruct raw; [congruence | reflexivity]. }
  unfold resolve_auto.
  destruct Hagree as [Huser | [Huser Hothers]]; rewrite Huser, Hprobs.
  - rewrite String.eqb_refl, andb_false_r. cbn [negb fst].
    apply pending_store_analysis.
  - apply String.eqb_neq in Hothers. rewrite Hothers. cbn [fst].
    apply pending_store_analysis.
Qed.

(** The witness of X9: no type asserted, the model sure of stream. *)
Lemma X9_case_A_no_review_witness :
  PendingBeatmapReviews
    (fst (resolve_and_record
            (sample_call None (Some [("stream", 0.9%float)]))
            sample_binding 42 empty_db))
  = PendingBeatmapReviews empty_db.
Proof.
  apply (X9_case_A_no_review
           (sample_call None (Some [("stream", 0.9%float)]))
           sample_binding 42 empty_db [("stream", 0.9%float)]).
  - discriminate.
  - exists None. split; reflexivity.
  - reflexivity.
  - discriminate.
  - right. split; [reflexivity | discriminate].
Defined.

(** X10. In case A an asserted type that differs from the type the
    service stands for (others when the service failed) is queued for
    review with a reason naming both types, and the reply carries two
    messages. *)
Theorem X10_case_A_mismatch_queued (c : Call) (binding : Binding)
    (bid : Z) (db : DB) (user_type : string) :
  metadata_available c ->
  sees_case_A c bid db ->
  truthy_str (user_specified_type c) = Some user_type ->
  user_type <> oracle_type (oracle_classification c) ->
  survives (pending_fault c) 2 = true ->
  survives (recommendation_fault c) 2 = true ->
  let result := resolve_and_record c binding bid db in
  select_one pending_key bid (PendingBeatmapReviews (fst result))
  = Some (pending_row bid
            (fstring ["User specified '"; user_type; "', oracle: '";
                      oracle_type (oracle_classification c); "'"])
            None (now c)) /\
  exists messages id,
    snd result = Recorded user_type user_type messages id /\
    List.length messages = 2%nat.
Proof.
  intros Hmeta HA Huser Hdiff Hpending Hrec. cbv zeta.
  rewrite (resolve_and_record_case_A c binding bid db Hmeta HA).
  assert (Hresolved :
            exists said differ,
              resolve_auto c bid (oracle_classification c)
                (oracle_type (oracle_classification c)) db =
              (store_beatmap_analysis (analysis_fault c) (now c) bid
                 (oracle_classification c) user_type true
                 (add_to_pending_review (pending_fault c) (now c) bid
                    (fstring ["User specified '"; user_type; "', oracle: '";
                              oracle_type (oracle_classification c); "'"])
                    None db),
               {| actual_recommend_type_of := user_type;
                  final_determined_b_type_for_db_of := user_type;
                  additional_messages_of := [said; differ] |})).
  { unfold resolve_auto. rewrite Huser.
    rewrite (canonical_not_empty _
               (oracle_type_canonical (oracle_classification c))).
    apply String.eqb_neq in Hdiff. rewrite Hdiff. cbn [negb andb app].
    eexists _, _. reflexivity. }
  destruct Hresolved as (said & differ & ->).
  rewrite record_recommendation_eq, Hrec. cbn [fst snd].
  split.
  - unfold sql_store_recommendation. cbn [fst PendingBeatmapReviews].
    rewrite pending_store_analysis.
    apply pending_row_after_add. exact Hpending.
  - eexists _, _. split; reflexivity.
Qed.

(** The witness of X10: jump asserted, the model sure of stream. *)
Lemma X10_case_A_mismatch_witness :
  select_one pending_key 42
    (PendingBeatmapReviews
       (fst (resolve_and_record
               (sample_call (Some "jump") (Some [("stream", 0.9%float)]))
               sample_binding 42 empty_db)))
  = Some (pending_row 42 "User specified 'jump', oracle: 'stream'" None 100).
Proof.
  apply (X10_case_A_mismatch_queued
           (sample_call (Some "jump") (Some [("stream", 0.9%float)]))
           sample_binding 42 empty_db "jump").
  - discriminate.
  - exists None. split; reflexivity.
  - reflexivity.
  - discriminate.
  - reflexivity.
  - reflexivity.
Defined.

(** ** After the administrator has spoken *)

Lemma manual_row_not_requeued c db bid t :
  manually_typed bid t db ->
  check_fault c <> NoConnection ->
  pending_of bid (fst (handle_recommend_command c db)) = pending_of bid db.
Proof.
  intros (row & Hrow & Hauto & _) Hcheck.
  assert (Hstep : forall binding,
            pending_of bid (fst (resolve_and_record c binding bid db))
            = pending_of bid db).
  { intros binding. apply pending_of_ext. unfold resolve_and_record.
    rewrite get_oracle_analysis_results_eq.
    destruct (fetch_and_store_beatmap_info (official_info c));
      [|reflexivity].
    rewrite select_existing_analysis_eq.
    unfold analysis_of in Hrow.
    destruct (check_fault c) as [| |[|n]]; try congruence; try reflexivity;
      rewrite Hrow, Hauto; cbn [negb];
      rewrite pending_record_recommendation;
      apply pending_resolve_manual. }
  unfold handle_recommend_command.
  destruct (binding_info c) as [binding|]; [|reflexivity].
  assert (Hany : forall b,
            pending_of bid (fst (resolve_and_record c binding b db))
            = pending_of bid db).
  { intros b. destruct (Z.eq_dec bid b) as [<- | Hneq]; [apply Hstep|].
    apply resolve_and_record_other. exact Hneq. }
  destruct (truthy_int (bid_from_arg c)); [apply Hany|].
  destruct (truthy_int (recent_beatmap_id c)); [apply Hany | reflexivity].
Qed.

Lemma override_sets_type f now bid new_type admin_id db row :
  analysis_of bid db = Some row ->
  survives f 4 = true ->
  manually_typed bid new_type
    (fst (update_beatmap_classification f now bid new_type admin_id db)).
Proof.
  intros Hrow Hf. rewrite update_beatmap_classification_eq.
  fold (analysis_of bid db). rewrite Hrow, Hf. cbn [fst].
  destruct (classified_row now bid new_type admin_id db row Hrow)
    as (row' & Hrow' & Htype & Hauto & _).
  exists row'. tauto.
Qed.

(** X11. Once an administrator has classified a beatmap, no sequence of
    recommendation commands whose existence checks get a connection
    changes its entries in the review queue; in particular, after a
    successful override the queue stays empty for that beatmap. *)
Theorem X11_manual_beatmap_not_requeued (bid : Z) (t : string) (db : DB)
    (calls : list Call) :
  manually_typed bid t db ->
  Forall (fun c => check_fault c <> NoConnection) calls ->
  pending_of bid (run_recommendations calls db) = pending_of bid db /\
  (forall f now new_type admin_id,
     survives f 4 = true ->
     pending_of bid
       (run_recommendations calls
          (fst (update_beatmap_classification f now bid new_type admin_id
                  db)))
     = []).
Proof.
  intros Hmanual Hchecks.
  assert (Hrun : forall t' db',
            manually_typed bid t' db' ->
            pending_of bid (run_recommendations calls db')
            = pending_of bid db').
  { induction Hchecks as [|c rest Hc _ IH]; intros t' db' Hm;
      [reflexivity|].
    unfold run_recommendations. cbn [fold_left].
    fold (run_recommendations rest (fst (handle_recommend_command c db'))).
    rewrite (IH t' _ (keeps_manual_handle c db' bid t' Hm)).
    apply (manual_row_not_requeued c db' bid t' Hm Hc). }
  split; [exact (Hrun t db Hmanual)|].
  intros f now new_type admin_id Hf.
  destruct Hmanual as (row & Hrow & _).
  rewrite (Hrun new_type _
             (override_sets_type f now bid new_type admin_id db row Hrow Hf)).
  rewrite update_beatmap_classification_eq.
  unfold analysis_of in Hrow.
  rewrite Hrow, Hf. apply classified_pending.
Qed.


(** The witness of X11: beatmap 42, classified by an administrator, and
    the two sample commands. *)
Lemma X11_manual_beatmap_witness :
  pending_of 42 (run_recommendations sample_calls manual_db)
  = pending_of 42 manual_db.
Proof.
  refine (proj1 (X11_manual_beatmap_not_requeued 42 "tech" manual_db
                   sample_calls _ _)).
  - exists manual_row. repeat split.
  - repeat constructor; discriminate.
Defined.


(** ** The classification command of the administrator *)

(** X12. The command [/pending bid type] changes the store only when it
    reports success.  It reports an invalid type exactly when the given
    word, in lower case, is not in the alias table; and when it reports
    success the type it names is the canonical type of that alias, the
    beatmap is manually typed with it, and the review queue holds nothing
    for the beatmap. *)
Theorem X12_pending_command_writes_on_success (info_fault update_fault : Fault)
    (now bid : Z) (raw_new_type admin_id : string) (db : DB) :
  let result :=
    handle_pending_command info_fault update_fault now bid raw_new_type
      admin_id db in
  ((forall t, snd result <> Processed t) -> fst result = db) /\
  (snd result = InvalidType <->
   Dict.get (lower raw_new_type) TYPE_ALIASES = None) /\
  (forall t,
     snd result = Processed t ->
     Dict.get (lower raw_new_type) TYPE_ALIASES = Some t /\
     canonical t /\
     manually_typed bid t (fst result) /\
     pending_of bid (fst result) = []).
Proof.
  cbv zeta. unfold handle_pending_command.
  destruct (Dict.get (lower raw_new_type) TYPE_ALIASES) as [new_type|]
    eqn:Halias.
  - pose proof (alias_canonical _ _ Halias) as Hcanon.
    destruct (canonical_truthy new_type Hcanon) as [-> ->]. cbn [negb].
    rewrite get_beatmap_analysis_info_eq.
    destruct (survives info_fault 1);
      [|cbn [fst snd]; split; [reflexivity|];
        split; [split; discriminate | discriminate]].
    fold (analysis_of bid db).
    destruct (analysis_of bid db) as [row|] eqn:Hrow;
      [|cbn [fst snd]; split; [reflexivity|];
        split; [split; discriminate | discriminate]].
    rewrite update_beatmap_classification_eq.
    fold (analysis_of bid db). rewrite Hrow.
    destruct (survives update_fault 4) eqn:Hf; cbn [fst snd].
    + split; [intros Hno; exfalso; apply (Hno new_type); reflexivity|].
      split; [split; discriminate|].
      intros t [= <-]. split; [reflexivity|]. split; [exact Hcanon|].
      split; [|apply classified_pending].
      destruct (classified_row now bid new_type admin_id db row Hrow)
        as (row' & Hrow' & Htype & Hauto & _).
      exists row'. tauto.
    + split; [reflexivity|]. split; [split; discriminate | discriminate].
  - cbn [truthy_str fst snd]. split; [reflexivity|].
    split; [split; reflexivity | discriminate].
Qed.

(** ** Canonical types in the store *)

Lemma case_A_final_type_canonical c bid raw db :
  canonical_user_type c ->
  canonical
    (final_determined_b_type_for_db_of
       (snd (resolve_auto c bid raw (oracle_type raw) db))).
Proof.
  intros Huser.
  destruct (resolve_auto_types c bid raw (oracle_type raw) db) as [-> _].
  unfold canonical_user_type in Huser.
  destruct (user_specified_type c) as [t|]; cbn [truthy_str].
  - destruct t; [apply oracle_type_canonical | exact Huser].
  - apply oracle_type_canonical.
Qed.

Lemma all_canonical_store f now bid probs t auto db :
  canonical t ->
  all_canonical db ->
  all_canonical (store_beatmap_analysis f now bid probs t auto db).
Proof.
  intros Ht Hall. rewrite store_beatmap_analysis_eq.
  destruct (survives f 2); [|exact Hall].
  unfold all_canonical in *. simpl.
  unfold insert_on_duplicate_key_update.
  match goal with |- context [if ?b then _ else _] => destruct b end.
  - unfold update_where. apply Forall_map.
    apply (Forall_impl _ (P := fun row => canonical (determined_b_type row)));
      [|exact Hall].
    intros row Hrow. destruct (andb _ _); [|exact Hrow].
    simpl. destruct (is_auto_typed row); assumption.
  - apply Forall_app. split; [exact Hall|].
    constructor; [exact Ht | constructor].
Qed.

Lemma all_canonical_probabilities_only f now bid probs db :
  all_canonical db ->
  all_canonical (store_beatmap_analysis_probabilities_only f now bid probs db).
Proof.
  intros Hall. rewrite store_probabilities_only_eq.
  destruct (survives f 2); [|exact Hall].
  unfold all_canonical in *. simpl. unfold update_where. apply Forall_map.
  apply (Forall_impl _ (P := fun row => canonical (determined_b_type row)));
    [|exact Hall].
  intros row Hrow. destruct (andb _ _); exact Hrow.
Qed.

Lemma all_canonical_ext db db' :
  BeatmapAnalysis db' = BeatmapAnalysis db ->
  all_canonical db -> all_canonical db'.
Proof. unfold all_canonical. intros ->. exact (fun H => H). Qed.

Lemma all_canonical_handle c db :
  canonical_user_type c ->
  all_canonical db ->
  all_canonical (fst (handle_recommend_command c db)).
Proof.
  intros Huser Hall.
  assert (Hstep : forall binding bid,
            all_canonical (fst (resolve_and_record c binding bid db))).
  { intros binding bid. unfold resolve_and_record.
    rewrite get_oracle_analysis_results_eq.
    destruct (fetch_and_store_beatmap_info (official_info c));
      [|exact Hall].
    destruct (select_existing_analysis (check_fault c) bid db)
      as [existing|]; [|exact Hall].
    apply (all_canonical_ext _ _ (analysis_record_recommendation _ _ _ _)).
    assert (Hauto :
              all_canonical
                (fst (resolve_auto c bid (oracle_classification c)
                        (oracle_type (oracle_classification c)) db))).
    { apply (all_canonical_ext _ _ (analysis_resolve_auto _ _ _ _ _)).
      apply all_canonical_store; [|exact Hall].
      apply case_A_final_type_canonical. exact Huser. }
    assert (Hmanual : forall t,
              all_canonical
                (fst (resolve_manual c bid (oracle_classification c) t db))).
    { intros t. unfold all_canonical. rewrite analysis_resolve_manual.
      destruct (oracle_classification c); [|exact Hall].
      apply all_canonical_probabilities_only. exact Hall. }
    destruct existing as [row|];
      [destruct (negb (is_auto_typed row))|]; auto. }
  unfold handle_recommend_command.
  destruct (binding_info c) as [binding|]; [|exact Hall].
  destruct (truthy_int (bid_from_arg c)); [apply Hstep|].
  destruct (truthy_int (recent_beatmap_id c)); [apply Hstep | exact Hall].
Qed.

(** X13. The type column only ever holds canonical types: the type the
    classification service stands for is canonical for every answer, and
    when every stored type is canonical it stays so after any sequence of
    recommendation commands whose asserted types are canonical, and after
    any classification command of the administrator, whatever word it is
    given. *)
Theorem X13_stored_types_stay_canonical (db : DB) :
  all_canonical db ->
  (forall answer,
     exists t,
       snd (get_oracle_analysis_results answer) = Some t /\ canonical t) /\
  (forall calls,
     Forall canonical_user_type calls ->
     all_canonical (run_recommendations calls db)) /\
  (forall info_fault update_fault now bid raw_new_type admin_id,
     all_canonical
       (fst (handle_pending_command info_fault update_fault now bid
               raw_new_type admin_id db))).
Proof.
  intros Hall. split; [|split].
  - intros answer. rewrite get_oracle_analysis_results_eq.
    eexists. split; [reflexivity | apply oracle_type_canonical].
  - intros calls Hcalls. revert db Hall.
    induction Hcalls as [|c rest Hc _ IH]; intros db Hall; [exact Hall|].
    unfold run_recommendations. cbn [fold_left].
    apply IH. apply all_canonical_handle; assumption.
  - intros info_fault update_fault now bid raw_new_type admin_id.
    unfold handle_pending_command.
    destruct (Dict.get (lower raw_new_type) TYPE_ALIASES) as [new_type|]
      eqn:Halias; [|exact Hall].
    pose proof (alias_canonical _ _ Halias) as Hcanon.
    destruct (canonical_truthy new_type Hcanon) as [-> ->]. cbn [negb].
    destruct (get_beatmap_analysis_info info_fault bid db); [|exact Hall].
    rewrite update_beatmap_classification_eq.
    destruct (select_one analysis_key bid (BeatmapAnalysis db));
      [|exact Hall].
    destruct (survives update_fault 4); [|exact Hall].
    cbn [fst]. unfold all_canonical, classified in *. simpl.
    unfold update_where. apply Forall_map.
    apply (Forall_impl _ (P := fun row => canonical (determined_b_type row)));
      [|exact Hall].
    intros row Hrow. destruct (andb _ _); [exact Hcanon | exact Hrow].
Qed.

(** The witness of X13: the store with the tech row of beatmap 42. *)
Lemma X13_stored_types_witness :
  all_canonical (run_recommendations sample_calls manual_db).
Proof.
  refine (proj1 (proj2 (X13_stored_types_stay_canonical manual_db _))
            sample_calls _).
  - constructor; [|constructor].
    unfold canonical. cbn [determined_b_type manual_row]. tauto.
  - constructor; [|constructor; [exact I | constructor]].
    unfold canonical_user_type, canonical. cbn. tauto.
Defined.


(** ** The closing line *)

Lemma recorded_actual_type c binding bid db final actual messages id :
  snd (resolve_and_record c binding bid db)
  = Recorded final actual messages id ->
  (forall user_type,
     truthy_str (user_specified_type c) = Some user_type ->
     actual = user_type) /\
  (truthy_str (user_specified_type c) = None -> actual = final).
Proof.
  unfold resolve_and_record. rewrite get_oracle_analysis_results_eq.
  destruct (fetch_and_store_beatmap_info (official_info c));
    [|discriminate].
  destruct (select_existing_analysis (check_fault c) bid db)
    as [existing|]; [|discriminate].
  assert (Hgoal : forall resolved,
            (actual_recommend_type_of (snd resolved)
             = match truthy_str (user_specified_type c) with
               | Some user_type => user_type
               | None => final_determined_b_type_for_db_of (snd resolved)
               end) ->
            snd (record_recommendation c binding bid resolved)
            = Recorded final actual messages id ->
            (forall user_type,
               truthy_str (user_specified_type c) = Some user_type ->
               actual = user_type) /\
            (truthy_str (user_specified_type c) = None -> actual = final)).
  { intros [db' resolution] Hact. rewrite record_recommendation_eq.
    destruct (survives (recommendation_fault c) 2); [|discriminate].
    cbn [fst snd] in *. intros [= <- <- _ _].
    rewrite Hact. split.
    - intros user_type ->. reflexivity.
    - intros ->. reflexivity. }
  destruct existing as [row|];
    [destruct (negb (is_auto_typed row))|]; apply Hgoal.
  - destruct (resolve_manual_types c bid (oracle_classification c)
                (determined_b_type row) db) as (-> & -> & _).
    reflexivity.
  - destruct (resolve_auto_types c bid (oracle_classification c)
                (oracle_type (oracle_classification c)) db) as (-> & ->).
    destruct (truthy_str (user_specified_type c)); reflexivity.
  - destruct (resolve_auto_types c bid (oracle_classification c)
                (oracle_type (oracle_classification c)) db) as (-> & ->).
    destruct (truthy_str (user_specified_type c)); reflexivity.
Qed.

(** X14. Whenever a recorded command asserted a type, its reply ends with
    the line saying that the beatmap information was updated, in case B as
    well, where the catalog keeps the administrator's type.  Without an
    asserted type that line is used exactly when the reported type is not
    others and the service returned a dictionary that is not empty. *)
Theorem X14_closing_line (c : Call) (binding : Binding) (bid : Z) (db : DB)
    (final actual : string) (messages : list string) (id : Z) :
  snd (resolve_and_record c binding bid db)
  = Recorded final actual messages id ->
  (truthy_str (user_specified_type c) <> None ->
   closing_line c (Recorded final actual messages id)
   = Some "✔ 推荐已成功记录，谱面信息已更新！") /\
  (truthy_str (user_specified_type c) = None ->
   (closing_line c (Recorded final actual messages id)
    = Some "✔ 推荐已成功记录，谱面信息已更新！" <->
    final <> "others" /\ no_probabilities (oracle_classification c) = false)).
Proof.
  intros Hout.
  destruct (recorded_actual_type c binding bid db final actual messages id
              Hout) as [Huser Hnone].
  unfold closing_line, is_type_match_success.
  rewrite get_oracle_analysis_results_eq. cbn [fst].
  split.
  - destruct (truthy_str (user_specified_type c)) as [user_type|];
      [|congruence].
    intros _. rewrite (Huser user_type eq_refl), String.eqb_refl.
    reflexivity.
  - intros Hno. rewrite Hno. rewrite (Hnone Hno).
    destruct (String.eqb final "others") eqn:Hfinal;
      destruct (no_probabilities (oracle_classification c));
      cbn [negb andb].
    + split; [discriminate | intros [_ H]; discriminate H].
    + apply String.eqb_eq in Hfinal.
      split; [discriminate | intros [H _]; contradiction].
    + split; [discriminate | intros [_ H]; discriminate H].
    + apply String.eqb_neq in Hfinal.
      split; [intros _; split; [exact Hfinal | reflexivity] | reflexivity].
Qed.

(** The witness of X14: jump asserted for beatmap 42, which the
    administrator classified tech. *)
Lemma X14_closing_line_witness :
  closing_line (sample_call (Some "jump") None)
    (Recorded "tech" "jump"
       ["此谱面已被管理员定义为【TECH】类型！
记录了你的【JUMP】，但谱面库中分类不变"] 1)
  = Some "✔ 推荐已成功记录，谱面信息已更新！".
Proof.
  refine (proj1 (X14_closing_line (sample_call (Some "jump") None)
                   sample_binding 42 manual_db "tech" "jump" _ 1 _) _).
  - reflexivity.
  - discriminate.
Defined.


(** ** An empty answer *)

Ltac answer_fields :=
  cbn [with_answer qqid binding_info user_specified_type bid_from_arg
       description_from_arg recent_beatmap_id official_info
       oracle_classification now check_fault probabilities_only_fault
       pending_fault analysis_fault recommendation_fault] in *.

Lemma record_recommendation_same_reply c binding bid answer1 answer2
    resolved1 resolved2 :
  snd resolved1 = snd resolved2 ->
  PendingBeatmapReviews (fst resolved1) = PendingBeatmapReviews (fst resolved2) ->
  Recommendations (fst resolved1) = Recommendations (fst resolved2) ->
  let r1 := record_recommendation (with_answer c answer1) binding bid
              resolved1 in
  let r2 := record_recommendation (with_answer c answer2) binding bid
              resolved2 in
  snd r1 = snd r2 /\
  PendingBeatmapReviews (fst r1) = PendingBeatmapReviews (fst r2) /\
  Recommendations (fst r1) = Recommendations (fst r2).
Proof.
  destruct resolved1 as [db1 res1], resolved2 as [db2 res2].
  cbn [fst snd]. intros -> Hpending Hrecs. cbv zeta.
  rewrite !record_recommendation_eq. answer_fields.
  destruct (survives (recommendation_fault c) 2); cbn [fst snd];
    unfold sql_store_recommendation;
    cbn [fst PendingBeatmapReviews Recommendations];
    rewrite ?Hrecs; auto.
Qed.

Lemma resolve_auto_empty_like_failed c bid db :
  let failed := resolve_auto (with_answer c None) bid None "others" db in
  let empty :=
    resolve_auto (with_answer c (Some [])) bid (Some []) "others" db in
  snd failed = snd empty /\
  PendingBeatmapReviews (fst failed) = PendingBeatmapReviews (fst empty) /\
  Recommendations (fst failed) = Recommendations (fst empty).
Proof.
  cbv zeta. unfold resolve_auto. answer_fields.
  cbn [no_probabilities Dict.is_empty].
  split_conditions; cbn [fst snd];
    rewrite !pending_store_analysis, !recommendations_store_analysis;
    auto.
Qed.

Lemma resolve_manual_empty_like_failed c bid t db :
  let failed := resolve_manual (with_answer c None) bid None t db in
  let empty := resolve_manual (with_answer c (Some [])) bid (Some []) t db in
  snd failed = snd empty /\
  PendingBeatmapReviews (fst failed) = PendingBeatmapReviews (fst empty) /\
  Recommendations (fst failed) = Recommendations (fst empty).
Proof.
  cbv zeta.
  rewrite !pending_resolve_manual, !recommendations_resolve_manual.
  unfold resolve_manual. answer_fields.
  destruct (truthy_str (user_specified_type c)) as [user_type|];
    [destruct (negb (String.eqb user_type t))|]; auto.
Qed.

(** X15. A classification service that answers with an empty dictionary
    is treated like one that failed: the same command gives the same
    outcome, the same review queue and the same recommendation log.  The
    analysis table is where the two differ: in case B a failure writes
    nothing, while the empty answer sets the four stored probabilities to
    NULL and the time of the last run to now. *)
Theorem X15_empty_answer_like_failure (c : Call) (binding : Binding)
    (bid : Z) (db : DB) :
  let failed := resolve_and_record (with_answer c None) binding bid db in
  let empty := resolve_and_record (with_answer c (Some [])) binding bid db in
  snd failed = snd empty /\
  PendingBeatmapReviews (fst failed) = PendingBeatmapReviews (fst empty) /\
  Recommendations (fst failed) = Recommendations (fst empty) /\
  (forall row,
     metadata_available c ->
     sees_case_B c bid db row ->
     survives (probabilities_only_fault c) 2 = true ->
     BeatmapAnalysis (fst failed) = BeatmapAnalysis db /\
     exists row',
       analysis_of bid (fst empty) = Some row' /\
       stream_prob row' = None /\ jump_prob row' = None /\
       alt_prob row' = None /\ tech_prob row' = None /\
       oracle_last_run_at row' = Some (now c)).
Proof.
  cbv zeta.
  assert (Hsame :
            let failed :=
              resolve_and_record (with_answer c None) binding bid db in
            let empty :=
              resolve_and_record (with_answer c (Some [])) binding bid db in
            snd failed = snd empty /\
            PendingBeatmapReviews (fst failed)
            = PendingBeatmapReviews (fst empty) /\
            Recommendations (fst failed) = Recommendations (fst empty)).
  { cbv zeta. unfold resolve_and_record.
    rewrite !get_oracle_analysis_results_eq. answer_fields.
    change (oracle_type (Some [])) with "others".
    change (oracle_type None) with "others".
    destruct (fetch_and_store_beatmap_info (official_info c));
      [|auto].
    destruct (select_existing_analysis (check_fault c) bid db)
      as [existing|]; [|auto].
    destruct existing as [row|];
      [destruct (negb (is_auto_typed row))|];
      apply record_recommendation_same_reply;
      first [ apply resolve_auto_empty_like_failed
            | apply resolve_manual_empty_like_failed ]. }
  destruct Hsame as (Hout & Hpending & Hrecs).
  split; [exact Hout|]. split; [exact Hpending|]. split; [exact Hrecs|].
  intros row Hmeta HB Hf.
  assert (Hmeta' : forall a, metadata_available (with_answer c a))
    by (intros a; exact Hmeta).
  assert (HB' : forall a, sees_case_B (with_answer c a) bid db row)
    by (intros a; exact HB).
  pose proof (sees_case_B_row c bid db row HB) as Hrow.
  rewrite (resolve_and_record_case_B _ binding bid db row (Hmeta' None)
             (HB' None)).
  rewrite (resolve_and_record_case_B _ binding bid db row (Hmeta' (Some []))
             (HB' (Some []))).
  unfold analysis_of at 1.
  rewrite !analysis_record_recommendation, !analysis_resolve_manual.
  answer_fields. split; [reflexivity|].
  rewrite store_probabilities_only_eq, Hf.
  destruct (probabilities_only_old (now c) bid [] db bid row Hrow)
    as (row' & Hrow' & _ & _ & _ & _ & _ & _ & _ & Hnew).
  destruct (Hnew eq_refl (proj2 HB)) as (Hs & Hj & Ha & Ht & Hrun).
  exists row'. unfold analysis_of in Hrow'. tauto.
Qed.


(** ** The parser of the recommendation command *)

Section ParseFacts.

Variable split : string -> list string.
Variable isdigit : string -> bool.
Variable int_of : string -> option Z.

Lemma classify_parts_raised (items : list (nat * string)) :
  fold_left
    (fun st item =>
       match st with
       | Some s => classify_part isdigit int_of s item
       | None => None
       end)
    items None = None.
Proof.
  induction items as [|item rest IH]; [reflexivity | exact IH].
Qed.

Lemma classify_parts_cons (item : nat * string) (items : list (nat * string))
    (state : ParseState) :
  classify_parts isdigit int_of (item :: items) state =
  match classify_part isdigit int_of state item with
  | Some state' => classify_parts isdigit int_of items state'
  | None => None
  end.
Proof.
  unfold classify_parts. cbn [fold_left].
  destruct (classify_part isdigit int_of state item); [reflexivity|].
  apply classify_parts_raised.
Qed.

Lemma not_used_below (k : nat) (used : list nat) :
  Forall (fun i => (i < k)%nat) used -> existsb (Nat.eqb k) used = false.
Proof.
  induction 1 as [|i rest Hi _ IH]; [reflexivity|].
  simpl. rewrite IH, orb_false_r. apply Nat.eqb_neq. lia.
Qed.

Lemma not_used_above (k : nat) (used : list nat) :
  Forall (fun i => (k < i)%nat) used -> existsb (Nat.eqb k) used = false.
Proof.
  induction 1 as [|i rest Hi _ IH]; [reflexivity|].
  simpl. rewrite IH, orb_false_r. apply Nat.eqb_neq. lia.
Qed.

(** The two loops over indices do what the single pass does. *)
Lemma classify_parts_scan (parts : list string) :
  forall (k : nat) (state : ParseState),
    Forall (fun i => (i < k)%nat) (used_indices state) ->
    match classify_parts isdigit int_of
            (combine (seq k (List.length parts)) parts) state,
          scan_parts isdigit int_of (user_type_found state)
            (bid_found state) parts with
    | Some state', Some (u, b, d) =>
        user_type_found state' = u /\
        bid_found state' = b /\
        unused_parts (used_indices state')
          (combine (seq k (List.length parts)) parts) = d /\
        exists new,
          used_indices state' = new ++ used_indices state /\
          Forall (fun i => (k <= i)%nat) new
    | None, None => True
    | _, _ => False
    end.
Proof.
  induction parts as [|part rest IH]; intros k state Hused.
  - cbn. repeat split. exists []. split; [reflexivity | constructor].
  - cbn [List.length seq combine scan_parts].
    rewrite classify_parts_cons. unfold classify_part.
    assert (Hnext : forall state1 : ParseState,
              (used_indices state1 = used_indices state \/
               used_indices state1 = k :: used_indices state) ->
              Forall (fun i => (i < S k)%nat) (used_indices state1)).
    { intros state1 [-> | ->]; [|constructor; [lia|]];
        (eapply Forall_impl; [|exact Hused]); cbv beta; intros; lia. }
    assert (Hhead : forall (state' : ParseState) new (added : bool),
              Forall (fun i => (S k <= i)%nat) new ->
              used_indices state'
              = new ++ (if added then k :: used_indices state
                        else used_indices state) ->
              existsb (Nat.eqb k) (used_indices state') = added).
    { intros state' new added Hnew ->. rewrite existsb_app.
      rewrite (not_used_above k new)
        by (eapply Forall_impl; [|exact Hnew]; cbv beta; intros; lia).
      destruct added; simpl.
      - rewrite Nat.eqb_refl. reflexivity.
      - apply not_used_below. exact Hused. }
    destruct (andb (isdigit part)
                (match bid_found state with
                 | Some _ => false | None => true end)).
    + destruct (int_of part) as [n|]; [|exact I].
      match goal with
      | |- context [classify_parts _ _ _ ?s1] =>
          specialize (IH (S k) s1 (Hnext s1 (or_intror eq_refl)));
          cbn [user_type_found bid_found used_indices] in IH;
          destruct (classify_parts isdigit int_of
                      (combine (seq (S k) (List.length rest)) rest) s1)
            as [state'|]
      end;
        destruct (scan_parts isdigit int_of (user_type_found state)
                    (Some n) rest) as [[[u b] d]|]; try exact IH.
      destruct IH as (Hu & Hb & Hd & new & Hnew & Hge).
      split; [exact Hu|]. split; [exact Hb|]. split.
      * unfold unused_parts in *. cbn [filter fst].
        rewrite (Hhead state' new true Hge Hnew). cbn [negb]. exact Hd.
      * exists (new ++ [k]). rewrite <- app_assoc. split; [exact Hnew|].
        apply Forall_app. split; [|repeat constructor].
        eapply Forall_impl; [|exact Hge]. cbv beta. intros. lia.
    + destruct (user_type_found state) as [found|] eqn:Hfound.
      * specialize (IH (S k) state (Hnext state (or_introl eq_refl))).
        rewrite Hfound in IH.
        destruct (classify_parts isdigit int_of
                    (combine (seq (S k) (List.length rest)) rest) state)
          as [state'|];
          destruct (scan_parts isdigit int_of (Some found)
                      (bid_found state) rest) as [[[u b] d]|];
          try exact IH.
        destruct IH as (Hu & Hb & Hd & new & Hnew & Hge).
        destruct (Dict.get (lower part) TYPE_ALIASES);
          (split; [exact Hu|]; split; [exact Hb|]; split;
           [ unfold unused_parts in *; cbn [filter fst];
             rewrite (Hhead state' new false Hge Hnew); cbn [negb map snd];
             rewrite Hd; reflexivity
           | exists new; split; [exact Hnew|];
             eapply Forall_impl; [|exact Hge]; cbv beta; intros; lia ]).
      * destruct (Dict.get (lower part) TYPE_ALIASES) as [db_type|].
        -- match goal with
           | |- context [classify_parts _ _ _ ?s1] =>
               specialize (IH (S k) s1 (Hnext s1 (or_intror eq_refl)));
               cbn [user_type_found bid_found used_indices] in IH;
               destruct (classify_parts isdigit int_of
                           (combine (seq (S k) (List.length rest)) rest) s1)
                 as [state'|]
           end;
             destruct (scan_parts isdigit int_of (Some db_type)
                         (bid_found state) rest) as [[[u b] d]|];
             try exact IH.
           destruct IH as (Hu & Hb & Hd & new & Hnew & Hge).
           split; [exact Hu|]. split; [exact Hb|]. split.
           ++ unfold unused_parts in *. cbn [filter fst].
              rewrite (Hhead state' new true Hge Hnew). cbn [negb].
              exact Hd.
           ++ exists (new ++ [k]). rewrite <- app_assoc.
              split; [exact Hnew|].
              apply Forall_app. split; [|repeat constructor].
              eapply Forall_impl; [|exact Hge]. cbv beta. intros. lia.
        -- specialize (IH (S k) state (Hnext state (or_introl eq_refl))).
           rewrite Hfound in IH.
           destruct (classify_parts isdigit int_of
                       (combine (seq (S k) (List.length rest)) rest) state)
             as [state'|];
             destruct (scan_parts isdigit int_of None (bid_found state)
                         rest) as [[[u b] d]|];
             try exact IH.
           destruct IH as (Hu & Hb & Hd & new & Hnew & Hge).
           split; [exact Hu|]. split; [exact Hb|]. split.
           ++ unfold unused_parts in *. cbn [filter fst].
              rewrite (Hhead state' new false Hge Hnew).
              cbn [negb map snd]. rewrite Hd. reflexivity.
           ++ exists new. split; [exact Hnew|].
              eapply Forall_impl; [|exact Hge]. cbv beta. intros. lia.
Qed.

Lemma parse_parts_scan (parts : list string) :
  parse_parts isdigit int_of parts =
  match scan_parts isdigit int_of None None parts with
  | Some (u, b, d) => Some (u, b, describe d)
  | None => None
  end.
Proof.
  unfold parse_parts, enumerate.
  pose proof (classify_parts_scan parts 0
                {| user_type_found := None; bid_found := None;
                   used_indices := [] |} (Forall_nil _)) as H.
  cbn [user_type_found bid_found used_indices] in H.
  destruct (classify_parts isdigit int_of
              (combine (seq 0 (List.length parts)) parts) _) as [state|];
    destruct (scan_parts isdigit int_of None None parts) as [[[u b] d]|];
    try contradiction; [|reflexivity].
  destruct H as (-> & -> & -> & _). reflexivity.
Qed.



Lemma scan_plain_words (pre rest : list string) (u : option string)
    (b : option Z) :
  Forall (plain_word isdigit) pre ->
  scan_parts isdigit int_of u b (pre ++ rest) =
  match scan_parts isdigit int_of u b rest with
  | Some (u', b', d) => Some (u', b', pre ++ d)
  | None => None
  end.
Proof.
  induction 1 as [|part pre [Hdigit Halias] _ IH].
  - cbn [app]. destruct (scan_parts isdigit int_of u b rest)
      as [[[u' b'] d]|]; reflexivity.
  - cbn [app scan_parts]. rewrite Hdigit, Halias, IH. cbn [andb].
    destruct (scan_parts isdigit int_of u b rest) as [[[u' b'] d]|];
      destruct u; reflexivity.
Qed.

Lemma scan_all_found (t : string) (b : Z) (post : list string) :
  scan_parts isdigit int_of (Some t) (Some b) post
  = Some (Some t, Some b, post).
Proof.
  induction post as [|part post IH]; [reflexivity|].
  cbn [scan_parts]. rewrite andb_false_r, IH. reflexivity.
Qed.

Lemma scan_type_canonical (parts : list string) :
  forall u b u' b' d,
    scan_parts isdigit int_of u b parts = Some (u', b', d) ->
    match u with Some t => canonical t | None => True end ->
    match u' with Some t => canonical t | None => True end.
Proof.
  induction parts as [|part rest IH]; intros u b u' b' d.
  - cbn. intros [= <- _ _] Hu. exact Hu.
  - cbn [scan_parts].
    destruct (andb (isdigit part)
                (match b with Some _ => false | None => true end)).
    + destruct (int_of part); [|discriminate]. apply IH.
    + destruct u as [t|].
      * destruct (Dict.get (lower part) TYPE_ALIASES);
          destruct (scan_parts isdigit int_of (Some t) b rest)
            as [[[u1 b1] d1]|] eqn:Hscan; try discriminate;
          intros [= <- _ _] Hu; exact (IH _ _ _ _ _ Hscan Hu).
      * destruct (Dict.get (lower part) TYPE_ALIASES) as [db_type|]
          eqn:Halias.
        -- intros Hscan _. apply (IH _ _ _ _ _ Hscan).
           exact (alias_canonical _ _ Halias).
        -- destruct (scan_parts isdigit int_of None b rest)
             as [[[u1 b1] d1]|] eqn:Hscan; try discriminate.
           intros [= <- _ _] Hu. exact (IH _ _ _ _ _ Hscan Hu).
Qed.

Lemma kept_part_none (part : string)
    (x : option (option string * option Z * list string)) :
  match x with
  | Some (u, b, d) => Some (u, b, part :: d)
  | None => None
  end = None <-> x = None.
Proof.
  destruct x as [[[u b] d]|]; split; try discriminate; reflexivity.
Qed.

Lemma scan_with_bid (parts : list string) :
  forall u b, scan_parts isdigit int_of u (Some b) parts <> None.
Proof.
  induction parts as [|part rest IH]; intros u b; [discriminate|].
  cbn [scan_parts]. rewrite andb_false_r.
  destruct u as [t|]; destruct (Dict.get (lower part) TYPE_ALIASES);
    try apply IH; rewrite kept_part_none; apply IH.
Qed.

(** The scan fails exactly when the first part that passes [isdigit] is
    one [int] refuses. *)
Lemma scan_raises (parts : list string) :
  forall u,
    scan_parts isdigit int_of u None parts = None <->
    exists pre part post,
      parts = pre ++ part :: post /\
      Forall (fun p => isdigit p = false) pre /\
      isdigit part = true /\
      int_of part = None.
Proof.
  induction parts as [|part rest IH]; intros u.
  - split; [discriminate|]. intros (pre & p & post & Heq & _).
    destruct pre; discriminate Heq.
  - cbn [scan_parts]. rewrite andb_true_r.
    destruct (isdigit part) eqn:Hdigit.
    + destruct (int_of part) as [n|] eqn:Hint.
      * split; [intros H; exfalso; exact (scan_with_bid _ _ _ H)|].
        intros (pre & p & post & Heq & Hpre & Hp & Hi).
        destruct pre as [|q pre]; cbn [app] in Heq; injection Heq as <- ->.
        -- congruence.
        -- inversion Hpre; subst. congruence.
      * split; [|reflexivity]. intros _.
        exists [], part, rest. repeat split; auto.
    + assert (Hcons :
                (exists pre p post,
                   rest = pre ++ p :: post /\
                   Forall (fun q => isdigit q = false) pre /\
                   isdigit p = true /\ int_of p = None) <->
                (exists pre p post,
                   part :: rest = pre ++ p :: post /\
                   Forall (fun q => isdigit q = false) pre /\
                   isdigit p = true /\ int_of p = None)).
      { split.
        - intros (pre & p & post & -> & Hpre & Hp & Hi).
          exists (part :: pre), p, post. repeat split; auto.
        - intros (pre & p & post & Heq & Hpre & Hp & Hi).
          destruct pre as [|q pre]; cbn [app] in Heq;
            injection Heq as <- ->; [congruence|].
          inversion Hpre; subst. exists pre, p, post. repeat split; auto. }
      rewrite <- Hcons.
      destruct u as [t|]; destruct (Dict.get (lower part) TYPE_ALIASES);
        try apply IH; rewrite kept_part_none; apply IH.
Qed.

End ParseFacts.


(** X16. The type and the beatmap id may come in either order and
    anywhere among the words of the description: the first word that is a
    number is the id, the first other word that is an alias (in any case)
    gives the type, and every other word, later numbers and later aliases
    included, stays in the description, in its place and as typed. *)
Theorem X16_parser_order_free (isdigit : string -> bool)
    (int_of : string -> option Z) (pre mid post : list string)
    (type_word number_word t : string) (bid : Z) :
  Forall (plain_word isdigit) pre ->
  Forall (plain_word isdigit) mid ->
  isdigit type_word = false ->
  Dict.get (lower type_word) TYPE_ALIASES = Some t ->
  isdigit number_word = true ->
  int_of number_word = Some bid ->
  parse_parts isdigit int_of (pre ++ type_word :: mid ++ number_word :: post)
  = Some (Some t, Some bid, describe (pre ++ mid ++ post)) /\
  parse_parts isdigit int_of (pre ++ number_word :: mid ++ type_word :: post)
  = Some (Some t, Some bid, describe (pre ++ mid ++ post)).
Proof.
  intros Hpre Hmid Htype Halias Hnumber Hint.
  rewrite !parse_parts_scan.
  rewrite !(scan_plain_words isdigit int_of pre _ None None Hpre).
  cbn [scan_parts]. rewrite Htype, Hnumber, Halias, Hint. cbn [andb].
  rewrite (scan_plain_words isdigit int_of mid _ (Some t) None Hmid).
  rewrite (scan_plain_words isdigit int_of mid _ None (Some bid) Hmid).
  cbn [scan_parts]. rewrite Hnumber, Hint, Halias, andb_false_r.
  cbn [andb]. rewrite !scan_all_found. split; reflexivity.
Qed.

(** The witness of X16: nice JUMP hard 123 456 stream. *)
Lemma X16_parser_order_witness :
  parse_parts ascii_isdigit ascii_int
    (["nice"] ++ "JUMP" :: ["hard"] ++ "123" :: ["456"; "stream"])
  = Some (Some "jump", Some 123%Z, "nice hard 456 stream").
Proof.
  refine (proj1 (X16_parser_order_free ascii_isdigit ascii_int ["nice"]
                   ["hard"] ["456"; "stream"] "JUMP" "123" "jump" 123
                   _ _ _ _ _ _)).
  - repeat constructor.
  - repeat constructor.
  - reflexivity.
  - reflexivity.
  - reflexivity.
  - reflexivity.
Defined.

(** X17. The parser raises exactly when the first word that passes
    [isdigit] is one [int] refuses.  From words that are neither numbers
    nor aliases it finds no type and no id and returns them joined by
    single spaces; from no words at all it returns the placeholder
    description. *)
Theorem X17_parser_edges (isdigit : string -> bool)
    (int_of : string -> option Z) (parts : list string) :
  (parse_parts isdigit int_of parts = None <->
   exists pre part post,
     parts = pre ++ part :: post /\
     Forall (fun p => isdigit p = false) pre /\
     isdigit part = true /\
     int_of part = None) /\
  (Forall (plain_word isdigit) parts ->
   parse_parts isdigit int_of parts
   = Some (None, None, describe parts)) /\
  parse_parts isdigit int_of [] = Some (None, None, "TA没有填写描述！").
Proof.
  split; [|split].
  - rewrite parse_parts_scan, <- (scan_raises isdigit int_of parts None).
    destruct (scan_parts isdigit int_of None None parts) as [[[u b] d]|];
      split; try discriminate; reflexivity.
  - intros Hplain. rewrite parse_parts_scan.
    rewrite <- (app_nil_r parts) at 1.
    rewrite (scan_plain_words isdigit int_of parts [] None None Hplain).
    cbn [scan_parts]. rewrite app_nil_r. reflexivity.
  - reflexivity.
Qed.

(** ** From the text of the command to the store *)

Lemma parse_type_canonical (split : string -> list string)
    (isdigit : string -> bool) (int_of : string -> option Z)
    (arg_text : string) (u : option string) (b : option Z) (d : string) :
  parse_recommend_args split isdigit int_of arg_text = Some (u, b, d) ->
  match u with Some t => canonical t | None => True end.
Proof.
  unfold parse_recommend_args. rewrite parse_parts_scan.
  destruct (scan_parts isdigit int_of None None (split arg_text))
    as [[[u' b'] d']|] eqn:Hscan; [|discriminate].
  intros [= <- _ _].
  exact (scan_type_canonical isdigit int_of _ _ _ _ _ _ Hscan I).
Qed.

(** X18. Whatever the caller types, the type the parser hands on is
    absent or one of the five canonical types, never the word as typed
    and never empty; so a recommendation command, taken from its text,
    keeps every stored type canonical. *)
Theorem X18_typed_command_stores_canonical (split : string -> list string)
    (isdigit : string -> bool) (int_of : string -> option Z)
    (arg_text : string) (c : Call) (db db' : DB) (o : Outcome) :
  handle_recommend_text split isdigit int_of arg_text c db = Some (db', o) ->
  (exists u b d,
     parse_recommend_args split isdigit int_of arg_text = Some (u, b, d) /\
     match u with Some t => canonical t | None => True end /\
     truthy_str u = u) /\
  (all_canonical db -> all_canonical db').
Proof.
  unfold handle_recommend_text.
  destruct (parse_recommend_args split isdigit int_of arg_text)
    as [[[u b] d]|] eqn:Hparse; [|discriminate].
  pose proof (parse_type_canonical split isdigit int_of arg_text u b d
                Hparse) as Hcanon.
  intros [= Hresult]. split.
  - exists u, b, d. split; [reflexivity|]. split; [exact Hcanon|].
    destruct u as [t|]; [|reflexivity].
    destruct Hcanon as [-> | [-> | [-> | [-> | ->]]]]; reflexivity.
  - intros Hall. change db' with (fst (db', o)). rewrite <- Hresult.
    apply all_canonical_handle; [|exact Hall].
    unfold canonical_user_type. cbn [user_specified_type]. exact Hcanon.
Qed.

(** The witness of X18: the text  Aim 42 fun  on the empty store. *)
Lemma X18_typed_command_witness :
  all_canonical
    (fst (handle_recommend_command
            {| qqid := 7; binding_info := Some sample_binding;
               user_specified_type := Some "jump";
               bid_from_arg := Some 42%Z;
               description_from_arg := "fun";
               recent_beatmap_id := None;
               official_info := Some [("id", "42")];
               oracle_classification := None;
               now := 100;
               check_fault := NoFault;
               probabilities_only_fault := NoFault;
               pending_fault := NoFault;
               analysis_fault := NoFault;
               recommendation_fault := NoFault |} empty_db)).
Proof.
  refine (proj2 (X18_typed_command_stores_canonical ascii_split
                   ascii_isdigit ascii_int "Aim 42 fun"
                   (sample_call None None) empty_db _ _ _) _).
  - reflexivity.
  - constructor.
Defined.


(** ** The list of pending reviews *)

Lemma insert_newest_first_perm (r : PendingRow) (sorted : list PendingRow) :
  Permutation (insert_newest_first r sorted) (r :: sorted).
Proof.
  induction sorted as [|x rest IH]; simpl; [apply Permutation_refl|].
  destruct (Z.leb (added_to_queue_at x) (added_to_queue_at r));
    [apply Permutation_refl|].
  apply (perm_trans (perm_skip x IH)). apply perm_swap.
Qed.

Lemma order_newest_first_perm (rows : list PendingRow) :
  Permutation (order_newest_first rows) rows.
Proof.
  induction rows as [|r rest IH]; simpl; [constructor|].
  apply (perm_trans (insert_newest_first_perm r _)).
  apply perm_skip. exact IH.
Qed.

Lemma insert_newest_first_sorted (r : PendingRow)
    (sorted : list PendingRow) :
  newest_first sorted -> newest_first (insert_newest_first r sorted).
Proof.
  unfold newest_first. induction 1 as [|x rest Hrest IH Hx]; simpl.
  - repeat constructor.
  - destruct (Z.leb (added_to_queue_at x) (added_to_queue_at r)) eqn:Hle.
    + apply Z.leb_le in Hle. constructor.
      * constructor; assumption.
      * constructor; [exact Hle|].
        eapply Forall_impl; [|exact Hx]. cbv beta. intros. lia.
    + apply Z.leb_gt in Hle. constructor; [exact IH|].
      apply (Permutation_Forall
               (Permutation_sym (insert_newest_first_perm r rest))).
      constructor; [lia | exact Hx].
Qed.

Lemma order_newest_first_sorted (rows : list PendingRow) :
  newest_first (order_newest_first rows).
Proof.
  induction rows as [|r rest IH]; simpl.
  - constructor.
  - apply insert_newest_first_sorted. exact IH.
Qed.

Lemma newest_first_split (n : nat) (rows : list PendingRow) :
  newest_first rows ->
  newest_first (firstn n rows) /\
  forall a b,
    In a (firstn n rows) -> In b (skipn n rows) ->
    (added_to_queue_at b <= added_to_queue_at a)%Z.
Proof.
  unfold newest_first. intros Hsorted. revert n.
  induction Hsorted as [|x rest Hrest IH Hx]; intros n.
  - rewrite firstn_nil, skipn_nil. split; [constructor | intros ? ? []].
  - destruct n as [|n]; cbn [firstn skipn].
    + split; [constructor | intros ? ? []].
    + destruct (IH n) as [Hfirst Hcut]. split.
      * constructor; [exact Hfirst|].
        rewrite Forall_forall in *. intros y Hy. apply Hx.
        rewrite <- (firstn_skipn n rest). apply in_or_app. left. exact Hy.
      * intros a b [<- | Ha] Hb; [|exact (Hcut a b Ha Hb)].
        rewrite Forall_forall in Hx. apply Hx.
        rewrite <- (firstn_skipn n rest). apply in_or_app. right. exact Hb.
Qed.

Lemma get_pending_list_from_db_eq f count db :
  get_pending_list_from_db f count db =
  if survives f 1
  then map pending_item
         (firstn (Z.to_nat count)
            (order_newest_first (PendingBeatmapReviews db)))
  else [].
Proof.
  destruct f as [| |[|n]]; reflexivity.
Qed.

(** X19. The list of pending reviews holds the newest entries of the
    queue, newest first: it is the beginning, of at most [count] rows, of
    the queue put in that order, so every entry left out is no newer than
    any entry listed.  Without a connection, or when the query fails, the
    list is empty whatever the queue holds. *)
Theorem X19_pending_list_newest_first (f : Fault) (count : Z) (db : DB) :
  (survives f 1 = true ->
   exists listed left_out,
     get_pending_list_from_db f count db = map pending_item listed /\
     Permutation (listed ++ left_out) (PendingBeatmapReviews db) /\
     newest_first listed /\
     List.length listed
     = Nat.min (Z.to_nat count) (List.length (PendingBeatmapReviews db)) /\
     (forall a b,
        In a listed -> In b left_out ->
        (added_to_queue_at b <= added_to_queue_at a)%Z)) /\
  (survives f 1 = false -> get_pending_list_from_db f count db = []).
Proof.
  rewrite get_pending_list_from_db_eq. split; intros ->; [|reflexivity].
  set (sorted := order_newest_first (PendingBeatmapReviews db)).
  exists (firstn (Z.to_nat count) sorted), (skipn (Z.to_nat count) sorted).
  destruct (newest_first_split (Z.to_nat count) sorted
              (order_newest_first_sorted _)) as [Hfirst Hcut].
  split; [reflexivity|]. split.
  { rewrite firstn_skipn. apply order_newest_first_perm. }
  split; [exact Hfirst|]. split; [|exact Hcut].
  rewrite length_firstn. unfold sorted.
  rewrite (Permutation_length (order_newest_first_perm _)). reflexivity.
Qed.

(** The witness of X19: two rows asked of a queue of three. *)
Lemma X19_pending_list_witness :
  exists listed left_out,
    get_pending_list_from_db NoFault 2 three_pending
    = map pending_item listed /\
    Permutation (listed ++ left_out) (PendingBeatmapReviews three_pending) /\
    newest_first listed /\
    List.length listed = 2%nat /\
    (forall a b,
       In a listed -> In b left_out ->
       (added_to_queue_at b <= added_to_queue_at a)%Z).
Proof.
  refine (proj1 (X19_pending_list_newest_first NoFault 2 three_pending) _).
  reflexivity.
Defined.

Lemma pending_command_unchanged info_fault update_fault now bid raw_new_type
    admin_id db :
  (forall t,
     snd (handle_pending_command info_fault update_fault now bid
            raw_new_type admin_id db) <> Processed t) ->
  fst (handle_pending_command info_fault update_fault now bid raw_new_type
         admin_id db) = db.
Proof.
  unfold handle_pending_command.
  destruct (truthy_str (Dict.get (lower raw_new_type) TYPE_ALIASES))
    as [new_type|]; [|reflexivity].
  destruct (negb (in_VALID_TYPES new_type)); [reflexivity|].
  destruct (get_beatmap_analysis_info info_fault bid db); [|reflexivity].
  rewrite update_beatmap_classification_eq.
  destruct (select_one analysis_key bid (BeatmapAnalysis db));
    [|reflexivity].
  destruct (survives update_fault 4); [|reflexivity].
  cbn [fst snd]. intros Hnot. exfalso. exact (Hnot new_type eq_refl).
Qed.

Section PendingCommandFacts.

Variable isdigit : string -> bool.
Variable int_of : string -> option Z.

(** X20. The number of rows the list command asks for is always between
    1 and 20: 5 when no second word is given or the second word is not a
    number, the number itself when it lies between 1 and 20, and the
    nearer bound otherwise. *)
Theorem X20_pending_list_count (arg_list : list string) (count : Z) :
  pending_list_count isdigit int_of arg_list = Some count ->
  (1 <= count <= 20)%Z /\
  (forall first second rest n,
     arg_list = first :: second :: rest ->
     isdigit second = true ->
     int_of second = Some n ->
     ((1 <= n <= 20)%Z -> count = n) /\
     ((n < 1)%Z -> count = 1%Z) /\
     ((20 < n)%Z -> count = 20%Z)) /\
  ((forall first second rest,
      arg_list = first :: second :: rest -> isdigit second = false) ->
   count = 5%Z).
Proof.
  unfold pending_list_count. intros Hcount. split; [|split].
  - destruct arg_list as [|first [|second rest]];
      [injection Hcount as <- | injection Hcount as <- |]; try lia.
    destruct (isdigit second); [|injection Hcount as <-; lia].
    destruct (int_of second) as [n|]; [|discriminate].
    injection Hcount as <-. lia.
  - intros first second rest n -> Hdigit Hint.
    rewrite Hdigit, Hint in Hcount. injection Hcount as <-.
    repeat split; lia.
  - intros Hnot.
    destruct arg_list as [|first [|second rest]];
      [injection Hcount as <- | injection Hcount as <- |]; try reflexivity.
    rewrite (Hnot first second rest eq_refl) in Hcount.
    injection Hcount as <-. reflexivity.
Qed.

(** X21. A [/pending] command changes the store only when it reports a
    classification as processed: the usage reply, the list in either
    form, a first word that is not a number, a wrong number of words and
    every failed classification leave the store as it was; and a command
    whose first word is list, in any case, never reaches the
    classification. *)
Theorem X21_pending_words_write_on_success (list_fault info_fault
    update_fault : Fault) (now : Z) (arg_list : list string)
    (admin_id : string) (db db' : DB) (reply : PendingReply) :
  handle_pending_words isdigit int_of list_fault info_fault update_fault
    now arg_list admin_id db = Some (db', reply) ->
  ((forall t, reply <> Classification (Processed t)) -> db' = db) /\
  (forall first rest,
     arg_list = first :: rest ->
     lower first = "list" ->
     db' = db /\ forall outcome, reply <> Classification outcome).
Proof.
  unfold handle_pending_words. intros Hresult.
  destruct arg_list as [|first rest].
  { injection Hresult as <- <-. split; [reflexivity|].
    intros ? ? [=]. }
  destruct (String.eqb (lower first) "list") eqn:Haction.
  - assert (Hlist : db' = db /\ forall outcome, reply <> Classification outcome).
    { destruct (pending_list_count isdigit int_of (first :: rest));
        [|discriminate].
      destruct (get_pending_list_from_db list_fault z db);
        injection Hresult as <- <-; split; try reflexivity; discriminate. }
    split; [intros _; exact (proj1 Hlist)|].
    intros ? ? _ _. exact Hlist.
  - apply String.eqb_neq in Haction. split.
    + intros Hnot.
      destruct rest as [|raw_new_type [|third rest]];
        try (injection Hresult as <- <-; reflexivity).
      destruct (negb (isdigit first));
        [injection Hresult as <- <-; reflexivity|].
      destruct (int_of first) as [bid|]; [|discriminate].
      pose proof (pending_command_unchanged info_fault update_fault now bid
                    raw_new_type admin_id db) as Hwrite.
      destruct (handle_pending_command info_fault update_fault now bid
                  raw_new_type admin_id db) as [db1 outcome].
      injection Hresult as <- <-. cbn [fst snd] in Hwrite.
      apply Hwrite. intros t ->. exact (Hnot t eq_refl).
    + intros first' rest' [= <- _] Hlist. congruence.
Qed.

End PendingCommandFacts.


(** The witness of X20: fifty rows asked for. *)
Lemma X20_pending_list_count_witness :
  pending_list_count ascii_isdigit ascii_int ["list"; "50"] = Some 20%Z /\
  (1 <= 20 <= 20)%Z.
Proof.
  split; [reflexivity|].
  refine (proj1 (X20_pending_list_count ascii_isdigit ascii_int
                   ["list"; "50"] 20 _)).
  reflexivity.
Defined.

(** The witness of X21: the list asked for in capitals. *)
Lemma X21_pending_words_witness :
  three_pending = three_pending /\
  forall outcome,
    Listing
      (map pending_item
         [ pending_row 2 "oracle_failed_user_specified_type" None 30;
           pending_row 3 "oracle_ambiguous_result" None 20;
           pending_row 1 "oracle_ambiguous_result" None 10 ])
    <> Classification outcome.
Proof.
  refine (proj2 (X21_pending_words_write_on_success ascii_isdigit ascii_int
                   NoFault NoFault NoFault 0 ["LIST"; "3"] "admin"
                   three_pending three_pending _ _)
            "LIST" ["3"] _ _).
  - reflexivity.
  - reflexivity.
  - reflexivity.
Defined.

(** ** A recommendation that cannot be stored *)

Ltac recommendation_fault_fields :=
  cbn [with_recommendation_fault qqid binding_info user_specified_type
       bid_from_arg description_from_arg recent_beatmap_id official_info
       oracle_classification now check_fault probabilities_only_fault
       pending_fault analysis_fault recommendation_fault] in *.

(** X22. Steps 3 and 4 do not wait for step 5: the analysis table and the
    review queue a command leaves are the same whether or not its
    recommendation can be stored.  When it cannot, the command reports
    the failure and adds nothing to the log, while its writes to the
    analysis table and the queue remain. *)
Theorem X22_failed_log_keeps_other_writes (c : Call) (binding : Binding)
    (bid : Z) (db : DB) (f : Fault) :
  let stored := resolve_and_record (with_recommendation_fault c NoFault)
                  binding bid db in
  let result := resolve_and_record (with_recommendation_fault c f)
                  binding bid db in
  BeatmapAnalysis (fst result) = BeatmapAnalysis (fst stored) /\
  PendingBeatmapReviews (fst result) = PendingBeatmapReviews (fst stored) /\
  (survives f 2 = false ->
   Recommendations (fst result) = Recommendations db /\
   (metadata_available c ->
    select_existing_analysis (check_fault c) bid db <> None ->
    snd result = RecordFailed)).
Proof.
  cbv zeta. unfold resolve_and_record.
  rewrite !get_oracle_analysis_results_eq. recommendation_fault_fields.
  unfold metadata_available.
  destruct (fetch_and_store_beatmap_info (official_info c));
    [|repeat split; congruence].
  destruct (select_existing_analysis (check_fault c) bid db)
    as [existing|]; [|repeat split; congruence].
  assert (Hauto : forall g raw t,
            resolve_auto (with_recommendation_fault c g) bid raw t db
            = resolve_auto c bid raw t db) by reflexivity.
  assert (Hmanual : forall g raw t,
            resolve_manual (with_recommendation_fault c g) bid raw t db
            = resolve_manual c bid raw t db) by reflexivity.
  assert (Hgoal : forall resolved,
            Recommendations (fst resolved) = Recommendations db ->
            BeatmapAnalysis
              (fst (record_recommendation (with_recommendation_fault c f)
                      binding bid resolved))
            = BeatmapAnalysis
                (fst (record_recommendation
                        (with_recommendation_fault c NoFault) binding bid
                        resolved)) /\
            PendingBeatmapReviews
              (fst (record_recommendation (with_recommendation_fault c f)
                      binding bid resolved))
            = PendingBeatmapReviews
                (fst (record_recommendation
                        (with_recommendation_fault c NoFault) binding bid
                        resolved)) /\
            (survives f 2 = false ->
             Recommendations
               (fst (record_recommendation (with_recommendation_fault c f)
                       binding bid resolved))
             = Recommendations db /\
             snd (record_recommendation (with_recommendation_fault c f)
                    binding bid resolved) = RecordFailed)).
  { intros [db1 resolution] Hsame.
    rewrite !analysis_record_recommendation, !pending_record_recommendation.
    split; [reflexivity|]. split; [reflexivity|]. intros Hf.
    rewrite record_recommendation_eq. recommendation_fault_fields.
    rewrite Hf. cbn [fst snd] in *. split; [exact Hsame | reflexivity]. }
  destruct existing as [row|];
    [destruct (negb (is_auto_typed row))|];
    rewrite ?Hauto, ?Hmanual;
    match goal with
    | |- context [record_recommendation _ binding bid ?r] =>
        destruct (Hgoal r) as (Ha & Hp & Hr);
        [ auto using recommendations_resolve_auto,
            recommendations_resolve_manual
        | split; [exact Ha|]; split; [exact Hp|];
          intros Hf; destruct (Hr Hf) as [Hlog Hout];
          split; [exact Hlog|]; intros _ _; exact Hout ]
    end.
Qed.

(** The witness of X22: jump asserted for a new beatmap, the service
    down, the log out of reach. *)
Lemma X22_failed_log_witness :
  snd (resolve_and_record
         (with_recommendation_fault (sample_call (Some "jump") None)
            NoConnection)
         sample_binding 42 empty_db) = RecordFailed.
Proof.
  refine (proj2 (proj2 (proj2 (X22_failed_log_keeps_other_writes
                                 (sample_call (Some "jump") None)
                                 sample_binding 42 empty_db NoConnection))
                   _) _ _).
  - reflexivity.
  - discriminate.
  - discriminate.
Defined.

